(** * dazense: semantic-layer tools, loaders, matcher and compiler

  A shallow embedding of the TypeScript backend of the repository (the
  zod schemas of the tools, the YAML loaders of [user-rules.ts], the
  tool registry of [agents/tools/index.ts] and the three tool
  executors) and of the two components of the CLI that the backend
  calls over HTTP, the rule matcher and the query compiler, as the
  specification describes them; followed by the properties proved
  about them. *)

From Stdlib Require Import ZArith Lia Ascii.
From stdpp Require Import base option list sorting strings pretty gmap.

Local Open Scope string_scope.
Local Open Scope list_scope.
Set Warnings "-register-all,-clear-no-such-hyp".

(* ===================================================================== *)
(** ** JavaScript values, as produced by [YAML.parse] and [response.json] *)
(* ===================================================================== *)

Module JS.

(** JSON-like values.  An object is its list of own enumerable
    properties in property order (keys pairwise distinct); numbers are
    restricted to integers. *)
Inductive value : Type :=
| VUndefined
| VNull
| VBool (b : bool)
| VNum (n : Z)
| VStr (s : string)
| VArr (xs : list value)
| VObj (props : list (string * value)).

(** What a JavaScript function can throw in the modelled code. *)
Inductive exn : Type :=
| TypeError (msg : string)
| YAMLParseError
| SyntaxError
| Error (msg : string).

(** Outcome of evaluating code that may throw. *)
Inductive completion (A : Type) : Type :=
| Return (a : A)
| Throw (e : exn).
Arguments Return {A} a.
Arguments Throw {A} e.

Definition bind {A B} (c : completion A) (k : A -> completion B) : completion B :=
  match c with
  | Return a => k a
  | Throw e => Throw e
  end.

#[export] Instance completion_ret : MRet completion := fun A a => Return a.
#[export] Instance completion_bind : MBind completion := fun A B k c => bind c k.

Fixpoint mapM {A B} (f : A -> completion B) (l : list A) : completion (list B) :=
  match l with
  | [] => Return []
  | x :: r => bind (f x) (fun y => bind (mapM f r) (fun ys => Return (y :: ys)))
  end.

(** [!!v] *)
Definition truthy (v : value) : bool :=
  match v with
  | VUndefined | VNull => false
  | VBool b => b
  | VNum n => negb (n =? 0)%Z
  | VStr s => negb (String.eqb s "")
  | VArr _ | VObj _ => true
  end.

(** [a || b] *)
Definition or_else (a b : value) : value := if truthy a then a else b.

(** [a && b] *)
Definition and_then (a b : value) : value := if truthy a then b else a.

(** A possibly [undefined] string or number as a value. *)
Definition of_opt_string (o : option string) : value :=
  match o with Some s => VStr s | None => VUndefined end.

Definition of_opt_number (o : option Z) : value :=
  match o with Some n => VNum n | None => VUndefined end.

Definition of_strings (l : list string) : value := VArr (VStr <$> l).

Fixpoint assoc (k : string) (props : list (string * value)) : option value :=
  match props with
  | [] => None
  | (k', v) :: r => if String.eqb k k' then Some v else assoc k r
  end.

(** [v.k] for a key [k] that is neither an array index, [length] nor a
    prototype member (all keys read by the modelled code are such). *)
Definition get (v : value) (k : string) : completion value :=
  match v with
  | VUndefined | VNull =>
      Throw (TypeError ("Cannot read properties of undefined or null (reading '" +:+ k +:+ "')"))
  | VObj props => Return (default VUndefined (assoc k props))
  | _ => Return VUndefined
  end.

(** [v?.k] *)
Definition get_opt (v : value) (k : string) : value :=
  match v with
  | VObj props => default VUndefined (assoc k props)
  | _ => VUndefined
  end.

Fixpoint chars (s : string) : list value :=
  match s with
  | EmptyString => []
  | String c r => VStr (String c EmptyString) :: chars r
  end.

Definition indexed (xs : list value) : list (string * value) :=
  imap (fun i x => (pretty i, x)) xs.

(** Own enumerable string-keyed properties, as [Object.entries] lists
    them; [None] stands for the TypeError on [undefined] and [null]. *)
Definition own_props (v : value) : option (list (string * value)) :=
  match v with
  | VUndefined | VNull => None
  | VBool _ | VNum _ => Some []
  | VStr s => Some (indexed (chars s))
  | VArr xs => Some (indexed xs)
  | VObj props => Some props
  end.

Definition Object_entries (v : value) : completion (list (string * value)) :=
  match own_props v with
  | Some ps => Return ps
  | None => Throw (TypeError "Cannot convert undefined or null to object")
  end.

Definition Object_keys (v : value) : completion (list string) :=
  bind (Object_entries v) (fun ps => Return (ps.*1)).

(** [o[k] = v] on a property list: overwrite in place or append. *)
Fixpoint set_prop (k : string) (v : value) (props : list (string * value))
  : list (string * value) :=
  match props with
  | [] => [(k, v)]
  | (k', v') :: r =>
      if String.eqb k k' then (k, v) :: r else (k', v') :: set_prop k v r
  end.

Definition set_props (news base : list (string * value)) : list (string * value) :=
  fold_left (fun acc kv => set_prop kv.1 kv.2 acc) news base.

(** [Object.fromEntries(entries)] *)
Definition Object_fromEntries (entries : list (string * value)) : value :=
  VObj (set_props entries []).

(** The properties that [{ ...v }] copies: nothing for [undefined],
    [null], booleans and numbers. *)
Definition spread (v : value) : list (string * value) :=
  default [] (own_props v).

(** [JSON.stringify] drops the properties whose value is [undefined]. *)
Definition is_undefined (v : value) : bool :=
  match v with VUndefined => true | _ => false end.

Definition json_props (props : list (string * value)) : list (string * value) :=
  filter (fun kv => negb (is_undefined kv.2)) props.

End JS.

(* ===================================================================== *)
(** ** The zod schemas of the query-metrics tool (shared/tools)          *)
(* ===================================================================== *)

Module Zod.
Import JS.

(** A zod issue: the path of the offending field and the issue code. *)
Inductive code : Type := invalid_type | invalid_enum_value.

Definition issue : Type := (list string * code)%type.

(** [safeParse] outcome: the parsed data, or the issues found. *)
Inductive parsed (A : Type) : Type :=
| Ok (a : A)
| Invalid (issues : list issue).
Arguments Ok {A} a.
Arguments Invalid {A} issues.

Definition issues_of {A} (p : parsed A) : list issue :=
  match p with Ok _ => [] | Invalid l => l end.

Definition at_key {A} (k : string) (p : parsed A) : parsed A :=
  match p with
  | Ok a => Ok a
  | Invalid l => Invalid (map (fun i => (k :: i.1, i.2)) l)
  end.

(** [z.string()] *)
Definition z_string (v : value) : parsed string :=
  match v with
  | VStr s => Ok s
  | _ => Invalid [([], invalid_type)]
  end.

(** [z.boolean()] *)
Definition z_boolean (v : value) : parsed bool :=
  match v with
  | VBool b => Ok b
  | _ => Invalid [([], invalid_type)]
  end.

(** [z.any()] *)
Definition z_any (v : value) : parsed value := Ok v.

(** [schema.default(d)]: only [undefined] is replaced by the default. *)
Definition z_default {A} (schema : value -> parsed A) (d : value) (v : value) : parsed A :=
  match v with
  | VUndefined => schema d
  | _ => schema v
  end.

(** The members of [z.enum(['eq', 'ne', 'gt', 'gte', 'lt', 'lte', 'in', 'not_in'])]. *)
Inductive operator : Type :=
| op_eq | op_ne | op_gt | op_gte | op_lt | op_lte | op_in | op_not_in.

Definition operators : list operator :=
  [op_eq; op_ne; op_gt; op_gte; op_lt; op_lte; op_in; op_not_in].

Definition operator_name (o : operator) : string :=
  match o with
  | op_eq => "eq" | op_ne => "ne" | op_gt => "gt" | op_gte => "gte"
  | op_lt => "lt" | op_lte => "lte" | op_in => "in" | op_not_in => "not_in"
  end.

(** [z.enum([...])] *)
Definition z_enum_operator (v : value) : parsed operator :=
  match v with
  | VStr s =>
      match List.find (fun o => String.eqb (operator_name o) s) operators with
      | Some o => Ok o
      | None => Invalid [([], invalid_enum_value)]
      end
  | _ => Invalid [([], invalid_type)]
  end.

Record Filter : Type := mkFilter {
  f_column : string;
  f_operator : operator;
  f_value : value;
}.

Record OrderBy : Type := mkOrderBy {
  o_column : string;
  o_ascending : bool;
}.

(** [FilterSchema]: a [z.object] reads each key of its shape from the
    input (a missing key reads as [undefined]), ignores unknown keys and
    reports the issues of all keys. *)
Definition FilterSchema (input : value) : parsed Filter :=
  match input with
  | VObj props =>
      let column := at_key "column" (z_string (get_opt input "column")) in
      let operator :=
        at_key "operator" (z_default z_enum_operator (VStr "eq") (get_opt input "operator")) in
      let value := at_key "value" (z_any (get_opt input "value")) in
      match column, operator, value with
      | Ok c, Ok o, Ok v => Ok (mkFilter c o v)
      | _, _, _ => Invalid (issues_of column ++ issues_of operator ++ issues_of value)
      end
  | _ => Invalid [([], invalid_type)]
  end.

(** [OrderBySchema] *)
Definition OrderBySchema (input : value) : parsed OrderBy :=
  match input with
  | VObj props =>
      let column := at_key "column" (z_string (get_opt input "column")) in
      let ascending :=
        at_key "ascending" (z_default z_boolean (VBool true) (get_opt input "ascending")) in
      match column, ascending with
      | Ok c, Ok a => Ok (mkOrderBy c a)
      | _, _ => Invalid (issues_of column ++ issues_of ascending)
      end
  | _ => Invalid [([], invalid_type)]
  end.

Definition accepts {A} (p : parsed A) : Prop := exists a, p = Ok a.

End Zod.

(* ===================================================================== *)
(** ** The YAML loaders of the backend (agents/user-rules.ts)            *)
(* ===================================================================== *)

Module UserRules.
Import JS.

(** What the loaders read from their environment: the project path of
    [env], the file system, [path.join] and [YAML.parse]. *)
Record World : Type := mkWorld {
  NAO_DEFAULT_PROJECT_PATH : option string;
  join : list string -> string;
  existsSync : string -> bool;
  readFileSync : string -> completion string;
  YAML_parse : string -> completion value;
}.

(** One [console.error(message, error)] call. *)
Definition logged : Type := (string * exn)%type.

(** A loader returns its value ([None] is [null]) and what it wrote to
    the console. *)
Record outcome (A : Type) : Type := mkOutcome {
  ret : option A;
  console : list logged;
}.
Arguments mkOutcome {A} ret console.
Arguments ret {A} o.
Arguments console {A} o.

(** [try { body } catch (error) { console.error(message, error); return null; }] *)
Definition try_catch {A} (message : string) (body : completion (option A)) : outcome A :=
  match body with
  | Return r => mkOutcome r []
  | Throw e => mkOutcome None [(message, e)]
  end.

Record SemanticModelInfo : Type := mkSemanticModelInfo {
  name : string;
  table : value;
  description : value;
  dimensions : list string;
  measures : list (string * value);
  joins : list string;
}.

(** The arrow function mapped over the entries of a measures object:
    [([k, v]) => [k, v.type]]. *)
Definition measure_type (entry : string * value) : completion (string * value) :=
  t ← get entry.2 "type"; Return (entry.1, t).

(** The arrow function mapped over [Object.entries(parsed.models)]. *)
Definition model_info (entry : string * value) : completion SemanticModelInfo :=
  let model := entry.2 in
  table ← get model "table";
  description ← get model "description";
  dims ← get model "dimensions";
  dimensions ← Object_keys (or_else dims (VObj []));
  meas ← get model "measures";
  mentries ← Object_entries (or_else meas (VObj []));
  mtypes ← mapM measure_type mentries;
  jns ← get model "joins";
  joins ← Object_keys (or_else jns (VObj []));
  Return (mkSemanticModelInfo entry.1 table description dimensions
            (set_props mtypes []) joins).

Definition getSemanticModels (w : World) : outcome (list SemanticModelInfo) :=
  match NAO_DEFAULT_PROJECT_PATH w with
  | None => mkOutcome None []
  | Some projectFolder =>
      if String.eqb projectFolder "" then mkOutcome None [] else
      let yamlPath := join w [projectFolder; "semantics"; "semantic_model.yml"] in
      if negb (existsSync w yamlPath) then mkOutcome None [] else
      try_catch "Error reading semantic_model.yml:"
        (content ← readFileSync w yamlPath;
         parsed ← YAML_parse w content;
         let models := get_opt parsed "models" in
         if negb (truthy models) then Return None else
         entries ← Object_entries models;
         infos ← mapM model_info entries;
         Return (Some infos))
  end.

Record BusinessRuleInfo : Type := mkBusinessRuleInfo {
  r_name : value;
  r_category : value;
  r_severity : value;
  r_description : value;
  r_guidance : value;
}.

(** The arrow function mapped over [parsed.rules]. *)
Definition rule_info (rule : value) : completion BusinessRuleInfo :=
  name ← get rule "name";
  category ← get rule "category";
  severity ← get rule "severity";
  description ← get rule "description";
  guidance ← get rule "guidance";
  Return (mkBusinessRuleInfo name category (or_else severity (VStr "info"))
            description guidance).

(** [xs.map(f)]: only arrays have a [map] method. *)
Definition array_map {B} (f : value -> completion B) (v : value) : completion (list B) :=
  match v with
  | VArr xs => mapM f xs
  | VUndefined | VNull => Throw (TypeError "Cannot read properties of undefined or null (reading 'map')")
  | _ => Throw (TypeError "parsed.rules.map is not a function")
  end.

Definition getBusinessRules (w : World) : outcome (list BusinessRuleInfo) :=
  match NAO_DEFAULT_PROJECT_PATH w with
  | None => mkOutcome None []
  | Some projectFolder =>
      if String.eqb projectFolder "" then mkOutcome None [] else
      let yamlPath := join w [projectFolder; "semantics"; "business_rules.yml"] in
      if negb (existsSync w yamlPath) then mkOutcome None [] else
      try_catch "Error reading business_rules.yml:"
        (content ← readFileSync w yamlPath;
         parsed ← YAML_parse w content;
         let rules := get_opt parsed "rules" in
         if negb (truthy rules) then Return None else
         infos ← array_map rule_info rules;
         Return (Some infos))
  end.

(** The path of a document of the project, when a project is configured. *)
Definition semantics_file (w : World) (file : string) : option string :=
  match NAO_DEFAULT_PROJECT_PATH w with
  | Some p => if String.eqb p "" then None else Some (join w [p; "semantics"; file])
  | None => None
  end.

(** The document [file] of the project is absent. *)
Definition absent (w : World) (file : string) : Prop :=
  exists path, semantics_file w file = Some path /\ existsSync w path = false.

(** The document [file] of the project is present and [YAML.parse] gives
    [parsed] for it. *)
Definition holds (w : World) (file : string) (parsed : completion value) : Prop :=
  exists path content,
    semantics_file w file = Some path /\ existsSync w path = true /\
    readFileSync w path = Return content /\ YAML_parse w content = parsed.

(** The document is present but is not YAML. *)
Definition malformed (w : World) (file : string) : Prop :=
  exists e, holds w file (Throw e).

(** A loader tells an absent document from a malformed one when its
    return values differ in the two cases. *)
Definition distinguishes {A} (load : World -> outcome A) (file : string) : Prop :=
  forall w1 w2, absent w1 file -> malformed w2 file -> ret (load w1) <> ret (load w2).

(** The severity a rule of the document declares. *)
Definition declared_severity (rule : value) : value := get_opt rule "severity".

End UserRules.

(* ===================================================================== *)
(** ** Tool registration (agents/tools/index.ts)                         *)
(* ===================================================================== *)

Module Registry.
Import JS.

(** The tool objects imported by [index.ts]; [mcpTool] is a tool served
    by the MCP service. *)
Inductive tool : Type :=
| displayChart | executePython | executeSql | grep | list_ | read | search
| suggestFollowUps | queryMetrics | getBusinessContext | classify
| mcpTool (id : string).

#[export] Instance tool_eq_dec : EqDecision tool.
Proof. solve_decision. Defined.

Record Experimental : Type := mkExperimental {
  pythonSandboxing : option bool;
}.

Record AgentSettings : Type := mkAgentSettings {
  experimental : option Experimental;
}.

(** The module-level state [getTools] reads: [env], the file system,
    [path.join], whether the [execute-python] module exports a tool, and
    the tools of [mcpService.getMcpTools()] by name. *)
Record Host : Type := mkHost {
  NAO_DEFAULT_PROJECT_PATH : option string;
  join : list string -> string;
  existsSync : string -> bool;
  executePython_available : bool;
  getMcpTools : gmap string string;
}.

(** [!!projectFolder] *)
Definition configured (projectFolder : option string) : bool :=
  truthy (of_opt_string projectFolder).

Definition hasSemanticModel (h : Host) : bool :=
  configured (NAO_DEFAULT_PROJECT_PATH h) &&
  existsSync h (join h [default "" (NAO_DEFAULT_PROJECT_PATH h); "semantics"; "semantic_model.yml"]).

Definition hasBusinessRules (h : Host) : bool :=
  configured (NAO_DEFAULT_PROJECT_PATH h) &&
  existsSync h (join h [default "" (NAO_DEFAULT_PROJECT_PATH h); "semantics"; "business_rules.yml"]).

(** [{ ...target, ...source }]: the properties of [source] win. *)
Definition assign (target source : gmap string tool) : gmap string tool :=
  source ∪ target.

(** [...(cond && { k: t })] contributes [k] only when [cond] holds. *)
Definition when (cond : bool) (k : string) (t : tool) : gmap string tool :=
  if cond then {[ k := t ]} else ∅.

Definition tools (h : Host) : gmap string tool :=
  assign (assign (assign (assign (assign (assign (assign
    {[ "display_chart" := displayChart ]}
    (when (executePython_available h) "execute_python" executePython))
    {[ "execute_sql" := executeSql ]})
    {[ "grep" := grep ]})
    {[ "list" := list_ ]})
    {[ "read" := read ]})
    {[ "search" := search ]})
    {[ "suggest_follow_ups" := suggestFollowUps ]}.

(** [agentSettings?.experimental?.pythonSandboxing], as a condition. *)
Definition sandboxing (agentSettings : option AgentSettings) : bool :=
  match agentSettings with
  | Some a =>
      match experimental a with
      | Some e => default false (pythonSandboxing e)
      | None => false
      end
  | None => false
  end.

Definition getTools (h : Host) (agentSettings : option AgentSettings) : gmap string tool :=
  let mcpTools := mcpTool <$> getMcpTools h in
  let execute_python := tools h !! "execute_python" in
  let baseTools := delete "execute_python" (tools h) in
  assign (assign (assign (assign (assign
    baseTools
    mcpTools)
    (match execute_python with
     | Some t => when (sandboxing agentSettings) "execute_python" t
     | None => ∅
     end))
    (when (hasSemanticModel h) "query_metrics" queryMetrics))
    (when (hasBusinessRules h) "get_business_context" getBusinessContext))
    (when (hasBusinessRules h) "classify" classify).

End Registry.

(* ===================================================================== *)
(** ** The tool executors (query-metrics.ts, get-business-context.ts,
       classify.ts)                                                       *)
(* ===================================================================== *)

Module Executors.
Import JS.

(** A [fetch] call: the URL and the object given to [JSON.stringify]
    for the body (method POST, JSON content type). *)
Record Request : Type := mkRequest {
  url : string;
  body : list (string * value);
}.

Record Response : Type := mkResponse {
  ok : bool;
  statusText : string;
  json : completion value;
}.

(** What the executors use from outside: [env.FASTAPI_PORT], the
    backend answering a request after the requests already sent (or the
    network failing, which makes [fetch] throw), the text of
    [JSON.stringify(v)] inside a template literal, and the result of
    [crypto.randomUUID()]. *)
Record Host : Type := mkHost {
  FASTAPI_PORT : string;
  backend : list Request -> Request -> completion Response;
  JSON_stringify : value -> string;
  randomUUID : string;
}.

Record ToolContext : Type := mkToolContext {
  projectFolder : string;
}.

(** Executors run against the list of requests sent so far. *)
Definition action (A : Type) : Type := list Request -> A * list Request.

Definition fetch (h : Host) (rq : Request) : action (completion Response) :=
  fun sent => (backend h sent rq, (sent ++ [rq])%list).

(** Does the JSON text of the body have a member [k]? *)
Definition has_member (k : string) (rq : Request) : bool :=
  bool_decide (is_Some (assoc k (json_props (body rq)))).

(** [await response.json().catch(() => ({ detail: response.statusText }))] *)
Definition errorData (response : Response) : value :=
  match json response with
  | Return v => v
  | Throw _ => VObj [("detail", VStr (statusText response))]
  end.

(** The [if (!response.ok) { ... }] block, which always throws. *)
Definition fail_with (h : Host) (prefix : string) (response : Response) : completion value :=
  detail ← get (errorData response) "detail";
  Throw (Error (prefix +:+ JSON_stringify h detail)).

Definition encode_filter (f : Zod.Filter) : value :=
  VObj [("column", VStr (Zod.f_column f));
        ("operator", VStr (Zod.operator_name (Zod.f_operator f)));
        ("value", Zod.f_value f)].

Definition encode_order_by (o : Zod.OrderBy) : value :=
  VObj [("column", VStr (Zod.o_column o)); ("ascending", VBool (Zod.o_ascending o))].

Module queryMetrics.
Record Input : Type := mkInput {
  model_name : string;
  measures : list string;
  dimensions : list string;
  filters : list Zod.Filter;
  order_by : list Zod.OrderBy;
  limit : option Z;
  database_id : option string;
}.
End queryMetrics.

Definition queryMetrics_body (i : queryMetrics.Input) (context : ToolContext)
  : list (string * value) :=
  let database_id := of_opt_string (queryMetrics.database_id i) in
  set_props (spread (and_then database_id (VObj [("database_id", database_id)])))
    [("nao_project_folder", VStr (projectFolder context));
     ("model_name", VStr (queryMetrics.model_name i));
     ("measures", of_strings (queryMetrics.measures i));
     ("dimensions", of_strings (queryMetrics.dimensions i));
     ("filters", VArr (encode_filter <$> queryMetrics.filters i));
     ("order_by", VArr (encode_order_by <$> queryMetrics.order_by i));
     ("limit", of_opt_number (queryMetrics.limit i))].

Definition executeQueryMetrics (h : Host) (i : queryMetrics.Input) (context : ToolContext)
  : action (completion value) :=
  fun sent =>
    let '(fetched, sent) :=
      fetch h (mkRequest ("http://localhost:" +:+ FASTAPI_PORT h +:+ "/query_metrics")
                 (queryMetrics_body i context)) sent in
    (response ← fetched;
     if negb (ok response) then fail_with h "Error querying metrics: " response
     else
       data ← json response;
       Return (VObj (set_prop "id" (VStr ("query_" +:+ String.substring 0 8 (randomUUID h)))
                       (set_props (spread data) [("_version", VStr "1")]))),
     sent).

Module getBusinessContext.
Record Input : Type := mkInput {
  category : option string;
  concepts : option (list string);
}.
End getBusinessContext.

(** [concepts?.length] *)
Definition opt_length (l : option (list string)) : value :=
  match l with
  | Some l => VNum (Z.of_nat (length l))
  | None => VUndefined
  end.

Definition of_opt_strings (l : option (list string)) : value :=
  match l with
  | Some l => of_strings l
  | None => VUndefined
  end.

Definition getBusinessContext_body (i : getBusinessContext.Input) (context : ToolContext)
  : list (string * value) :=
  let category := of_opt_string (getBusinessContext.category i) in
  let concepts := getBusinessContext.concepts i in
  set_props (spread (and_then (opt_length concepts) (VObj [("concepts", of_opt_strings concepts)])))
    (set_props (spread (and_then category (VObj [("category", category)])))
       [("dazense_project_folder", VStr (projectFolder context))]).

Definition executeGetBusinessContext (h : Host) (i : getBusinessContext.Input)
    (context : ToolContext) : action (completion value) :=
  fun sent =>
    let '(fetched, sent) :=
      fetch h (mkRequest ("http://localhost:" +:+ FASTAPI_PORT h +:+ "/business_context")
                 (getBusinessContext_body i context)) sent in
    (response ← fetched;
     if negb (ok response) then fail_with h "Error fetching business context: " response
     else
       data ← json response;
       Return (VObj (set_props (spread data) [("_version", VStr "1")])),
     sent).

Module classify.
Record Input : Type := mkInput {
  name : option string;
  tags : option (list string);
}.
End classify.

Definition classify_body (i : classify.Input) (context : ToolContext)
  : list (string * value) :=
  let name := of_opt_string (classify.name i) in
  let tags := classify.tags i in
  set_props (spread (and_then (opt_length tags) (VObj [("tags", of_opt_strings tags)])))
    (set_props (spread (and_then name (VObj [("name", name)])))
       [("nao_project_folder", VStr (projectFolder context))]).

Definition executeClassify (h : Host) (i : classify.Input) (context : ToolContext)
  : action (completion value) :=
  fun sent =>
    let '(fetched, sent) :=
      fetch h (mkRequest ("http://localhost:" +:+ FASTAPI_PORT h +:+ "/classify")
                 (classify_body i context)) sent in
    (response ← fetched;
     if negb (ok response) then fail_with h "Error fetching classifications: " response
     else
       data ← json response;
       Return (VObj (set_props (spread data) [("_version", VStr "1")])),
     sent).

(** What a failed invocation looks like: one more request sent and an
    error thrown, whatever the body of the response.  Which error, by
    the three kinds of body: for a JSON body other than [null], the
    tool's error, its message built from the [detail] member of the
    body ([undefined] when the body has none); for a body that is not
    JSON, the tool's error with the status text; for the JSON body
    [null], the TypeError of reading [detail] of [null], which has
    neither the tool's prefix nor anything of the response. *)
Definition fails_once (h : Host) (prefix : string) (rq : Request) (response : Response)
    (sent : list Request) (run : completion value * list Request) : Prop :=
  run.2 = (sent ++ [rq])%list /\
  (exists e, run.1 = Throw e) /\
  (forall data,
     json response = Return data -> data <> VNull -> data <> VUndefined ->
     run.1 = Throw (Error (prefix +:+ JSON_stringify h (get_opt data "detail")))) /\
  (forall e,
     json response = Throw e ->
     run.1 = Throw (Error (prefix +:+ JSON_stringify h (VStr (statusText response))))) /\
  (forall data,
     json response = Return data -> data = VNull \/ data = VUndefined ->
     run.1 = Throw (TypeError
                      "Cannot read properties of undefined or null (reading 'detail')")).

End Executors.

(* ===================================================================== *)
(** ** Well-formed models documents (semantics/semantic_model.yml)       *)
(* ===================================================================== *)

Module ModelsDocument.
Import JS.

Inductive aggregation : Type :=
| agg_count | agg_sum | agg_avg | agg_min | agg_max | agg_count_distinct.

Inductive cardinality : Type := one_to_one | many_to_one | one_to_many.

#[export] Instance aggregation_eq_dec : EqDecision aggregation.
Proof. solve_decision. Defined.

#[export] Instance cardinality_eq_dec : EqDecision cardinality.
Proof. solve_decision. Defined.

Definition aggregation_name (a : aggregation) : string :=
  match a with
  | agg_count => "count" | agg_sum => "sum" | agg_avg => "avg"
  | agg_min => "min" | agg_max => "max" | agg_count_distinct => "count_distinct"
  end.

Definition cardinality_name (c : cardinality) : string :=
  match c with
  | one_to_one => "one_to_one" | many_to_one => "many_to_one" | one_to_many => "one_to_many"
  end.

Record Dimension : Type := mkDimension {
  d_column : string;
  d_description : option string;
}.

Record Measure : Type := mkMeasure {
  m_type : aggregation;
  m_column : option string;
}.

Record Join : Type := mkJoin {
  to_model : string;
  foreign_key : string;
  related_key : string;
  j_type : cardinality;
}.

(** A model of the document.  The mappings (models, dimensions,
    measures, joins) list their entries in the order of the document,
    each under its name, the key text [YAML.parse] makes the property
    name. *)
Record Model : Type := mkModel {
  table : string;
  schema : option string;
  database : option string;
  description : option string;
  primary_key : option string;
  time_dimension : option string;
  dimensions : list (string * Dimension);
  measures : list (string * Measure);
  joins : list (string * Join);
}.

Definition document : Type := list (string * Model).

(** The load-time rules of the models document: names are unique in
    their mapping, every aggregation other than [count] has a source
    column, and every join targets a model of the document. *)
Definition well_formed_model (d : document) (m : Model) : Prop :=
  NoDup (dimensions m).*1 ∧ NoDup (measures m).*1 ∧ NoDup (joins m).*1 ∧
  (∀ k me, (k, me) ∈ measures m → m_type me ≠ agg_count → is_Some (m_column me)) ∧
  (∀ k j, (k, j) ∈ joins m → to_model j ∈ d.*1).

Definition well_formed (d : document) : Prop :=
  NoDup d.*1 ∧ ∀ n m, (n, m) ∈ d → well_formed_model d m.

(** *** The property order of a parsed mapping

    [YAML.parse] turns a mapping into a plain object, and a JavaScript
    object lists its properties ([Object.entries], [Object.keys]) with
    the array indices first, in ascending numeric order, and the other
    names after them in the order in which they were added, here the
    order of the document.  An array index is the canonical decimal
    text of an integer below 2^32 - 1. *)
Fixpoint decimal (s : string) (acc : N) : option N :=
  match s with
  | EmptyString => Some acc
  | String c r =>
      match Ascii.is_nat c with
      | Some digit => decimal r (10 * acc + N.of_nat digit)
      | None => None
      end
  end.

Definition array_index (k : string) : option N :=
  match k with
  | EmptyString => None
  | String "0" EmptyString => Some 0%N
  | String "0" _ => None
  | _ =>
      match decimal k 0 with
      | Some n => if (n <? 4294967295)%N then Some n else None
      | None => None
      end
  end.

Definition indexed_entries {A} (entries : list (string * A)) : list (N * (string * A)) :=
  omap (fun e => (fun n => (n, e)) <$> array_index e.1) entries.

Definition by_index {A} : relation (N * A) := fun a b => (a.1 <= b.1)%N.

#[export] Instance by_index_dec {A} : RelDecision (@by_index A).
Proof. intros a b. unfold by_index. apply _. Defined.

Definition property_order {A} (entries : list (string * A)) : list (string * A) :=
  (snd <$> merge_sort by_index (indexed_entries entries))
  ++ filter (fun e => array_index e.1 = None) entries.

(** The document with every mapping in property order. *)
Definition ordered_model (m : Model) : Model :=
  mkModel (table m) (schema m) (database m) (description m) (primary_key m)
    (time_dimension m) (property_order (dimensions m)) (property_order (measures m))
    (property_order (joins m)).

Definition in_property_order (d : document) : document :=
  prod_map id ordered_model <$> property_order d.

(** *** The values [YAML.parse] yields for a document

    [parsed_as d v]: the object [v] is a parse of a text of the
    document [d].  A mapping of the document is an object with the
    entries of the mapping in property order; a mapping without entries
    is an empty object, [null] (the key with nothing after it) or left
    out; a text member is a string, and is left out when the document
    does not give it.  The members of an object may come in any order,
    and an object may have other members besides. *)
Definition text_member (props : list (string * value)) (k : string) (o : option string)
  : Prop :=
  assoc k props = VStr <$> o.

Definition parsed_mapping {A} (parsed_entry : A -> value -> Prop)
    (entries : list (string * A)) (ps : list (string * value)) : Prop :=
  Forall2 (fun e p => p.1 = e.1 /\ parsed_entry e.2 p.2) (property_order entries) ps.

Definition mapping_member {A} (parsed_entry : A -> value -> Prop)
    (props : list (string * value)) (k : string) (entries : list (string * A)) : Prop :=
  match assoc k props with
  | Some (VObj ps) => parsed_mapping parsed_entry entries ps
  | Some VNull | None => entries = []
  | Some _ => False
  end.

Definition parsed_dimension (d : Dimension) (v : value) : Prop :=
  exists props,
    v = VObj props /\
    assoc "column" props = Some (VStr (d_column d)) /\
    text_member props "description" (d_description d).

Definition parsed_measure (m : Measure) (v : value) : Prop :=
  exists props,
    v = VObj props /\
    assoc "type" props = Some (VStr (aggregation_name (m_type m))) /\
    text_member props "column" (m_column m).

Definition parsed_join (j : Join) (v : value) : Prop :=
  exists props,
    v = VObj props /\
    assoc "to_model" props = Some (VStr (to_model j)) /\
    assoc "foreign_key" props = Some (VStr (foreign_key j)) /\
    assoc "related_key" props = Some (VStr (related_key j)) /\
    assoc "type" props = Some (VStr (cardinality_name (j_type j))).

Definition parsed_model (m : Model) (v : value) : Prop :=
  exists props,
    v = VObj props /\
    assoc "table" props = Some (VStr (table m)) /\
    text_member props "schema" (schema m) /\
    text_member props "database" (database m) /\
    text_member props "description" (description m) /\
    text_member props "primary_key" (primary_key m) /\
    text_member props "time_dimension" (time_dimension m) /\
    mapping_member parsed_dimension props "dimensions" (dimensions m) /\
    mapping_member parsed_measure props "measures" (measures m) /\
    mapping_member parsed_join props "joins" (joins m).

Definition parsed_as (d : document) (v : value) : Prop :=
  exists props ms,
    v = VObj props /\ assoc "models" props = Some (VObj ms) /\
    parsed_mapping parsed_model d ms.

(** One parse of the document, in the layout of the README: the members
    in the order of the README, a text member that is not given and a
    mapping without entries left out, and nothing else. *)
Definition opt_prop (k : string) (o : option string) : list (string * value) :=
  match o with Some s => [(k, VStr s)] | None => [] end.

Definition section {A} (k : string) (enc : A -> value) (entries : list (string * A))
  : list (string * value) :=
  match entries with
  | [] => []
  | _ => [(k, VObj (prod_map id enc <$> property_order entries))]
  end.

Definition encode_dimension (d : Dimension) : value :=
  VObj (("column", VStr (d_column d)) :: opt_prop "description" (d_description d)).

Definition encode_measure (m : Measure) : value :=
  VObj (opt_prop "column" (m_column m) ++ [("type", VStr (aggregation_name (m_type m)))]).

Definition encode_join (j : Join) : value :=
  VObj [("to_model", VStr (to_model j)); ("foreign_key", VStr (foreign_key j));
        ("related_key", VStr (related_key j)); ("type", VStr (cardinality_name (j_type j)))].

Definition encode_model (m : Model) : value :=
  VObj (("table", VStr (table m))
        :: opt_prop "schema" (schema m)
        ++ opt_prop "database" (database m)
        ++ opt_prop "description" (description m)
        ++ opt_prop "primary_key" (primary_key m)
        ++ opt_prop "time_dimension" (time_dimension m)
        ++ section "dimensions" encode_dimension (dimensions m)
        ++ section "measures" encode_measure (measures m)
        ++ section "joins" encode_join (joins m)).

Definition encode (d : document) : value :=
  VObj [("models", VObj (prod_map id encode_model <$> property_order d))].

(** What [getSemanticModels] is expected to keep of a model. *)
Definition info_of (entry : string * Model) : UserRules.SemanticModelInfo :=
  let m := entry.2 in
  UserRules.mkSemanticModelInfo entry.1 (VStr (table m)) (of_opt_string (description m))
    (dimensions m).*1
    (prod_map id (fun me => VStr (aggregation_name (m_type me))) <$> measures m)
    (joins m).*1.

(** The fields named by the round-trip property. *)
Definition model_names (d : document) : list string := d.*1.

Definition dimension_columns (d : document) : list (list string) :=
  (fun e => (d_column ∘ snd) <$> dimensions e.2) <$> d.

Definition measure_columns (d : document) : list (list (option string)) :=
  (fun e => (m_column ∘ snd) <$> measures e.2) <$> d.

Definition measure_kinds (d : document) : list (list aggregation) :=
  (fun e => (m_type ∘ snd) <$> measures e.2) <$> d.

Definition join_targets (d : document) : list (list string) :=
  (fun e => (to_model ∘ snd) <$> joins e.2) <$> d.

(** A world in which the models document of the project is [d]: the
    file is there and [YAML.parse] yields a parse of [d] for it. *)
Definition holds_document (w : UserRules.World) (d : document) : Prop :=
  exists v, parsed_as d v /\ UserRules.holds w "semantic_model.yml" (Return v).

(** Load is lossless for [field] when some re-serialization of the
    loaded models gives back the [field] of every well-formed document.
    A mapping has no order of its own, so the re-serialized models are
    compared with the document in property order. *)
Definition lossless_for {F} (field : document -> F) : Prop :=
  ∃ reserialize : list UserRules.SemanticModelInfo -> document,
    ∀ w d infos,
      well_formed d → holds_document w d →
      UserRules.ret (UserRules.getSemanticModels w) = Some infos →
      field (reserialize infos) = field (in_property_order d).

(** A re-serialization of the loaded models, with the fields the
    in-memory result has: a dimension or join is written under its name,
    a measure under its name with its aggregation kind. *)
Definition kind_of (v : value) : aggregation :=
  match v with
  | VStr s =>
      default agg_count
        (List.find (fun a => String.eqb (aggregation_name a) s)
           [agg_count; agg_sum; agg_avg; agg_min; agg_max; agg_count_distinct])
  | _ => agg_count
  end.

Definition text_of (v : value) : option string :=
  match v with VStr s => Some s | _ => None end.

Definition reserialize_model (i : UserRules.SemanticModelInfo) : Model :=
  mkModel (default "" (text_of (UserRules.table i))) None None
    (text_of (UserRules.description i)) None None
    ((fun k => (k, mkDimension k None)) <$> UserRules.dimensions i)
    (prod_map id (fun t => mkMeasure (kind_of t) None) <$> UserRules.measures i)
    ((fun k => (k, mkJoin k "" "" many_to_one)) <$> UserRules.joins i).

Definition reserialize (infos : list UserRules.SemanticModelInfo) : document :=
  (fun i => (UserRules.name i, reserialize_model i)) <$> infos.

Definition dimension_names (d : document) : list (list string) :=
  (fun e => (dimensions e.2).*1) <$> d.

Definition measure_names (d : document) : list (list string) :=
  (fun e => (measures e.2).*1) <$> d.

Definition join_aliases (d : document) : list (list string) :=
  (fun e => (joins e.2).*1) <$> d.

End ModelsDocument.

(* ===================================================================== *)
(** ** The rule matcher behind [/business_context]                       *)
(* ===================================================================== *)

Module Matcher.

Inductive severity : Type := critical | warning | info.

Record Rule : Type := mkRule {
  name : string;
  category : string;
  rule_severity : severity;
  applies_to : list string;
  description : string;
  guidance : string;
}.

#[export] Instance severity_eq_dec : EqDecision severity.
Proof. solve_decision. Defined.

#[export] Instance Rule_eq_dec : EqDecision Rule.
Proof. solve_decision. Defined.

Record RuleQuery : Type := mkRuleQuery {
  q_category : option string;
  q_concepts : list string;
}.

(** Do the two concept sets share a concept (equal as strings)? *)
Definition intersects (applies_to concepts : list string) : bool :=
  existsb (fun c => bool_decide (c ∈ concepts)) applies_to.

(** Modelled from the spec: the rules engine of the CLI, which serves
    the [/business_context] endpoint called by the tool, is not among
    the sources.  Section 4.4: if [category] is given, filter by exact
    match; if [concepts] is given (the list defaults to the empty one),
    keep the rules whose [applies_to] set intersects the requested
    concepts; if neither is given, return the full rule set.
    [categories] is always the full distinct set of categories of the
    loaded rule set. *)
Definition match_rules (rules : list Rule) (q : RuleQuery) : list Rule * list string :=
  let by_category :=
    match q_category q with
    | Some c => filter (fun r => category r = c) rules
    | None => rules
    end in
  let by_concepts :=
    match q_concepts q with
    | [] => by_category
    | _ => filter (fun r => intersects (applies_to r) (q_concepts q)) by_category
    end in
  (by_concepts, remove_dups (category <$> rules)).

End Matcher.

(* ===================================================================== *)
(** ** The query compiler behind [/query_metrics]                        *)
(* ===================================================================== *)

Module Compiler.
Import ModelsDocument.

(** Modelled from the spec: the semantic engine of the CLI, which serves
    the [/query_metrics] endpoint called by the tool, is not among the
    sources.  The definitions of this module follow sections 3, 4.1,
    4.2 and 4.3 of the specification: the registry is a loaded models
    document, a reference is a dotted alias chain ending in a field,
    and [compile] resolves the references, lists the joins in
    dependency order and marks every [one_to_many] join of a request
    with a fact measure as pre-aggregated. *)
Definition Registry : Type := document.

Inductive CompileError : Type :=
| UnknownModelError (model : string)
| UnknownMeasureError (model field : string)
| UnknownDimensionError (model field : string)
| UnresolvableJoinError (model alias : string)
| InvalidFilterOperatorError (operator : string)
| InvalidOrderByError (column : string)
| AggregationColumnRequiredError (model measure : string).

Inductive compiled (A : Type) : Type :=
| Plan_ok (a : A)
| Plan_error (e : CompileError).
Arguments Plan_ok {A} a.
Arguments Plan_error {A} e.

#[export] Instance compiled_ret : MRet compiled := fun A a => Plan_ok a.
#[export] Instance compiled_bind : MBind compiled := fun A B k c =>
  match c with
  | Plan_ok a => k a
  | Plan_error e => Plan_error e
  end.

Fixpoint each {A B} (f : A -> compiled B) (l : list A) : compiled (list B) :=
  match l with
  | [] => Plan_ok []
  | x :: r => y ← f x; ys ← each f r; Plan_ok (y :: ys)
  end.

Fixpoint find_entry {A} (k : string) (l : list (string * A)) : option A :=
  match l with
  | [] => None
  | (k', a) :: r => if String.eqb k k' then Some a else find_entry k r
  end.

(** [get_model(name) -> Model | UnknownModelError] *)
Definition get_model (reg : Registry) (name : string) : compiled Model :=
  match find_entry name reg with
  | Some m => Plan_ok m
  | None => Plan_error (UnknownModelError name)
  end.

(** The segments of a dotted name. *)
Fixpoint segments_from (current : string) (s : string) : list string :=
  match s with
  | EmptyString => [current]
  | String c r =>
      if Ascii.eqb c "."%char then current :: segments_from "" r
      else segments_from (current +:+ String c EmptyString) r
  end.

Definition segments (s : string) : list string := segments_from "" s.

(** A reference: the alias chain and the field it ends in. *)
Record Reference : Type := mkReference {
  ref_chain : list string;
  ref_field : string;
}.

Definition parse_reference (s : string) : Reference :=
  let segs := segments s in
  mkReference (removelast segs) (List.last segs "").

(** One join of a plan: the alias chain that reaches it, the join, the
    model it targets, whether the target is pre-aggregated to one row
    per key before joining, and the "many"-side measures the
    pre-aggregation computes. *)
Record JoinNode : Type := mkJoinNode {
  n_chain : list string;
  n_join : Join;
  n_target : Model;
  n_pre_aggregated : bool;
  n_measures : list (string * Measure);
}.

(** Modelled from the spec: the join graph resolver of the CLI is not
    among the sources.  Section 4.2: walk the alias chain one segment at
    a time; the alias must be a join of the current model and its target
    must not have been visited on this chain.  The result lists the
    joins traversed, each with its chain and target, and ends in the
    model reached. *)
Fixpoint walk (reg : Registry) (current : string) (m : Model) (visited : list string)
    (prefix chain : list string) : compiled (list (list string * Join * Model) * (string * Model)) :=
  match chain with
  | [] => Plan_ok ([], (current, m))
  | alias :: rest =>
      match find_entry alias (joins m) with
      | None => Plan_error (UnresolvableJoinError current alias)
      | Some j =>
          if bool_decide (to_model j ∈ visited)
          then Plan_error (UnresolvableJoinError current alias)
          else
            target ← get_model reg (to_model j);
            r ← walk reg (to_model j) target (to_model j :: visited)
                  (prefix ++ [alias]) rest;
            Plan_ok ((prefix ++ [alias], j, target) :: r.1, r.2)
      end
  end.

Record Resolved (F : Type) : Type := mkResolved {
  r_name : string;
  r_chain : list string;
  r_path : list (list string * Join * Model);
  r_model : string;
  r_field : F;
}.
Arguments mkResolved {F} r_name r_chain r_path r_model r_field.
Arguments r_name {F} r.
Arguments r_chain {F} r.
Arguments r_path {F} r.
Arguments r_model {F} r.
Arguments r_field {F} r.

Definition resolve_measure (reg : Registry) (root : string) (m : Model) (name : string)
  : compiled (Resolved Measure) :=
  let ref := parse_reference name in
  w ← walk reg root m [root] [] (ref_chain ref);
  match find_entry (ref_field ref) (measures w.2.2) with
  | None => Plan_error (UnknownMeasureError w.2.1 (ref_field ref))
  | Some me =>
      match m_type me, m_column me with
      | agg_count, _ | _, Some _ =>
          Plan_ok (mkResolved name (ref_chain ref) w.1 w.2.1 me)
      | _, None => Plan_error (AggregationColumnRequiredError w.2.1 (ref_field ref))
      end
  end.

Definition resolve_dimension (reg : Registry) (root : string) (m : Model) (name : string)
  : compiled (Resolved Dimension) :=
  let ref := parse_reference name in
  w ← walk reg root m [root] [] (ref_chain ref);
  match find_entry (ref_field ref) (dimensions w.2.2) with
  | None => Plan_error (UnknownDimensionError w.2.1 (ref_field ref))
  | Some d => Plan_ok (mkResolved name (ref_chain ref) w.1 w.2.1 d)
  end.

(** Cell values of the tables; numbers are integers. *)
Inductive cell : Type := CNull | CInt (n : Z) | CText (s : string).

#[export] Instance cell_eq_dec : EqDecision cell.
Proof. solve_decision. Defined.

Inductive FilterValue : Type := One (c : cell) | Many (cs : list cell).

Record Filter : Type := mkFilter {
  f_column : string;
  f_operator : string;
  f_value : FilterValue;
}.

Record OrderBy : Type := mkOrderBy {
  o_column : string;
  o_ascending : bool;
}.

Record CompileRequest : Type := mkCompileRequest {
  model_name : string;
  measures : list string;
  dimensions : list string;
  filters : list Filter;
  order_by : list OrderBy;
  limit : option N;
}.

(** The dialect-neutral plan: source model, joins in dependency order,
    filters (applied before aggregation), group-by columns, aggregates,
    output columns, order and limit. *)
Record Plan : Type := mkPlan {
  p_source : string * Model;
  p_joins : list JoinNode;
  p_filters : list Filter;
  p_group_by : list (Resolved Dimension);
  p_aggregates : list (Resolved Measure);
  p_columns : list string;
  p_order_by : list OrderBy;
  p_limit : option N;
}.

Definition check_filter (f : Filter) : compiled Filter :=
  if bool_decide (f_operator f ∈ Zod.operator_name <$> Zod.operators)
  then Plan_ok f
  else Plan_error (InvalidFilterOperatorError (f_operator f)).

Definition check_order_by (selected : list string) (o : OrderBy) : compiled OrderBy :=
  if bool_decide (o_column o ∈ selected)
  then Plan_ok o
  else Plan_error (InvalidOrderByError (o_column o)).

(** The joins a plan needs: those on the path of every reference, once
    per alias chain, a join after the joins its chain goes through. *)
Fixpoint add_joins (path acc : list (list string * Join * Model))
  : list (list string * Join * Model) :=
  match path with
  | [] => acc
  | e :: r =>
      add_joins r (if bool_decide (e.1.1 ∈ (fun x => x.1.1) <$> acc) then acc else acc ++ [e])
  end.

Definition required_joins (paths : list (list (list string * Join * Model)))
  : list (list string * Join * Model) :=
  fold_left (fun acc path => add_joins path acc) paths [].

Definition is_fact {F} (r : Resolved F) : bool := bool_decide (r_chain r = []).

(** Section 4.3, step 3: a [one_to_many] join is pre-aggregated whenever
    the request has a measure of the fact model. *)
Definition make_node (fact_measure : bool) (ms : list (Resolved Measure))
    (e : list string * Join * Model) : JoinNode :=
  mkJoinNode e.1.1 e.1.2 e.2
    (bool_decide (j_type e.1.2 = one_to_many) && fact_measure)
    ((fun m => (r_name m, r_field m)) <$> filter (fun m => r_chain m = e.1.1) ms).

(** Modelled from the spec: the query compiler of the CLI is not among
    the sources.  Section 4.3: resolve the root model, resolve every
    measure and dimension, collect the joins required in dependency
    order, pre-aggregating the [one_to_many] ones, check the filters
    and the order-by entries; the output columns are the dimensions
    followed by the measures, in the order requested. *)
Definition compile (reg : Registry) (req : CompileRequest) : compiled Plan :=
  root ← get_model reg (model_name req);
  ms ← each (resolve_measure reg (model_name req) root) (measures req);
  ds ← each (resolve_dimension reg (model_name req) root) (dimensions req);
  fs ← each check_filter (filters req);
  let columns := dimensions req ++ measures req in
  os ← each (check_order_by columns) (order_by req);
  let fact_measure := existsb is_fact ms in
  let required := required_joins ((r_path <$> ms) ++ (r_path <$> ds)) in
  Plan_ok (mkPlan (model_name req, root) (make_node fact_measure ms <$> required)
             fs ds ms columns os (limit req)).

(** *** Rows of a plan

    A reference reading of the joins of a plan.  A join keeps the rows
    without a match (the nine orders without line items of the scenario
    of section 8 still count). *)
Definition Row : Type := list (string * cell).

(** The rows of a table, by table name. *)
Definition Database : Type := string -> list Row.

Definition column (r : Row) (c : string) : cell := default CNull (find_entry c r).

Definition same_key (a b : cell) : bool :=
  match a with
  | CNull => false
  | _ => bool_decide (a = b)
  end.

Definition ints (c : string) (rows : list Row) : list Z :=
  omap (fun r => match column r c with CInt n => Some n | _ => None end) rows.

Definition total (l : list Z) : Z := foldr Z.add 0%Z l.

(** Section 4.3, step 6.  An aggregate of no value is [NULL]; the
    average is the integer quotient. *)
Definition aggregate (kind : aggregation) (col : option string) (rows : list Row) : cell :=
  let values := ints (default "" col) rows in
  match kind, values with
  | agg_count, _ => CInt (Z.of_nat (length rows))
  | agg_count_distinct, _ => CInt (Z.of_nat (length (remove_dups values)))
  | _, [] => CNull
  | agg_sum, _ => CInt (total values)
  | agg_avg, _ => CInt (total values / Z.of_nat (length values))
  | agg_min, v :: vs => CInt (foldr Z.min v vs)
  | agg_max, v :: vs => CInt (foldr Z.max v vs)
  end.

(** A row of the joined relation: the row of the fact model and, per
    join, the row matched on its side, if any. *)
Record Joined : Type := mkJoined {
  fact : Row;
  sides : list (list string * option Row);
}.

Fixpoint find_side (chain : list string) (l : list (list string * option Row)) : option Row :=
  match l with
  | [] => None
  | (c, r) :: rest => if bool_decide (c = chain) then r else find_side chain rest
  end.

Definition side (jr : Joined) (chain : list string) : option Row :=
  match chain with
  | [] => Some (fact jr)
  | _ => find_side chain (sides jr)
  end.

(** The row of a pre-aggregation for the key [k]: the key and, under
    the name of every measure, its aggregate over the rows of that
    key. *)
Definition key_row (key : string) (ms : list (string * Measure)) (rows : list Row)
    (k : cell) : Row :=
  let members := filter (fun r => column r key = k) rows in
  (key, k) :: (prod_map id (fun me => aggregate (m_type me) (m_column me) members) <$> ms).

(** Modelled from the spec: the executor of plans is external to the
    sources.  Section 4.3, step 3: the "many" side as a one-row-per-key
    subquery, with its measures aggregated over the rows of that key. *)
Definition pre_aggregate (key : string) (ms : list (string * Measure)) (rows : list Row)
  : list Row :=
  key_row key ms rows <$> remove_dups ((fun r => column r key) <$> rows).

Definition side_rows (db : Database) (node : JoinNode) : list Row :=
  let rows := db (table (n_target node)) in
  if n_pre_aggregated node
  then pre_aggregate (related_key (n_join node)) (n_measures node) rows
  else rows.

(** The key a join matches on: the foreign key of the row joined on the
    side the join starts from (the fact row for a chain of one alias). *)
Definition parent_key (jr : Joined) (node : JoinNode) : cell :=
  match side jr (removelast (n_chain node)) with
  | Some parent => column parent (foreign_key (n_join node))
  | None => CNull
  end.

(** Modelled from the spec: the executor of plans is external to the
    sources.  One join of the plan: a row joined so far is paired with
    every row of the side whose key is the key of its parent row, and is
    kept, with nothing on that side, when there is none. *)
Definition join_step (db : Database) (node : JoinNode) (rows : list Joined) : list Joined :=
  jr ← rows;
  match filter (fun r => same_key (parent_key jr node) (column r (related_key (n_join node))))
          (side_rows db node) with
  | [] => [mkJoined (fact jr) (sides jr ++ [(n_chain node, None)])]
  | matches =>
      (fun r => mkJoined (fact jr) (sides jr ++ [(n_chain node, Some r)])) <$> matches
  end.

(** Modelled from the spec: the executor of plans is external to the
    sources.  The rows of the source model, joined with the side of
    every join of the plan in turn. *)
Definition joined_rows (db : Database) (plan : Plan) : list Joined :=
  fold_left (fun rows node => join_step db node rows) (p_joins plan)
    ((fun r => mkJoined r []) <$> db (table (p_source plan).2)).

(** The value of an aggregate of the fact model over the rows of the
    plan that [keep] accepts. *)
Definition fact_aggregate (db : Database) (plan : Plan) (keep : Row -> bool)
    (kind : aggregation) (col : option string) : cell :=
  aggregate kind col (fact <$> filter (fun jr => keep (fact jr)) (joined_rows db plan)).

(** At most one row of [rows] has a given key. *)
Definition one_row_per_key (rows : list Row) (key : string) : Prop :=
  forall k, length (filter (fun r => same_key k (column r key)) rows) <= 1.

(** The side has exactly one row for every key of the table, the row
    of the aggregates over the rows of that key, and no other row that
    a key can match. *)
Definition one_row_per_key_of (key : string) (ms : list (string * Measure))
    (rows side : list Row) : Prop :=
  forall k,
    filter (fun r => same_key k (column r key)) side
      = if bool_decide (k <> CNull /\ k ∈ (fun r => column r key) <$> rows)
        then [key_row key ms rows k] else [].

(** The model an alias chain leads to from [m], by the joins declared
    in the registry. *)
Fixpoint follow (reg : Registry) (m : Model) (chain : list string) : option Model :=
  match chain with
  | [] => Some m
  | alias :: rest =>
      match find_entry alias (joins m) with
      | Some j =>
          match find_entry (to_model j) reg with
          | Some target => follow reg target rest
          | None => None
          end
      | None => None
      end
  end.

(** A join as the registry declares it: reached from the root by its
    alias chain, the last alias naming it in the model the chain before
    it leads to, and its target the model of that name. *)
Definition declared (reg : Registry) (root : Model) (e : list string * Join * Model)
  : Prop :=
  exists pre alias parent,
    e.1.1 = pre ++ [alias] /\ follow reg root pre = Some parent /\
    find_entry alias (joins parent) = Some e.1.2 /\
    find_entry (to_model e.1.2) reg = Some e.2.

(** A join path that continues the chain [prefix] one alias at a time. *)
Fixpoint extends (prefix : list string) (path : list (list string * Join * Model)) : Prop :=
  match path with
  | [] => True
  | e :: rest => exists alias, e.1.1 = prefix ++ [alias] /\ extends (prefix ++ [alias]) rest
  end.

(** Joins in dependency order: every alias chain once, and the chain a
    chain extends at an earlier position. *)
Definition dependency_order (chains : list (list string)) : Prop :=
  NoDup chains /\
  forall i chain,
    chains !! i = Some chain ->
    chain <> [] /\
    (removelast chain = [] \/
     exists j, j < i /\ chains !! j = Some (removelast chain)).

(** What a joined row has on the side of a join: the row of that side
    whose key is the key of the parent row, or nothing when that side
    has no such row. *)
Definition matched (db : Database) (node : JoinNode) (jr : Joined) : Prop :=
  match side jr (n_chain node) with
  | Some r =>
      r ∈ side_rows db node /\
      same_key (parent_key jr node) (column r (related_key (n_join node))) = true
  | None =>
      forall r, r ∈ side_rows db node ->
        same_key (parent_key jr node) (column r (related_key (n_join node))) = false
  end.

(** The request has a measure of the fact (root) model. *)
Definition has_fact_measure (req : CompileRequest) : Prop :=
  exists name, name ∈ measures req /\ ref_chain (parse_reference name) = [].

(** The tables respect the cardinality declared for the joins to a
    "one" side. *)
Definition to_one_respected (db : Database) (plan : Plan) : Prop :=
  forall node,
    node ∈ p_joins plan -> j_type (n_join node) <> one_to_many ->
    one_row_per_key (db (table (n_target node))) (related_key (n_join node)).

End Compiler.

(* ===================================================================== *)
(** ** Concrete projects used in the examples                            *)
(* ===================================================================== *)

Module Scenario.
Import JS.

Fixpoint entry {A} (k : string) (l : list (string * A)) : option A :=
  match l with
  | [] => None
  | (k', a) :: r => if String.eqb k k' then Some a else entry k r
  end.

Definition join (segments : list string) : string := String.concat "/" segments.

(** The project [/proj] with the given files, and [YAML.parse] tabulated
    on the texts of these files. *)
Definition world (files : list (string * string)) (yaml : list (string * completion value))
  : UserRules.World :=
  UserRules.mkWorld (Some "/proj") join
    (fun path => bool_decide (is_Some (entry path files)))
    (fun path =>
       match entry path files with
       | Some text => Return text
       | None => Throw (Error "ENOENT: no such file or directory")
       end)
    (fun text => default (Throw YAMLParseError) (entry text yaml)).

Definition models_path : string := "/proj/semantics/semantic_model.yml".
Definition rules_path : string := "/proj/semantics/business_rules.yml".

(** No semantics folder at all. *)
Definition empty_project : UserRules.World := world [] [].

(** Both documents are cut off inside a flow sequence, which
    [YAML.parse] rejects. *)
Definition truncated_project : UserRules.World :=
  world [(models_path, "models: ["); (rules_path, "rules: [")]
        [("models: [", Throw YAMLParseError); ("rules: [", Throw YAMLParseError)].

(** Both documents are YAML, but hold neither [models] nor [rules]. *)
Definition unrelated_project : UserRules.World :=
  world [(models_path, "project: nytaxi"); (rules_path, "project: nytaxi")]
        [("project: nytaxi", Return (VObj [("project", VStr "nytaxi")]))].

(** A rules document whose only rule declares the empty severity. *)
Definition blank_severity_rule : value :=
  VObj [("name", VStr "cash_tips_not_recorded");
        ("category", VStr "data_quality");
        ("severity", VStr "");
        ("applies_to", VArr [VStr "tip_amount"]);
        ("description", VStr "Cash tips are NOT recorded in the data");
        ("guidance", VStr "Exclude cash payments from tip analysis")].

Definition blank_severity_text : string :=
  "rules: [{name: cash_tips_not_recorded, category: data_quality, severity: '', applies_to: [tip_amount], description: Cash tips are NOT recorded in the data, guidance: Exclude cash payments from tip analysis}]".

Definition blank_severity_project : UserRules.World :=
  world [(rules_path, blank_severity_text)]
        [(blank_severity_text, Return (VObj [("rules", VArr [blank_severity_rule])]))].

(** A rules document with a rule that declares the severity
    [critical] and a rule that declares none. *)
Definition declared_rules : list value :=
  [VObj [("name", VStr "cash_tips_not_recorded");
         ("category", VStr "data_quality");
         ("severity", VStr "critical");
         ("applies_to", VArr [VStr "tip_amount"]);
         ("description", VStr "Cash tips are NOT recorded in the data");
         ("guidance", VStr "Exclude cash payments from tip analysis")];
   VObj [("name", VStr "revenue_definition");
         ("category", VStr "metrics");
         ("applies_to", VArr [VStr "orders.total_revenue"]);
         ("description", VStr "Revenue is the sum of amount without cancelled orders");
         ("guidance", VStr "Exclude cancelled orders")]].

Definition declared_rules_text : string :=
  "rules: [{name: cash_tips_not_recorded, category: data_quality, severity: critical, applies_to: [tip_amount], description: Cash tips are NOT recorded in the data, guidance: Exclude cash payments from tip analysis}, {name: revenue_definition, category: metrics, applies_to: [orders.total_revenue], description: Revenue is the sum of amount without cancelled orders, guidance: Exclude cancelled orders}]".

Definition declared_rules_project : UserRules.World :=
  world [(rules_path, declared_rules_text)]
        [(declared_rules_text, Return (VObj [("rules", VArr declared_rules)]))].

(** A backend that refuses every request with a FastAPI error body. *)
Definition quote : string := String (Ascii.ascii_of_nat 34) EmptyString.

Definition stringify_text (v : value) : string :=
  match v with
  | VStr s => quote +:+ s +:+ quote
  | VUndefined => "undefined"
  | _ => "null"
  end.

Definition refusal : Executors.Response :=
  Executors.mkResponse false "Bad Request"
    (Return (VObj [("detail", VStr "No business_rules.yml found")])).

Definition refusing_host : Executors.Host :=
  Executors.mkHost "8005" (fun _ _ => Return refusal)
    stringify_text "3f2a9c1e-7b4d-4c1a-9e0f-5d6c7b8a9f01".



(** The rule set of the scenario of the spec: the cash-tips rule and one
    unrelated rule. *)
Definition cash_tips_not_recorded : Matcher.Rule :=
  Matcher.mkRule "cash_tips_not_recorded" "data_quality" Matcher.critical ["tip_amount"]
    "Cash tips are NOT recorded in the data" "Exclude cash payments from tip analysis".

Definition revenue_definition : Matcher.Rule :=
  Matcher.mkRule "revenue_definition" "metrics" Matcher.info ["orders.total_revenue"]
    "Revenue is sum of amount excluding cancelled orders"
    "Always filter status != 'cancelled'".

Definition rule_set : list Matcher.Rule := [cash_tips_not_recorded; revenue_definition].

Import ModelsDocument.

(** Two models documents that differ in the source column of the
    dimension and of the measure of [orders], and in the target of its
    join, and in nothing else. *)
Definition customers_model : Model :=
  mkModel "customers" None None None None None
    [("first_name", mkDimension "first_name" None)]
    [("customer_count", mkMeasure agg_count None)]
    [].

Definition orders_document : document :=
  [("orders",
    mkModel "orders" None None None None None
      [("status", mkDimension "status" None)]
      [("total_amount", mkMeasure agg_sum (Some "amount"))]
      [("customer", mkJoin "customers" "customer_id" "customer_id" many_to_one)]);
   ("customers", customers_model)].

Definition orders_document' : document :=
  [("orders",
    mkModel "orders" None None None None None
      [("status", mkDimension "order_status" None)]
      [("total_amount", mkMeasure agg_sum (Some "net_amount"))]
      [("customer", mkJoin "orders" "customer_id" "customer_id" many_to_one)]);
   ("customers", customers_model)].

Definition orders_text : string :=
  "models: {orders: {table: orders, dimensions: {status: {column: status}}, measures: {total_amount: {column: amount, type: sum}}, joins: {customer: {to_model: customers, foreign_key: customer_id, related_key: customer_id, type: many_to_one}}}, customers: {table: customers, dimensions: {first_name: {column: first_name}}, measures: {customer_count: {type: count}}}}".

Definition orders_text' : string :=
  "models: {orders: {table: orders, dimensions: {status: {column: order_status}}, measures: {total_amount: {column: net_amount, type: sum}}, joins: {customer: {to_model: orders, foreign_key: customer_id, related_key: customer_id, type: many_to_one}}}, customers: {table: customers, dimensions: {first_name: {column: first_name}}, measures: {customer_count: {type: count}}}}".

Definition orders_project : UserRules.World :=
  world [(models_path, orders_text)] [(orders_text, Return (encode orders_document))].

Definition orders_project' : UserRules.World :=
  world [(models_path, orders_text')] [(orders_text', Return (encode orders_document'))].

(** A document with a model under an integer-like name, written after
    the model [orders]; its text sets the members out otherwise than the
    README does (a member besides [models], a description before the
    table, the type of a measure before its column, an empty mapping
    written out, a mapping given as [null]); and what [YAML.parse]
    yields for the text, the model [2023] listed first. *)
Definition yearly_document : document :=
  [("orders",
    mkModel "orders" None None (Some "All orders") None None
      [("status", mkDimension "status" None)]
      [("total_amount", mkMeasure agg_sum (Some "amount"))]
      [("archive", mkJoin "2023" "order_id" "order_id" one_to_one)]);
   ("2023",
    mkModel "orders_2023" None None None None None
      []
      [("order_count", mkMeasure agg_count None)]
      [])].

Definition yearly_text : string :=
  "{version: 1, models: {orders: {description: All orders, table: orders, dimensions: {status: {column: status}}, measures: {total_amount: {type: sum, column: amount}}, joins: {archive: {to_model: '2023', foreign_key: order_id, related_key: order_id, type: one_to_one}}}, 2023: {table: orders_2023, dimensions: {}, measures: {order_count: {type: count}}, joins: null}}}".

Definition yearly_parsed : value :=
  VObj [("version", VNum 1);
        ("models",
         VObj [("2023",
                VObj [("table", VStr "orders_2023");
                      ("dimensions", VObj []);
                      ("measures", VObj [("order_count", VObj [("type", VStr "count")])]);
                      ("joins", VNull)]);
               ("orders",
                VObj [("description", VStr "All orders");
                      ("table", VStr "orders");
                      ("dimensions", VObj [("status", VObj [("column", VStr "status")])]);
                      ("measures",
                       VObj [("total_amount",
                              VObj [("type", VStr "sum"); ("column", VStr "amount")])]);
                      ("joins",
                       VObj [("archive",
                              VObj [("to_model", VStr "2023");
                                    ("foreign_key", VStr "order_id");
                                    ("related_key", VStr "order_id");
                                    ("type", VStr "one_to_one")])])])])].

Definition yearly_project : UserRules.World :=
  world [(models_path, yearly_text)] [(yearly_text, Return yearly_parsed)].

(** The scenario of section 8 of the spec: ten orders of amount 100, and
    three line items, all on order 1; the orders are those of two
    customers. *)
Definition shop : Compiler.Registry :=
  [("orders",
    mkModel "orders" None None None (Some "order_id") None
      [("status", mkDimension "status" None)]
      [("order_count", mkMeasure agg_count None);
       ("total_amount", mkMeasure agg_sum (Some "amount"))]
      [("items", mkJoin "line_items" "order_id" "order_id" one_to_many);
       ("customer", mkJoin "customers" "customer_id" "customer_id" many_to_one)]);
   ("line_items",
    mkModel "line_items" None None None None None
      [("product", mkDimension "product" None)]
      [("quantity", mkMeasure agg_sum (Some "qty"))]
      []);
   ("customers",
    mkModel "customers" None None None (Some "customer_id") None
      [("name", mkDimension "name" None)]
      []
      [])].

Definition order_row (n : Z) : Compiler.Row :=
  [("order_id", Compiler.CInt n); ("amount", Compiler.CInt 100);
   ("status", Compiler.CText "completed");
   ("customer_id", Compiler.CInt (n mod 2 + 1))].

Definition item_row (order : Z) (product : string) (qty : Z) : Compiler.Row :=
  [("order_id", Compiler.CInt order); ("product", Compiler.CText product);
   ("qty", Compiler.CInt qty)].

Definition customer_row (n : Z) (name : string) : Compiler.Row :=
  [("customer_id", Compiler.CInt n); ("name", Compiler.CText name)].

Definition shop_tables : Compiler.Database :=
  fun t =>
    if String.eqb t "orders" then order_row <$> [1; 2; 3; 4; 5; 6; 7; 8; 9; 10]%Z
    else if String.eqb t "line_items"
    then [item_row 1 "tea" 2; item_row 1 "milk" 1; item_row 1 "sugar" 5]
    else if String.eqb t "customers"
    then [customer_row 1 "Ada"; customer_row 2 "Grace"]
    else [].

(** The total amount of the orders together with the quantity of their
    line items. *)
Definition amount_and_quantity : Compiler.CompileRequest :=
  Compiler.mkCompileRequest "orders" ["total_amount"; "items.quantity"] [] [] [] None.

(** The same, by the name of the customer. *)
Definition by_customer : Compiler.CompileRequest :=
  Compiler.mkCompileRequest "orders" ["total_amount"; "items.quantity"] ["customer.name"]
    [] [] None.

(** The plan of a compiler that would join the "many" side as it is. *)
Definition joined_directly (plan : Compiler.Plan) : Compiler.Plan :=
  Compiler.mkPlan (Compiler.p_source plan)
    ((fun n => Compiler.mkJoinNode (Compiler.n_chain n) (Compiler.n_join n)
                 (Compiler.n_target n) false (Compiler.n_measures n))
       <$> Compiler.p_joins plan)
    (Compiler.p_filters plan) (Compiler.p_group_by plan) (Compiler.p_aggregates plan)
    (Compiler.p_columns plan) (Compiler.p_order_by plan) (Compiler.p_limit plan).

End Scenario.

(* ===================================================================== *)
(** ** The other readers of the project folder (agents/user-rules.ts)    *)
(* ===================================================================== *)

Module ProjectFiles.
Import JS UserRules.

(** [getUserRules]: the text of [RULES.md], if there is one. *)
Definition getUserRules (w : World) : outcome string :=
  match NAO_DEFAULT_PROJECT_PATH w with
  | None => mkOutcome None []
  | Some projectFolder =>
      if String.eqb projectFolder "" then mkOutcome None [] else
      let rulesPath := join w [projectFolder; "RULES.md"] in
      if negb (existsSync w rulesPath) then mkOutcome None [] else
      try_catch "Error reading RULES.md:"
        (rulesContent ← readFileSync w rulesPath;
         Return (Some rulesContent))
  end.

(** An entry of [readdirSync(path, { withFileTypes: true })]. *)
Record Dirent : Type := mkDirent {
  d_name : string;
  isDirectory : bool;
}.

Record Connection : Type := mkConnection {
  c_type : string;
  c_database : string;
}.

(** [s.slice(n)] *)
Definition slice (n : nat) (s : string) : string :=
  String.substring n (String.length s - n) s.

(** [s.startsWith(p)] *)
Definition startsWith (p s : string) : bool := String.prefix p s.

(** The inner loop of [getConnections], over the entries of one
    [type=...] folder. *)
Fixpoint databases_of (type : string) (dbEntries : list Dirent) : list Connection :=
  match dbEntries with
  | [] => []
  | dbEntry :: rest =>
      (if isDirectory dbEntry && startsWith "database=" (d_name dbEntry)
       then
         let database := slice (String.length "database=") (d_name dbEntry) in
         if negb (String.eqb database "") then [mkConnection type database] else []
       else [])
      ++ databases_of type rest
  end.

(** The outer loop of [getConnections]: the connections pushed, or the
    error of the first [readdirSync] that throws. *)
Fixpoint connections_of (w : World) (readdirSync : string -> completion (list Dirent))
    (databasesPath : string) (entries : list Dirent) : completion (list Connection) :=
  match entries with
  | [] => Return []
  | entry :: rest =>
      found ←
        (if isDirectory entry && startsWith "type=" (d_name entry)
         then
           let type := slice (String.length "type=") (d_name entry) in
           if negb (String.eqb type "")
           then
             dbEntries ← readdirSync (join w [databasesPath; d_name entry]);
             Return (databases_of type dbEntries)
           else Return []
         else Return []);
      others ← connections_of w readdirSync databasesPath rest;
      Return (found ++ others)
  end.

Definition getConnections (w : World) (readdirSync : string -> completion (list Dirent))
  : outcome (list Connection) :=
  match NAO_DEFAULT_PROJECT_PATH w with
  | None => mkOutcome None []
  | Some projectFolder =>
      if String.eqb projectFolder "" then mkOutcome None [] else
      let databasesPath := join w [projectFolder; "databases"] in
      if negb (existsSync w databasesPath) then mkOutcome None [] else
      try_catch "Error reading databases folder:"
        (entries ← readdirSync databasesPath;
         connections ← connections_of w readdirSync databasesPath entries;
         Return (match connections with [] => None | _ => Some connections end))
  end.

Record ClassificationInfo : Type := mkClassificationInfo {
  cl_name : string;
  cl_description : value;
  cl_tags : value;
}.

(** The arrow function mapped over [Object.entries(parsed.classifications)]. *)
Definition classification_info (entry : string * value) : completion ClassificationInfo :=
  description ← get entry.2 "description";
  tags ← get entry.2 "tags";
  Return (mkClassificationInfo entry.1 description (or_else tags (VArr []))).

Definition getClassifications (w : World) : outcome (list ClassificationInfo) :=
  match NAO_DEFAULT_PROJECT_PATH w with
  | None => mkOutcome None []
  | Some projectFolder =>
      if String.eqb projectFolder "" then mkOutcome None [] else
      let yamlPath := join w [projectFolder; "semantics"; "business_rules.yml"] in
      if negb (existsSync w yamlPath) then mkOutcome None [] else
      try_catch "Error reading classifications from business_rules.yml:"
        (content ← readFileSync w yamlPath;
         parsed ← YAML_parse w content;
         let classifications := get_opt parsed "classifications" in
         if negb (truthy classifications) then Return None else
         entries ← Object_entries classifications;
         infos ← mapM classification_info entries;
         Return (Some infos))
  end.

End ProjectFiles.

(* ===================================================================== *)
(** ** Concrete projects for the readers                                 *)
(* ===================================================================== *)

Module ReaderCases.
Import JS ProjectFiles.

(** The [databases] folder of the example project: one PostgreSQL
    database, a stray file and a folder without a name after [type=]. *)
Definition listing (path : string) : completion (list Dirent) :=
  if String.eqb path "/proj/databases"
  then Return [mkDirent "type=postgres" true; mkDirent "README.md" false;
               mkDirent "type=" true]
  else if String.eqb path "/proj/databases/type=postgres"
  then Return [mkDirent "database=nytaxi" true; mkDirent "database=notes.txt" false]
  else Throw (Error "ENOENT: no such file or directory").

Definition taxi_project : UserRules.World :=
  Scenario.world [("/proj/databases", ""); ("/proj/RULES.md", "Always answer in English.")] [].

(** A rules document with a classification that has tags, one that has
    none, and no rules. *)
Definition classified : value :=
  VObj [("classifications",
         VObj [("airport_trip",
                VObj [("description", VStr "Trips to or from an airport");
                      ("tags", VArr [VStr "zone"; VStr "fare"])]);
               ("commute", VObj [("description", VStr "Weekday rush-hour trips")])])].

Definition classified_text : string :=
  "classifications: {airport_trip: {description: Trips to or from an airport, tags: [zone, fare]}, commute: {description: Weekday rush-hour trips}}".

Definition classified_project : UserRules.World :=
  Scenario.world [(Scenario.rules_path, classified_text)]
                 [(classified_text, Return classified)].

(** A models document whose second model has no body. *)
Definition bodiless : value :=
  VObj [("models",
         VObj [("trips", VObj [("table", VStr "trips")]); ("zones", VNull)])].

Definition bodiless_project : UserRules.World :=
  Scenario.world [(Scenario.models_path, "models: {trips: {table: trips}, zones: }")]
                 [("models: {trips: {table: trips}, zones: }", Return bodiless)].

(** A rules document that gives the rules as a mapping. *)
Definition rules_mapping : value :=
  VObj [("rules", VObj [("cash_tips_not_recorded", VObj [("category", VStr "data_quality")])])].

Definition rules_mapping_project : UserRules.World :=
  Scenario.world
    [(Scenario.rules_path, "rules: {cash_tips_not_recorded: {category: data_quality}}")]
    [("rules: {cash_tips_not_recorded: {category: data_quality}}", Return rules_mapping)].

End ReaderCases.

(* ===================================================================== *)
(** ** The input schemas of the three tools (shared/tools)               *)
(* ===================================================================== *)

Module ToolSchemas.
Import JS.

(** Issue codes, with [too_small] for [.min(1)]. *)
Inductive code : Type := invalid_type | invalid_enum_value | too_small.

Definition issue : Type := (list string * code)%type.

Inductive parsed (A : Type) : Type :=
| Ok (a : A)
| Invalid (issues : list issue).
Arguments Ok {A} a.
Arguments Invalid {A} issues.

Definition issues_of {A} (p : parsed A) : list issue :=
  match p with Ok _ => [] | Invalid l => l end.

Definition at_key {A} (k : string) (p : parsed A) : parsed A :=
  match p with
  | Ok a => Ok a
  | Invalid l => Invalid (map (fun i => (k :: i.1, i.2)) l)
  end.

Definition of_code (c : Zod.code) : code :=
  match c with
  | Zod.invalid_type => invalid_type
  | Zod.invalid_enum_value => invalid_enum_value
  end.

(** The outcome of one of the schemas of [Zod], with the same issues. *)
Definition lift {A} (p : Zod.parsed A) : parsed A :=
  match p with
  | Zod.Ok a => Ok a
  | Zod.Invalid l => Invalid (map (fun i => (i.1, of_code i.2)) l)
  end.

Definition z_string (v : value) : parsed string := lift (Zod.z_string v).

(** [z.number()], on the integers. *)
Definition z_number (v : value) : parsed Z :=
  match v with
  | VNum n => Ok n
  | _ => Invalid [([], invalid_type)]
  end.

(** [schema.optional()] *)
Definition z_optional {A} (schema : value -> parsed A) (v : value) : parsed (option A) :=
  match v with
  | VUndefined => Ok None
  | _ =>
      match schema v with
      | Ok a => Ok (Some a)
      | Invalid l => Invalid l
      end
  end.

(** [schema.default(d)] *)
Definition z_default {A} (schema : value -> parsed A) (d : value) (v : value) : parsed A :=
  match v with
  | VUndefined => schema d
  | _ => schema v
  end.

(** The elements of an array parsed one by one, each under its index. *)
Fixpoint elements {A} (schema : value -> parsed A) (i : nat) (xs : list value)
  : list (parsed A) :=
  match xs with
  | [] => []
  | x :: r => at_key (pretty i) (schema x) :: elements schema (S i) r
  end.

Fixpoint values_of {A} (l : list (parsed A)) : list A :=
  match l with
  | [] => []
  | Ok a :: r => a :: values_of r
  | Invalid _ :: r => values_of r
  end.

Definition is_ok {A} (p : parsed A) : bool :=
  match p with Ok _ => true | Invalid _ => false end.

(** [z.array(schema).min(least)]; [least = 0] is [z.array(schema)].  A
    short array is reported and its elements are parsed all the same. *)
Definition z_array {A} (schema : value -> parsed A) (least : nat) (v : value)
  : parsed (list A) :=
  match v with
  | VArr xs =>
      let results := elements schema 0 xs in
      if negb (Nat.ltb (length xs) least) && forallb is_ok results
      then Ok (values_of results)
      else Invalid ((if Nat.ltb (length xs) least then [([], too_small)] else [])
                    ++ concat (issues_of <$> results))
  | _ => Invalid [([], invalid_type)]
  end.

(** The [InputSchema] of the query-metrics tool. *)
Definition queryMetrics_InputSchema (input : value) : parsed Executors.queryMetrics.Input :=
  match input with
  | VObj props =>
      let model_name := at_key "model_name" (z_string (get_opt input "model_name")) in
      let measures := at_key "measures" (z_array z_string 1 (get_opt input "measures")) in
      let dimensions :=
        at_key "dimensions"
          (z_default (z_array z_string 0) (VArr []) (get_opt input "dimensions")) in
      let filters :=
        at_key "filters"
          (z_default (z_array (fun v => lift (Zod.FilterSchema v)) 0) (VArr [])
             (get_opt input "filters")) in
      let order_by :=
        at_key "order_by"
          (z_default (z_array (fun v => lift (Zod.OrderBySchema v)) 0) (VArr [])
             (get_opt input "order_by")) in
      let limit := at_key "limit" (z_optional z_number (get_opt input "limit")) in
      let database_id :=
        at_key "database_id" (z_optional z_string (get_opt input "database_id")) in
      match model_name, measures, dimensions, filters, order_by, limit, database_id with
      | Ok n, Ok ms, Ok ds, Ok fs, Ok os, Ok l, Ok d =>
          Ok (Executors.queryMetrics.mkInput n ms ds fs os l d)
      | _, _, _, _, _, _, _ =>
          Invalid (issues_of model_name ++ issues_of measures ++ issues_of dimensions
                   ++ issues_of filters ++ issues_of order_by ++ issues_of limit
                   ++ issues_of database_id)
      end
  | _ => Invalid [([], invalid_type)]
  end.

(** The [InputSchema] of the business-context tool. *)
Definition getBusinessContext_InputSchema (input : value)
  : parsed Executors.getBusinessContext.Input :=
  match input with
  | VObj props =>
      let category := at_key "category" (z_optional z_string (get_opt input "category")) in
      let concepts :=
        at_key "concepts"
          (z_default (z_array z_string 0) (VArr []) (get_opt input "concepts")) in
      match category, concepts with
      | Ok c, Ok cs => Ok (Executors.getBusinessContext.mkInput c (Some cs))
      | _, _ => Invalid (issues_of category ++ issues_of concepts)
      end
  | _ => Invalid [([], invalid_type)]
  end.

(** The [InputSchema] of the classify tool. *)
Definition classify_InputSchema (input : value) : parsed Executors.classify.Input :=
  match input with
  | VObj props =>
      let name := at_key "name" (z_optional z_string (get_opt input "name")) in
      let tags :=
        at_key "tags" (z_default (z_array z_string 0) (VArr []) (get_opt input "tags")) in
      match name, tags with
      | Ok n, Ok ts => Ok (Executors.classify.mkInput n (Some ts))
      | _, _ => Invalid (issues_of name ++ issues_of tags)
      end
  | _ => Invalid [([], invalid_type)]
  end.

(** An input whose empty [database_id] is read as none: what the body of
    the request still tells. *)
Definition sent_input (i : Executors.queryMetrics.Input) : Executors.queryMetrics.Input :=
  Executors.queryMetrics.mkInput
    (Executors.queryMetrics.model_name i) (Executors.queryMetrics.measures i)
    (Executors.queryMetrics.dimensions i) (Executors.queryMetrics.filters i)
    (Executors.queryMetrics.order_by i) (Executors.queryMetrics.limit i)
    (match Executors.queryMetrics.database_id i with
     | Some "" => None
     | d => d
     end).

End ToolSchemas.

(* ===================================================================== *)
(** ** The registry of running agents (agent service of the frontend)    *)
(* ===================================================================== *)

Module AgentService.

(** The module-level [agents] map, from agent id to agent; [Agent] is
    the chat instance, which the service only stores. *)
Definition getAgent {Agent : Type} (agentId : string) (agents : gmap string Agent)
  : option Agent :=
  agents !! agentId.

(** [registerAgent] returns the agent and the map after [agents.set]. *)
Definition registerAgent {Agent : Type} (agentId : string) (agent : Agent)
    (agents : gmap string Agent) : Agent * gmap string Agent :=
  (agent, <[agentId := agent]> agents).

Definition disposeAgent {Agent : Type} (agentId : string) (agents : gmap string Agent)
  : gmap string Agent :=
  delete agentId agents.

(** [moveAgent] returns what it wrote with [console.warn] and the map
    it leaves. *)
Definition moveAgent {Agent : Type} (fromId toId : string) (agents : gmap string Agent)
  : list string * gmap string Agent :=
  match agents !! fromId with
  | None =>
      (["moveAgent: agent " +:+ fromId +:+ " not found, skipping move to " +:+ toId], agents)
  | Some agent => ([], <[toId := agent]> (delete fromId agents))
  end.

End AgentService.

(* ===================================================================== *)
(** ** Concrete backends for the executors                               *)
(* ===================================================================== *)

Module ExecutorCases.
Import JS.

(** A backend that answers with rows and with an [id] and a [_version]
    of its own. *)
Definition answer : list (string * value) :=
  [("data", VArr [VObj [("trip_count", VNum 120)]]);
   ("row_count", VNum 1);
   ("columns", VArr [VStr "trip_count"]);
   ("id", VStr "query_backend");
   ("_version", VStr "2")].

Definition answered : Executors.Response :=
  Executors.mkResponse true "OK" (Return (VObj answer)).

Definition answering_host : Executors.Host :=
  Executors.mkHost "8005" (fun _ _ => Return answered)
    Scenario.stringify_text "3f2a9c1e-7b4d-4c1a-9e0f-5d6c7b8a9f01".

Definition trip_count : Executors.queryMetrics.Input :=
  Executors.queryMetrics.mkInput "trips" ["trip_count"] [] [] [] None None.

(** No backend is listening: [fetch] throws. *)
Definition unreachable_host : Executors.Host :=
  Executors.mkHost "8005" (fun _ _ => Throw (TypeError "fetch failed"))
    Scenario.stringify_text "3f2a9c1e-7b4d-4c1a-9e0f-5d6c7b8a9f01".

End ExecutorCases.

(* ===================================================================== *)
(** ** The model output of query-metrics (tool-outputs/query-metrics.tsx) *)
(* ===================================================================== *)

Module ToolOutputs.
Import JS.

(** A JSX tree: text, a number, [false] (which renders nothing), the
    array a [map] gives, or an element with its attributes and children. *)
Inductive node : Type :=
| Text (s : string)
| Number (n : Z)
| Nothing
| Items (l : list node)
| Element (tag : string) (attrs : list (string * string)) (children : list node).

(** The helpers the component imports: [pluralize], [truncateMiddle],
    and the texts of [JSON.stringify(v)] and [String(v)]. *)
Record Helpers : Type := mkHelpers {
  pluralize : string -> Z -> string;
  truncateMiddle : string -> Z -> string;
  JSON_stringify : value -> string;
  String_of : value -> string;
}.

(** [queryMetrics.Output], as the component reads it. *)
Record Output : Type := mkOutput {
  data : list value;
  row_count : Z;
  columns : list string;
  model_name : string;
  measures : list string;
  dimensions : list string;
  id : string;
}.

Definition MAX_ROWS : Z := 20.

(** [typeof value === 'object'] *)
Definition is_object (v : value) : bool :=
  match v with
  | VNull | VArr _ | VObj _ => true
  | _ => false
  end.

Definition formatRowValue (hp : Helpers) (v : value) : string :=
  let strValue := if is_object v then JSON_stringify hp v else String_of hp v in
  truncateMiddle hp strValue 255.

(** [l.slice(0, end)], for an integer [end]. *)
Definition slice_to {A} (l : list A) (last : Z) : list A :=
  if (last <? 0)%Z then take (Z.to_nat (Z.of_nat (length l) + last)) l
  else take (Z.to_nat last) l.

(** [l.join(', ')] *)
Definition join_comma (l : list string) : string := String.concat ", " l.

Definition isTruncated (output : Output) (maxRows : Z) : bool :=
  (maxRows <? Z.of_nat (length (data output)))%Z.

Definition visibleRows (output : Output) (maxRows : Z) : list value :=
  if isTruncated output maxRows then slice_to (data output) maxRows else data output.

Definition remainingRows (output : Output) (maxRows : Z) : Z :=
  if isTruncated output maxRows then (Z.of_nat (length (data output)) - maxRows)%Z else 0%Z.

(** The code block of row [i] (counted from 0). *)
Definition row_block (hp : Helpers) (i : nat) (row : value) : completion node :=
  entries ← Object_entries row;
  Return
    (Element "CodeBlock" [("header", "#" +:+ pretty (i + 1)%nat)]
       [Element "Block" [("separator", String (Ascii.ascii_of_nat 10) EmptyString)]
          [Items ((fun kv => Text (kv.1 +:+ ": " +:+ formatRowValue hp kv.2)) <$> entries)]]).

Fixpoint row_blocks (hp : Helpers) (i : nat) (rows : list value) : completion (list node) :=
  match rows with
  | [] => Return []
  | row :: rest =>
      b ← row_block hp i row;
      bs ← row_blocks hp (S i) rest;
      Return (b :: bs)
  end.

(** [QueryMetricsOutput({ output, maxRows = MAX_ROWS })] *)
Definition QueryMetricsOutput (hp : Helpers) (output : Output) (maxRows : option Z)
  : completion node :=
  let maxRows := default MAX_ROWS maxRows in
  match data output with
  | [] =>
      Return (Element "Block" []
                [Text "The metric query was successfully executed and returned no rows."])
  | _ =>
      blocks ← row_blocks hp 0 (visibleRows output maxRows);
      Return
        (Element "Block" []
           [Element "Span" [] [Text "Query ID: "; Text (id output)];
            Element "Span" []
              [Text "Model: "; Text (model_name output); Text " | Measures: ";
               Text (join_comma (measures output)); Text " | Dimensions:"; Text " ";
               Text (match dimensions output with
                     | [] => "none"
                     | _ => join_comma (dimensions output)
                     end)];
            Element "TitledList"
              [("title",
                pluralize hp "Column" (Z.of_nat (length (columns output))) +:+ " (" +:+
                pretty (length (columns output)) +:+ ")")]
              [Items ((fun column => Element "ListItem" [] [Text column]) <$> columns output)];
            Element "Title" []
              [Text (pluralize hp "Row" (row_count output)); Text " (";
               Number (row_count output); Text ")"];
            Element "Block" [] [Items blocks];
            if (0 <? remainingRows output maxRows)%Z
            then Element "Span" []
                   [Text "...("; Number (remainingRows output maxRows); Text " more)"]
            else Nothing])
  end.

(** The row blocks and the closing child of a rendered output. *)
Definition rendered_rows (n : node) : option (list node * node) :=
  match n with
  | Element _ _ [_; _; _; _; Element _ _ [Items blocks]; more] => Some (blocks, more)
  | _ => None
  end.

End ToolOutputs.

(* ===================================================================== *)
(** ** A concrete output for the component                               *)
(* ===================================================================== *)

Module OutputCases.
Import JS ToolOutputs.

Definition helpers : Helpers :=
  mkHelpers (fun word n => if (n =? 1)%Z then word else word +:+ "s")
            (fun s _ => s) Scenario.stringify_text Scenario.stringify_text.

Definition three_rows : Output :=
  mkOutput [VObj [("borough", VStr "Queens")]; VObj [("borough", VStr "Bronx")];
            VObj [("borough", VStr "Manhattan")]]
           3 ["borough"] "trips" ["trip_count"] ["borough"] "query_3f2a9c1e".

End OutputCases.

(* ===================================================================== *)
(** ** Documents and folders with one broken part                        *)
(* ===================================================================== *)

Module BrokenCases.
Import JS ProjectFiles.

(** A models document whose measure [order_count] has no body. *)
Definition bodiless_measure : value :=
  VObj [("models",
         VObj [("orders",
                VObj [("table", VStr "orders");
                      ("measures",
                       VObj [("total_amount",
                              VObj [("column", VStr "amount"); ("type", VStr "sum")]);
                             ("order_count", VNull)])])])].

Definition bodiless_measure_text : string :=
  "models: {orders: {table: orders, measures: {total_amount: {column: amount, type: sum}, order_count: }}}".

Definition bodiless_measure_project : UserRules.World :=
  Scenario.world [(Scenario.models_path, bodiless_measure_text)]
                 [(bodiless_measure_text, Return bodiless_measure)].

(** A rules document whose second rule is an empty list item. *)
Definition empty_item : value :=
  VObj [("rules", VArr [Scenario.blank_severity_rule; VNull])].

Definition empty_item_text : string :=
  "rules: [{name: cash_tips_not_recorded, category: data_quality, severity: '', applies_to: [tip_amount], description: Cash tips are NOT recorded in the data, guidance: Exclude cash payments from tip analysis}, null]".

Definition empty_item_project : UserRules.World :=
  Scenario.world [(Scenario.rules_path, empty_item_text)]
                 [(empty_item_text, Return empty_item)].

(** A [databases] folder whose second [type=] folder cannot be read. *)
Definition locked_listing (path : string) : completion (list Dirent) :=
  if String.eqb path "/proj/databases"
  then Return [mkDirent "type=postgres" true; mkDirent "type=duckdb" true]
  else if String.eqb path "/proj/databases/type=postgres"
  then Return [mkDirent "database=nytaxi" true]
  else Throw (Error "EACCES: permission denied").

End BrokenCases.

(* ===================================================================== *)
(** * Properties                                                          *)
(* ===================================================================== *)

(** ** Query-metrics schemas *)

Section Schemas.
Import JS Zod.

Lemma find_operator_name (o : operator) :
  List.find (fun o' => String.eqb (operator_name o') (operator_name o)) operators = Some o.
Proof. destruct o; reflexivity. Qed.

Lemma find_operator_sound (s : string) (o : operator) :
  List.find (fun o' => String.eqb (operator_name o') s) operators = Some o ->
  s = operator_name o.
Proof.
  intros H. apply find_some in H as [_ H].
  apply String.eqb_eq in H. by symmetry.
Qed.

Lemma z_enum_operator_str (s : string) :
  z_enum_operator (VStr s) =
    match List.find (fun o => String.eqb (operator_name o) s) operators with
    | Some o => Ok o
    | None => Invalid [([], invalid_enum_value)]
    end.
Proof. reflexivity. Qed.

Lemma z_enum_operator_accepts (v : value) :
  accepts (z_enum_operator v) <-> exists o, v = VStr (operator_name o).
Proof.
  split.
  - intros [o H]. destruct v; try discriminate.
    rewrite z_enum_operator_str in H.
    destruct (List.find _ _) as [o'|] eqn:E; [|discriminate].
    exists o'. f_equal. by apply find_operator_sound.
  - intros [o ->]. exists o. rewrite z_enum_operator_str.
    by rewrite find_operator_name.
Qed.

Lemma z_enum_operator_name (o : operator) :
  z_enum_operator (VStr (operator_name o)) = Ok o.
Proof. rewrite z_enum_operator_str. by rewrite find_operator_name. Qed.

Lemma FilterSchema_shape (props : list (string * value)) (c : string) :
  assoc "column" props = Some (VStr c) ->
  FilterSchema (VObj props) =
    match z_default z_enum_operator (VStr "eq") (get_opt (VObj props) "operator") with
    | Ok o => Ok (mkFilter c o (get_opt (VObj props) "value"))
    | Invalid l => Invalid (map (fun i => ("operator" :: i.1, i.2)) l ++ [])
    end.
Proof.
  intros Hc. unfold FilterSchema. cbn [get_opt]. rewrite Hc.
  destruct (z_default _ _ _); reflexivity.
Qed.

(** C5. A filter of a query-metrics request (an object whose [column] is
    a string) is accepted by [FilterSchema] exactly when its operator is
    left out or is one of the eight names [eq], [ne], [gt], [gte], [lt],
    [lte], [in], [not_in]; a named operator is the parsed operator, and a
    filter without operator parses with operator [eq]. *)
Theorem FilterSchema_operator (props : list (string * value)) (c : string) :
  assoc "column" props = Some (VStr c) ->
  let operator := get_opt (VObj props) "operator" in
  let value := get_opt (VObj props) "value" in
  (accepts (FilterSchema (VObj props)) <->
     operator = VUndefined \/ exists o, o ∈ operators /\ operator = VStr (operator_name o)) /\
  (forall o, operator = VStr (operator_name o) ->
     FilterSchema (VObj props) = Ok (mkFilter c o value)) /\
  (operator = VUndefined ->
     FilterSchema (VObj props) = Ok (mkFilter c op_eq value)).
Proof.
  intros Hc operator value. rewrite (FilterSchema_shape _ _ Hc).
  fold operator value. split; [|split].
  - split.
    + intros [f Hf].
      destruct operator eqn:E; try (by left); right;
        try (cbn [z_default z_enum_operator] in Hf; discriminate).
      cbn [z_default] in Hf. rewrite z_enum_operator_str in Hf.
      destruct (List.find _ _) as [o|] eqn:Ef; [|discriminate].
      exists o. split.
      * destruct o; unfold operators; set_solver.
      * f_equal. by apply find_operator_sound.
    + intros [-> | (o & _ & ->)].
      * by eexists.
      * eexists. unfold z_default. by rewrite z_enum_operator_name.
  - intros o ->. unfold z_default. by rewrite z_enum_operator_name.
  - by intros ->.
Qed.

Lemma FilterSchema_operator_witness :
  let props := [("column", VStr "payment_type"); ("value", VNum 2)] in
  FilterSchema (VObj props) = Ok (mkFilter "payment_type" op_eq (VNum 2)).
Proof.
  intros props.
  exact (proj2 (proj2 (FilterSchema_operator props "payment_type" eq_refl)) eq_refl).
Defined.

(** C6. An order_by entry (an object whose [column] is a string) given
    without an [ascending] flag parses with [ascending = true]. *)
Theorem OrderBySchema_default_ascending (props : list (string * value)) (c : string) :
  assoc "column" props = Some (VStr c) ->
  get_opt (VObj props) "ascending" = VUndefined ->
  OrderBySchema (VObj props) = Ok (mkOrderBy c true).
Proof.
  intros Hc Ha. unfold OrderBySchema. rewrite Ha. simpl. by rewrite Hc.
Qed.

Lemma OrderBySchema_default_ascending_witness :
  OrderBySchema (VObj [("column", VStr "total_fare")]) = Ok (mkOrderBy "total_fare" true).
Proof.
  exact (OrderBySchema_default_ascending [("column", VStr "total_fare")] "total_fare"
           eq_refl eq_refl).
Defined.

End Schemas.

(** ** Tool registration *)

Section Registration.
Import JS Registry.

Lemma tools_lookup_other (h : Host) (k : string) :
  k ∉ ["display_chart"; "execute_python"; "execute_sql"; "grep"; "list"; "read";
       "search"; "suggest_follow_ups"] ->
  tools h !! k = None.
Proof.
  intros Hk. unfold tools, assign, when.
  repeat rewrite lookup_union_None.
  destruct (executePython_available h);
    repeat split; try apply lookup_empty;
    apply lookup_singleton_ne; intros <-; apply Hk; set_solver.
Qed.

Lemma mcp_lookup_builtin (m : gmap string string) (k : string) (t : tool) :
  (forall id, t <> mcpTool id) ->
  (mcpTool <$> m) !! k <> Some t.
Proof.
  intros Ht. rewrite lookup_fmap. destruct (m !! k); simpl; [|done].
  intros [= E]. by eapply Ht.
Qed.

Lemma when_lookup (c : bool) (k k' : string) (t t' : tool) :
  when c k t !! k' = Some t' <-> c = true /\ k = k' /\ t = t'.
Proof.
  unfold when. destruct c.
  - rewrite lookup_singleton_Some. naive_solver.
  - rewrite lookup_empty. naive_solver.
Qed.

Lemma when_lookup_ne (c : bool) (k k' : string) (t : tool) :
  k <> k' -> when c k t !! k' = None.
Proof.
  intros Hk. unfold when. destruct c.
  - by apply lookup_singleton_ne.
  - apply lookup_empty.
Qed.

Lemma has_file_spec (po : option string) (join : list string -> string)
    (existsSync : string -> bool) (file : string) :
  configured po && existsSync (join [default "" po; "semantics"; file]) = true <->
  exists p, po = Some p /\ p <> "" /\ existsSync (join [p; "semantics"; file]) = true.
Proof.
  rewrite andb_true_iff. unfold configured. split.
  - intros [Hc He]. destruct po as [p|]; [|discriminate]. exists p.
    repeat split; [|done]. intros ->. discriminate.
  - intros (p & -> & Hp & He). split; [|done]. simpl.
    apply negb_true_iff. by apply String.eqb_neq.
Qed.

Ltac other_tool :=
  match goal with
  | |- when _ _ _ !! _ = None => apply when_lookup_ne; discriminate
  | |- match ?x with _ => _ end !! _ = None =>
      destruct x; [apply when_lookup_ne; discriminate | apply lookup_empty]
  end.

(** C9. For every host state and agent settings, the tool set of
    [getTools] has [queryMetrics] under [query_metrics] exactly when a
    project folder is configured and [semantics/semantic_model.yml]
    exists under it, and has [getBusinessContext] under
    [get_business_context], and [classify] under [classify], exactly
    when [semantics/business_rules.yml] exists under it. *)
Theorem getTools_semantic_tools (h : Host) (agentSettings : option AgentSettings) :
  let under file := exists p,
    NAO_DEFAULT_PROJECT_PATH h = Some p /\ p <> "" /\
    existsSync h (join h [p; "semantics"; file]) = true in
  (getTools h agentSettings !! "query_metrics" = Some queryMetrics
     <-> under "semantic_model.yml") /\
  (getTools h agentSettings !! "get_business_context" = Some getBusinessContext
     <-> under "business_rules.yml") /\
  (getTools h agentSettings !! "classify" = Some classify
     <-> under "business_rules.yml").
Proof.
  intros under. unfold under.
  rewrite <- !has_file_spec. fold (hasSemanticModel h) (hasBusinessRules h).
  unfold getTools, assign.
  repeat split.
  - intros H. rewrite !lookup_union_Some_raw in H.
    destruct H as [H | [_ [H | [_ [H | [_ [H | [_ [H | [_ H]]]]]]]]]].
    + apply when_lookup in H. naive_solver.
    + apply when_lookup in H. naive_solver.
    + apply when_lookup in H. naive_solver.
    + destruct (tools h !! "execute_python");
        [apply when_lookup in H; naive_solver | by rewrite lookup_empty in H].
    + by apply mcp_lookup_builtin in H.
    + rewrite lookup_delete_ne in H by done.
      rewrite tools_lookup_other in H; [done | set_solver].
  - intros H. rewrite !lookup_union_Some_raw.
    right; split; [other_tool|]. right; split; [other_tool|].
    left. by apply when_lookup.
  - intros H. rewrite !lookup_union_Some_raw in H.
    destruct H as [H | [_ [H | [_ [H | [_ [H | [_ [H | [_ H]]]]]]]]]].
    + apply when_lookup in H. naive_solver.
    + apply when_lookup in H. naive_solver.
    + apply when_lookup in H. naive_solver.
    + destruct (tools h !! "execute_python");
        [apply when_lookup in H; naive_solver | by rewrite lookup_empty in H].
    + by apply mcp_lookup_builtin in H.
    + rewrite lookup_delete_ne in H by done.
      rewrite tools_lookup_other in H; [done | set_solver].
  - intros H. rewrite !lookup_union_Some_raw.
    right; split; [other_tool|]. left. by apply when_lookup.
  - intros H. rewrite !lookup_union_Some_raw in H.
    destruct H as [H | [_ [H | [_ [H | [_ [H | [_ [H | [_ H]]]]]]]]]].
    + apply when_lookup in H. naive_solver.
    + apply when_lookup in H. naive_solver.
    + apply when_lookup in H. naive_solver.
    + destruct (tools h !! "execute_python");
        [apply when_lookup in H; naive_solver | by rewrite lookup_empty in H].
    + by apply mcp_lookup_builtin in H.
    + rewrite lookup_delete_ne in H by done.
      rewrite tools_lookup_other in H; [done | set_solver].
  - intros H. rewrite !lookup_union_Some_raw. left. by apply when_lookup.
Qed.

End Registration.

(** ** Tool executors *)

Section Executing.
Import JS Executors.

Lemma fail_with_throws (h : Host) (prefix : string) (response : Response) :
  exists e, fail_with h prefix response = Throw e.
Proof.
  unfold fail_with. destruct (get (errorData response) "detail"); simpl; eauto.
Qed.

Lemma fail_with_detail (h : Host) (prefix : string) (response : Response) (data : value) :
  json response = Return data -> data <> VNull -> data <> VUndefined ->
  fail_with h prefix response
    = Throw (Error (prefix +:+ JSON_stringify h (get_opt data "detail"))).
Proof.
  intros Hj H1 H2. unfold fail_with, errorData. rewrite Hj. by destruct data.
Qed.

Lemma fail_with_null (h : Host) (prefix : string) (response : Response) (data : value) :
  json response = Return data -> data = VNull \/ data = VUndefined ->
  fail_with h prefix response
    = Throw (TypeError "Cannot read properties of undefined or null (reading 'detail')").
Proof.
  intros Hj Hd. unfold fail_with, errorData. rewrite Hj. by destruct Hd as [-> | ->].
Qed.

Lemma fail_with_statusText (h : Host) (prefix : string) (response : Response) (e : exn) :
  json response = Throw e ->
  fail_with h prefix response =
    Throw (Error (prefix +:+ JSON_stringify h (VStr (statusText response)))).
Proof.
  intros Hj. unfold fail_with, errorData. rewrite Hj. reflexivity.
Qed.

Lemma fail_with_fails_once (h : Host) (prefix : string) (rq : Request)
    (response : Response) (sent : list Request) :
  fails_once h prefix rq response sent (fail_with h prefix response, (sent ++ [rq])%list).
Proof.
  repeat split; simpl.
  - apply fail_with_throws.
  - apply fail_with_detail.
  - apply fail_with_statusText.
  - apply fail_with_null.
Qed.




(** C10. The body sent by the business-context (resp. classify) executor
    has a [category] (resp. [name]) member exactly when that input is a
    non-empty string, and a [concepts] (resp. [tags]) member exactly
    when that list is non-empty; an empty string or an empty list gives
    the same execution as the input left out. *)
Theorem filter_members_sent (h : Host) (context : ToolContext) (sent : list Request) :
  (forall i : getBusinessContext.Input,
     exists rq,
       (executeGetBusinessContext h i context sent).2 = (sent ++ [rq])%list /\
       (has_member "category" rq = true <->
          exists s, getBusinessContext.category i = Some s /\ s <> "") /\
       (has_member "concepts" rq = true <->
          exists l, getBusinessContext.concepts i = Some l /\ l <> [])) /\
  (forall i : classify.Input,
     exists rq,
       (executeClassify h i context sent).2 = (sent ++ [rq])%list /\
       (has_member "name" rq = true <-> exists s, classify.name i = Some s /\ s <> "") /\
       (has_member "tags" rq = true <-> exists l, classify.tags i = Some l /\ l <> [])) /\
  (forall category concepts,
     executeGetBusinessContext h (getBusinessContext.mkInput (Some "") concepts) context sent
       = executeGetBusinessContext h (getBusinessContext.mkInput None concepts) context sent /\
     executeGetBusinessContext h (getBusinessContext.mkInput category (Some [])) context sent
       = executeGetBusinessContext h (getBusinessContext.mkInput category None) context sent) /\
  (forall name tags,
     executeClassify h (classify.mkInput (Some "") tags) context sent
       = executeClassify h (classify.mkInput None tags) context sent /\
     executeClassify h (classify.mkInput name (Some [])) context sent
       = executeClassify h (classify.mkInput name None) context sent).
Proof.
  split; [|split; [|split; intros a b; split]].
  - intros [category concepts]. eexists. split.
    + unfold executeGetBusinessContext, fetch. reflexivity.
    + unfold has_member.
      destruct category as [[|a s]|], concepts as [[|x l]|]; cbn;
        split; split; intros H; try done;
        try (destruct H as (? & [= <-] & ?); done); eauto.
  - intros [name tags]. eexists. split.
    + unfold executeClassify, fetch. reflexivity.
    + unfold has_member.
      destruct name as [[|a s]|], tags as [[|x l]|]; cbn;
        split; split; intros H; try done;
        try (destruct H as (? & [= <-] & ?); done); eauto.
  - by destruct b as [[|x l]|].
  - by destruct a as [[|c s]|].
  - by destruct b as [[|x l]|].
  - by destruct a as [[|c s]|].
Qed.

End Executing.

(** ** The YAML loaders *)

Lemma semantics_file_Some (w : UserRules.World) (file path : string) :
  UserRules.semantics_file w file = Some path ->
  exists p, UserRules.NAO_DEFAULT_PROJECT_PATH w = Some p /\ String.eqb p "" = false /\
            path = UserRules.join w [p; "semantics"; file].
Proof.
  unfold UserRules.semantics_file.
  destruct (UserRules.NAO_DEFAULT_PROJECT_PATH w) as [p|]; [|done].
  destruct (String.eqb p "") eqn:E; [done|]. intros [= <-]. eauto.
Qed.

(** Enter a loader whose document is known to be absent or present. *)
Ltac enter_loader H :=
  let p := fresh "p" in
  let Hp := fresh "Hp" in
  let He := fresh "He" in
  let Hn := fresh "Hn" in
  let Hx := fresh "Hx" in
  lazymatch type of H with
  | UserRules.absent _ _ =>
      destruct H as (? & Hp & Hx);
      apply semantics_file_Some in Hp as (p & Hn & He & ->);
      rewrite Hn, He; cbn zeta; rewrite Hx; cbn [negb]
  | UserRules.holds _ _ _ =>
      let Hr := fresh "Hr" in
      let Hy := fresh "Hy" in
      destruct H as (? & ? & Hp & Hx & Hr & Hy);
      apply semantics_file_Some in Hp as (p & Hn & He & ->);
      rewrite Hn, He; cbn zeta; rewrite Hx, Hr; cbn [negb];
      unfold mbind, JS.completion_bind; cbn [JS.bind]; rewrite Hy; cbn [JS.bind]
  end.

Section Loaders.
Import JS UserRules.

(** C2 (as stated, refuted). For the project without documents and the
    project whose documents are cut-off YAML, both loaders return the
    same value ([null]); for a document that is YAML but has no [models]
    (resp. [rules]) even the console output is the same. *)
Lemma absent_and_malformed_alike :
  absent Scenario.empty_project "semantic_model.yml" /\
  malformed Scenario.truncated_project "semantic_model.yml" /\
  ret (getSemanticModels Scenario.empty_project)
    = ret (getSemanticModels Scenario.truncated_project) /\
  absent Scenario.empty_project "business_rules.yml" /\
  malformed Scenario.truncated_project "business_rules.yml" /\
  ret (getBusinessRules Scenario.empty_project)
    = ret (getBusinessRules Scenario.truncated_project) /\
  getSemanticModels Scenario.empty_project = getSemanticModels Scenario.unrelated_project /\
  getBusinessRules Scenario.empty_project = getBusinessRules Scenario.unrelated_project /\
  ~ distinguishes getSemanticModels "semantic_model.yml" /\
  ~ distinguishes getBusinessRules "business_rules.yml".
Proof.
  assert (Ha1 : absent Scenario.empty_project "semantic_model.yml")
    by (by exists Scenario.models_path).
  assert (Hm1 : malformed Scenario.truncated_project "semantic_model.yml")
    by (by exists YAMLParseError, Scenario.models_path, "models: [").
  assert (Ha2 : absent Scenario.empty_project "business_rules.yml")
    by (by exists Scenario.rules_path).
  assert (Hm2 : malformed Scenario.truncated_project "business_rules.yml")
    by (by exists YAMLParseError, Scenario.rules_path, "rules: [").
  repeat split; try done.
  - intros H. by apply (H _ _ Ha1 Hm1).
  - intros H. by apply (H _ _ Ha2 Hm2).
Qed.

(** C2 (amended). Both loaders return [null] when the document is absent
    and when it is present but not YAML; the two cases differ only in
    the console: nothing is written for an absent document, and the
    parse error is written for a malformed one. *)
Theorem loaders_absent_or_malformed (w : World) :
  (absent w "semantic_model.yml" -> getSemanticModels w = mkOutcome None []) /\
  (forall e, holds w "semantic_model.yml" (Throw e) ->
     getSemanticModels w = mkOutcome None [("Error reading semantic_model.yml:", e)]) /\
  (absent w "business_rules.yml" -> getBusinessRules w = mkOutcome None []) /\
  (forall e, holds w "business_rules.yml" (Throw e) ->
     getBusinessRules w = mkOutcome None [("Error reading business_rules.yml:", e)]).
Proof.
  repeat split.
  - intros H. unfold getSemanticModels. by enter_loader H.
  - intros e H. unfold getSemanticModels. by enter_loader H.
  - intros H. unfold getBusinessRules. by enter_loader H.
  - intros e H. unfold getBusinessRules. by enter_loader H.
Qed.

Lemma loaders_absent_or_malformed_witness :
  absent Scenario.empty_project "semantic_model.yml" /\
  holds Scenario.truncated_project "business_rules.yml" (Throw YAMLParseError) /\
  getSemanticModels Scenario.empty_project = mkOutcome None [] /\
  getBusinessRules Scenario.truncated_project
    = mkOutcome None [("Error reading business_rules.yml:", YAMLParseError)].
Proof.
  assert (Ha : absent Scenario.empty_project "semantic_model.yml")
    by (by exists Scenario.models_path).
  assert (Hm : holds Scenario.truncated_project "business_rules.yml" (Throw YAMLParseError))
    by (by exists Scenario.rules_path, "rules: [").
  split; [exact Ha|]. split; [exact Hm|]. split.
  - exact (proj1 (loaders_absent_or_malformed Scenario.empty_project) Ha).
  - exact (proj2 (proj2 (proj2 (loaders_absent_or_malformed Scenario.truncated_project)))
             YAMLParseError Hm).
Defined.

Lemma mapM_pure {A B} (f : A -> completion B) (g : A -> B) (l : list A) :
  (forall x, x ∈ l -> f x = Return (g x)) ->
  mapM f l = Return (g <$> l).
Proof.
  induction l as [|x l IH]; intros H; [done|].
  cbn [mapM]. rewrite H by set_solver. cbn [bind].
  rewrite IH by set_solver. done.
Qed.

Lemma get_defined (v : value) (k : string) :
  v <> VNull -> v <> VUndefined -> get v k = Return (get_opt v k).
Proof. by destruct v. Qed.

(** The rule record built from a rule that is neither [null] nor
    [undefined]. *)
Lemma rule_info_defined (rule : value) :
  rule <> VNull -> rule <> VUndefined ->
  rule_info rule =
    Return (mkBusinessRuleInfo (get_opt rule "name") (get_opt rule "category")
              (or_else (declared_severity rule) (VStr "info"))
              (get_opt rule "description") (get_opt rule "guidance")).
Proof.
  intros H1 H2. unfold rule_info. by rewrite !get_defined.
Qed.

(** A severity the rules document format does not have: a rule that
    declares the empty text [''] is loaded with severity ['info']. *)
Lemma blank_severity_not_kept :
  holds Scenario.blank_severity_project "business_rules.yml"
    (Return (VObj [("rules", VArr [Scenario.blank_severity_rule])])) /\
  assoc "severity" [("name", VStr "cash_tips_not_recorded");
                    ("category", VStr "data_quality");
                    ("severity", VStr "");
                    ("applies_to", VArr [VStr "tip_amount"]);
                    ("description", VStr "Cash tips are NOT recorded in the data");
                    ("guidance", VStr "Exclude cash payments from tip analysis")]
    = Some (VStr "") /\
  declared_severity Scenario.blank_severity_rule = VStr "" /\
  ret (getBusinessRules Scenario.blank_severity_project)
    = Some [mkBusinessRuleInfo (VStr "cash_tips_not_recorded") (VStr "data_quality")
              (VStr "info") (VStr "Cash tips are NOT recorded in the data")
              (VStr "Exclude cash payments from tip analysis")].
Proof.
  split; [|done].
  by exists Scenario.rules_path, Scenario.blank_severity_text.
Qed.

(** C7. For every rule of a loaded rules document, a rule that declares
    no severity is loaded with severity ['info'], and a rule that
    declares a severity keeps it unchanged: every non-empty text is
    kept, so [critical], [warning] and [info] are.  (What is not a
    severity, the falsy values [''], [null], [false] and [0], is loaded
    as ['info'] too.) *)
Theorem getBusinessRules_severity (w : World) (parsed : value) (rules : list value) :
  holds w "business_rules.yml" (Return parsed) ->
  get_opt parsed "rules" = VArr rules ->
  (forall rule, rule ∈ rules -> rule <> VNull /\ rule <> VUndefined) ->
  exists infos,
    getBusinessRules w = mkOutcome (Some infos) [] /\
    length infos = length rules /\
    forall i rule info,
      rules !! i = Some rule -> infos !! i = Some info ->
      (declared_severity rule = VUndefined -> r_severity info = VStr "info") /\
      (truthy (declared_severity rule) = false -> r_severity info = VStr "info") /\
      (forall s, declared_severity rule = VStr s -> s <> "" -> r_severity info = VStr s).
Proof.
  intros H Hrules Hdef. eexists. split; [|split].
  - unfold getBusinessRules. enter_loader H. rewrite Hrules.
    cbn [truthy negb array_map].
    erewrite mapM_pure; [reflexivity|].
    intros rule Hin. apply rule_info_defined; by apply Hdef.
  - by rewrite length_fmap.
  - intros i rule info Hi Hinfo. rewrite list_lookup_fmap, Hi in Hinfo.
    injection Hinfo as <-. cbn [r_severity]. unfold or_else.
    repeat split.
    + by intros ->.
    + by intros ->.
    + intros s -> Hs. cbn [truthy].
      apply String.eqb_neq in Hs. by rewrite Hs.
Qed.

Lemma getBusinessRules_severity_witness :
  declared_severity <$> Scenario.declared_rules = [VStr "critical"; VUndefined] /\
  r_severity <$> default [] (ret (getBusinessRules Scenario.declared_rules_project))
    = [VStr "critical"; VStr "info"] /\
  exists infos,
    getBusinessRules Scenario.declared_rules_project = mkOutcome (Some infos) [] /\
    length infos = 2 /\
    forall i rule info,
      Scenario.declared_rules !! i = Some rule -> infos !! i = Some info ->
      (declared_severity rule = VUndefined -> r_severity info = VStr "info") /\
      (truthy (declared_severity rule) = false -> r_severity info = VStr "info") /\
      (forall s, declared_severity rule = VStr s -> s <> "" -> r_severity info = VStr s).
Proof.
  split; [reflexivity|]. split; [reflexivity|].
  apply (getBusinessRules_severity Scenario.declared_rules_project
           (VObj [("rules", VArr Scenario.declared_rules)]) Scenario.declared_rules).
  - by exists Scenario.rules_path, Scenario.declared_rules_text.
  - reflexivity.
  - intros rule Hin. apply list_elem_of_In in Hin.
    destruct Hin as [<- | [<- | []]]; done.
Defined.

End Loaders.

(** ** Loading a models document *)

Section RoundTrip.
Import JS UserRules ModelsDocument.

Lemma set_prop_fresh (k : string) (v : value) (base : list (string * value)) :
  k ∉ base.*1 -> set_prop k v base = base ++ [(k, v)].
Proof.
  induction base as [|[k' v'] base IH]; intros Hk; [done|].
  cbn [set_prop]. destruct (String.eqb k k') eqn:E.
  - apply String.eqb_eq in E as ->. set_solver.
  - cbn. rewrite IH; [done | set_solver].
Qed.

Lemma set_props_fresh (news base : list (string * value)) :
  NoDup (base ++ news).*1 -> set_props news base = base ++ news.
Proof.
  revert base. induction news as [|[k v] news IH]; intros base Hnd.
  - by rewrite app_nil_r.
  - unfold set_props in *. cbn [fold_left fst snd].
    assert (Hk : k ∉ base.*1).
    { rewrite fmap_app in Hnd. apply NoDup_app in Hnd as (_ & Hdisj & _).
      intros Hin. apply (Hdisj _ Hin). set_solver. }
    rewrite set_prop_fresh by done.
    rewrite IH; by rewrite <- app_assoc.
Qed.

Lemma fst_encoded {A B} (enc : A -> B) (l : list (string * A)) :
  (prod_map id enc <$> l).*1 = l.*1.
Proof. induction l as [|[k a] l IH]; [done|]. cbn. by rewrite IH. Qed.

(** *** Property order *)

Lemma indexed_entries_index {A} (entries : list (string * A)) (n : N) (e : string * A) :
  (n, e) ∈ indexed_entries entries -> array_index e.1 = Some n /\ e ∈ entries.
Proof.
  unfold indexed_entries. intros (x & Hx & Hf)%list_elem_of_omap.
  destruct (array_index x.1) as [m|] eqn:E; [|discriminate].
  cbn in Hf. injection Hf as <- <-. done.
Qed.

Lemma indexed_entries_split {A} (entries : list (string * A)) :
  (indexed_entries entries).*2 ++ filter (fun e => array_index e.1 = None) entries
    ≡ₚ entries.
Proof.
  induction entries as [|e l IH]; [done|].
  unfold indexed_entries in *.
  destruct (array_index e.1) as [n|] eqn:E; csimpl; rewrite E; csimpl.
  - rewrite filter_cons_False by congruence. by apply Permutation_skip.
  - rewrite filter_cons_True by done. rewrite <- Permutation_middle.
    by apply Permutation_skip.
Qed.

Lemma property_order_Permutation {A} (entries : list (string * A)) :
  property_order entries ≡ₚ entries.
Proof.
  unfold property_order. rewrite merge_sort_Permutation. apply indexed_entries_split.
Qed.

Lemma property_order_elem {A} (entries : list (string * A)) (e : string * A) :
  e ∈ property_order entries <-> e ∈ entries.
Proof. by rewrite property_order_Permutation. Qed.

Lemma property_order_NoDup {A} (entries : list (string * A)) :
  NoDup entries.*1 -> NoDup (property_order entries).*1.
Proof. by rewrite property_order_Permutation. Qed.

Lemma property_order_plain {A} (entries : list (string * A)) :
  (forall e, e ∈ entries -> array_index e.1 = None) -> property_order entries = entries.
Proof.
  intros Hplain. unfold property_order.
  assert (indexed_entries entries = []) as ->.
  { destruct (indexed_entries entries) as [|[n e] l] eqn:E; [done|].
    assert (Hin : (n, e) ∈ indexed_entries entries) by (rewrite E; left).
    apply indexed_entries_index in Hin as [Hn He].
    by rewrite (Hplain e He) in Hn. }
  cbn. induction entries as [|e l IH]; [done|].
  rewrite filter_cons_True by (apply Hplain; left).
  f_equal. apply IH. intros x Hx. apply Hplain. by right.
Qed.

Lemma property_order_indices {A} (entries : list (string * A)) :
  exists first indices,
    property_order entries = first ++ filter (fun e => array_index e.1 = None) entries /\
    (array_index ∘ fst) <$> first = Some <$> indices /\
    Sorted N.le indices.
Proof.
  exists (merge_sort by_index (indexed_entries entries)).*2,
         (merge_sort by_index (indexed_entries entries)).*1.
  split; [done|]. split.
  - rewrite <- !list_fmap_compose. apply Forall_fmap_ext, Forall_forall.
    intros [n e] Hin. rewrite merge_sort_Permutation in Hin.
    apply indexed_entries_index in Hin as [Hn _]. done.
  - apply (Sorted_fmap _ by_index); [done|].
    apply Sorted_merge_sort. intros a b. unfold by_index.
    destruct (N.le_ge_cases a.1 b.1); [by left | by right].
Qed.

(** *** Loading a parse of a document *)

Lemma parsed_mapping_keys {A} (parsed_entry : A -> value -> Prop)
    (entries : list (string * A)) (ps : list (string * value)) :
  parsed_mapping parsed_entry entries ps -> ps.*1 = (property_order entries).*1.
Proof.
  unfold parsed_mapping. induction 1 as [|e p l k [Hk _] _ IH]; [done|].
  cbn. by rewrite Hk, IH.
Qed.

Lemma mapping_member_keys {A} (parsed_entry : A -> value -> Prop)
    (props : list (string * value)) (k : string) (entries : list (string * A)) :
  mapping_member parsed_entry props k entries ->
  Object_keys (or_else (default VUndefined (assoc k props)) (VObj []))
    = Return (property_order entries).*1.
Proof.
  unfold mapping_member. destruct (assoc k props) as [[| | | | | |ps]|]; try done.
  - by intros ->.
  - intros H. cbn. by rewrite (parsed_mapping_keys _ _ _ H).
  - by intros ->.
Qed.

Lemma parsed_measures_types (entries : list (string * Measure))
    (ps : list (string * value)) :
  parsed_mapping parsed_measure entries ps ->
  mapM measure_type ps
    = Return (prod_map id (fun me => VStr (aggregation_name (m_type me)))
                <$> property_order entries).
Proof.
  unfold parsed_mapping.
  induction 1 as [|[n me] [k v] l ps [Hk (props & Hv & Ht & _)] _ IH]; [done|].
  cbn in Hk, Hv. subst k v. cbn [mapM]. rewrite IH.
  unfold measure_type. cbn [get snd fst]. rewrite Ht. reflexivity.
Qed.

Lemma measures_member_types (props : list (string * value))
    (entries : list (string * Measure)) :
  mapping_member parsed_measure props "measures" entries ->
  exists ps,
    Object_entries (or_else (default VUndefined (assoc "measures" props)) (VObj []))
      = Return ps /\
    mapM measure_type ps
      = Return (prod_map id (fun me => VStr (aggregation_name (m_type me)))
                  <$> property_order entries).
Proof.
  unfold mapping_member. destruct (assoc "measures" props) as [[| | | | | |ps]|]; try done.
  - intros ->. by exists [].
  - intros H. exists ps. split; [done | by apply parsed_measures_types].
  - intros ->. by exists [].
Qed.

Lemma model_info_parsed (n : string) (m : Model) (v : value) :
  NoDup (measures m).*1 -> parsed_model m v ->
  model_info (n, v) = Return (info_of (n, ordered_model m)).
Proof.
  intros Hnd (props & -> & Ht & _ & _ & Hd & _ & _ & Hdi & Hme & Hj).
  unfold model_info. cbn [fst snd get]. rewrite Ht, Hd.
  unfold mbind, completion_bind. cbn [bind default from_option id].
  rewrite (mapping_member_keys _ _ _ _ Hdi). cbn [bind].
  destruct (measures_member_types _ _ Hme) as (ps & -> & Hps). cbn [bind].
  rewrite Hps. cbn [bind].
  rewrite (mapping_member_keys _ _ _ _ Hj). cbn [bind].
  rewrite (set_props_fresh _ [])
    by (cbn [app]; rewrite fst_encoded; by apply property_order_NoDup).
  unfold info_of. cbn. by destruct (description m).
Qed.

Lemma models_parsed (d : document) (ms : list (string * value)) :
  (forall n m, (n, m) ∈ d -> NoDup (measures m).*1) ->
  parsed_mapping parsed_model d ms ->
  mapM model_info ms = Return (info_of <$> in_property_order d).
Proof.
  intros Hnd. unfold parsed_mapping, in_property_order.
  assert (Hnd' : forall n m, (n, m) ∈ property_order d -> NoDup (measures m).*1).
  { intros n m Hin. apply (Hnd n m). by apply property_order_elem. }
  clear Hnd. revert Hnd'. generalize (property_order d). intros l Hnd H.
  induction H as [|[n m] [k v] l ps [Hk Hp] _ IH]; [done|].
  cbn in Hk, Hp. subst k. cbn [mapM].
  rewrite (model_info_parsed n m v); [|apply (Hnd n m); left | done].
  cbn [bind]. rewrite IH by (intros n' m' Hin; apply (Hnd n' m'); by right).
  reflexivity.
Qed.

Lemma load_well_formed (w : World) (d : document) :
  well_formed d -> holds_document w d ->
  getSemanticModels w = mkOutcome (Some (info_of <$> in_property_order d)) [].
Proof.
  intros [_ Hwf] (v & (props & ms & -> & Hm & Hms) & H). unfold getSemanticModels.
  enter_loader H. cbn [get_opt]. rewrite Hm.
  cbn [default from_option id truthy negb Object_entries own_props bind].
  rewrite (models_parsed d ms); [done | | done].
  intros n m Hin. by destruct (Hwf n m Hin) as (_ & Hnd & _).
Qed.

(** *** The parse in the layout of the README *)

Lemma encoded_mapping {A} (parsed_entry : A -> value -> Prop) (enc : A -> value)
    (entries : list (string * A)) :
  (forall x, parsed_entry x (enc x)) ->
  parsed_mapping parsed_entry entries (prod_map id enc <$> property_order entries).
Proof.
  intros Henc. unfold parsed_mapping. apply Forall2_fmap_r, Forall_Forall2_diag.
  apply Forall_forall. intros [k x] _. split; [done | apply Henc].
Qed.

Lemma section_member {A} (parsed_entry : A -> value -> Prop) (enc : A -> value)
    (k : string) (props : list (string * value)) (entries : list (string * A)) :
  assoc k props = assoc k (section k enc entries) ->
  (forall x, parsed_entry x (enc x)) ->
  mapping_member parsed_entry props k entries.
Proof.
  intros Hk Henc. unfold mapping_member. rewrite Hk.
  destruct entries as [|e entries]; cbn [section assoc]; [done|].
  rewrite String.eqb_refl. by apply encoded_mapping.
Qed.

(** The entries of an encoded model. *)
Lemma encode_model_props (m : Model) (props : list (string * value)) :
  encode_model m = VObj props ->
  assoc "table" props = Some (VStr (table m)) /\
  text_member props "schema" (schema m) /\
  text_member props "database" (database m) /\
  text_member props "description" (description m) /\
  text_member props "primary_key" (primary_key m) /\
  text_member props "time_dimension" (time_dimension m) /\
  assoc "dimensions" props
    = assoc "dimensions" (section "dimensions" encode_dimension (dimensions m)) /\
  assoc "measures" props
    = assoc "measures" (section "measures" encode_measure (measures m)) /\
  assoc "joins" props = assoc "joins" (section "joins" encode_join (joins m)).
Proof.
  intros [= <-]. unfold text_member.
  destruct m as [t sc db de pk td ds ms js]; cbn [table schema database description
    primary_key time_dimension dimensions measures joins].
  destruct sc, db, de, pk, td, ds, ms, js; repeat split; reflexivity.
Qed.

Lemma encode_model_parsed (m : Model) : parsed_model m (encode_model m).
Proof.
  destruct (encode_model m) as [| | | | | |props] eqn:E; try discriminate.
  destruct (encode_model_props m props E) as (Ht & Hsc & Hdb & Hde & Hpk & Htd & Hdi & Hme & Hj).
  exists props. repeat split; try done.
  - apply (section_member _ encode_dimension); [done|].
    intros [c [de'|]]; eexists; repeat split.
  - apply (section_member _ encode_measure); [done|].
    intros [t [c|]]; eexists; repeat split.
  - apply (section_member _ encode_join); [done|].
    intros [t f r c]; eexists; repeat split.
Qed.

Lemma encode_parsed (d : document) : parsed_as d (encode d).
Proof.
  eexists _, _. split; [reflexivity|]. split; [reflexivity|].
  apply encoded_mapping, encode_model_parsed.
Qed.

(** *** What survives, and what does not *)

Lemma kind_of_name (a : aggregation) : kind_of (VStr (aggregation_name a)) = a.
Proof. by destruct a. Qed.

Lemma lossless_by_reserialize {F} (field : document -> F) :
  (forall d, field (reserialize (info_of <$> d)) = field d) ->
  lossless_for field.
Proof.
  intros Hfield. exists reserialize. intros w d infos Hwf Hd Hload.
  rewrite (load_well_formed w d Hwf Hd) in Hload. injection Hload as <-.
  apply Hfield.
Qed.

Lemma orders_document_well_formed : well_formed Scenario.orders_document.
Proof.
  split; [by apply (bool_decide_unpack _)|].
  intros n m Hin. apply list_elem_of_In in Hin.
  destruct Hin as [[= <- <-] | [[= <- <-] | []]];
    (repeat split; [by apply (bool_decide_unpack _) ..| |]);
    intros k x Hx; apply list_elem_of_In in Hx; cbn in Hx;
    try (destruct Hx as [[= <- <-] | []]; cbn; eauto; done);
    try (destruct Hx; done).
  destruct Hx as [[= <- <-] | []]. cbn. set_solver.
Qed.

Lemma orders_document'_well_formed : well_formed Scenario.orders_document'.
Proof.
  split; [by apply (bool_decide_unpack _)|].
  intros n m Hin. apply list_elem_of_In in Hin.
  destruct Hin as [[= <- <-] | [[= <- <-] | []]];
    (repeat split; [by apply (bool_decide_unpack _) ..| |]);
    intros k x Hx; apply list_elem_of_In in Hx; cbn in Hx;
    try (destruct Hx as [[= <- <-] | []]; cbn; eauto; done);
    try (destruct Hx; done).
  destruct Hx as [[= <- <-] | []]. cbn. set_solver.
Qed.

Lemma orders_projects_hold :
  holds_document Scenario.orders_project Scenario.orders_document /\
  holds_document Scenario.orders_project' Scenario.orders_document'.
Proof.
  split.
  - exists (encode Scenario.orders_document). split; [apply encode_parsed|].
    by exists Scenario.models_path, Scenario.orders_text.
  - exists (encode Scenario.orders_document'). split; [apply encode_parsed|].
    by exists Scenario.models_path, Scenario.orders_text'.
Qed.

(** No name of the two documents is integer-like: they are in property
    order as they stand. *)
Lemma orders_documents_ordered :
  in_property_order Scenario.orders_document = Scenario.orders_document /\
  in_property_order Scenario.orders_document' = Scenario.orders_document'.
Proof. split; reflexivity. Qed.

Lemma not_lossless {F} (field : document -> F) :
  field Scenario.orders_document <> field Scenario.orders_document' ->
  ~ lossless_for field.
Proof.
  intros Hne [reserialize Hre]. apply Hne.
  destruct orders_projects_hold as [H1 H2].
  destruct orders_documents_ordered as [O1 O2].
  pose proof (load_well_formed _ _ orders_document_well_formed H1) as L1.
  pose proof (load_well_formed _ _ orders_document'_well_formed H2) as L2.
  rewrite <- O1 at 1. rewrite <- O2 at 1.
  rewrite <- (Hre _ _ _ orders_document_well_formed H1 (f_equal ret L1)).
  rewrite <- (Hre _ _ _ orders_document'_well_formed H2 (f_equal ret L2)).
  reflexivity.
Qed.

(** C3 (as stated, refuted). Two well-formed documents that differ in
    the source column of a dimension, the source column of a measure and
    the target of a join load to the same models; so no
    re-serialization of the loaded models gives these fields back. *)
Lemma columns_and_targets_lost :
  well_formed Scenario.orders_document /\
  well_formed Scenario.orders_document' /\
  holds_document Scenario.orders_project Scenario.orders_document /\
  holds_document Scenario.orders_project' Scenario.orders_document' /\
  getSemanticModels Scenario.orders_project = getSemanticModels Scenario.orders_project' /\
  dimension_columns Scenario.orders_document
    <> dimension_columns Scenario.orders_document' /\
  measure_columns Scenario.orders_document <> measure_columns Scenario.orders_document' /\
  join_targets Scenario.orders_document <> join_targets Scenario.orders_document' /\
  ~ lossless_for dimension_columns /\
  ~ lossless_for measure_columns /\
  ~ lossless_for join_targets.
Proof.
  split; [apply orders_document_well_formed|].
  split; [apply orders_document'_well_formed|].
  split; [apply orders_projects_hold|].
  split; [apply orders_projects_hold|].
  split; [reflexivity|].
  split; [discriminate|]. split; [discriminate|]. split; [discriminate|].
  split; [|split]; by apply not_lossless.
Qed.

(** C3 (amended). Loading a well-formed models document, whatever layout
    its text has, keeps of every model its name, table and description,
    the names of its dimensions, the name and aggregation kind of each
    measure, and the aliases of its joins.  The models, and the
    dimensions, measures and joins of a model, come in the property
    order of the parsed document: the integer-like names first, in
    ascending numeric order, then the other names in document order; so
    they come in document order when no name is integer-like.
    Re-serializing the loaded models gives these names and kinds back;
    the source columns and the join targets are not part of the loaded
    models. *)
Theorem load_keeps_names_and_kinds :
  (forall w d, well_formed d -> holds_document w d ->
     getSemanticModels w = mkOutcome (Some (info_of <$> in_property_order d)) []) /\
  (forall d, parsed_as d (encode d)) /\
  (forall A (entries : list (string * A)),
     property_order entries ≡ₚ entries /\
     ((forall e, e ∈ entries -> array_index e.1 = None) ->
      property_order entries = entries) /\
     exists first indices,
       property_order entries
         = first ++ filter (fun e => array_index e.1 = None) entries /\
       (array_index ∘ fst) <$> first = Some <$> indices /\
       Sorted N.le indices) /\
  lossless_for model_names /\
  lossless_for dimension_names /\
  lossless_for measure_names /\
  lossless_for measure_kinds /\
  lossless_for join_aliases.
Proof.
  split; [apply load_well_formed|].
  split; [apply encode_parsed|].
  split.
  { intros A entries. split; [apply property_order_Permutation|].
    split; [apply property_order_plain | apply property_order_indices]. }
  repeat split; apply lossless_by_reserialize; intros d;
    unfold reserialize, model_names, dimension_names, measure_names, measure_kinds,
      join_aliases;
    rewrite <- ?list_fmap_compose; apply list_fmap_ext; intros _ [n m] _;
    cbn; rewrite <- ?list_fmap_compose; try done;
    try (apply list_fmap_ext; intros _ [k x] _; unfold compose; cbn [prod_map snd fst id m_type]; by rewrite ?kind_of_name).
Qed.

(** Checks that a given value is a parse of a given document. *)
Ltac parsed_value :=
  repeat
    match goal with
    | |- _ /\ _ => split
    | |- True => exact I
    | |- _ = _ => reflexivity
    | |- text_member _ _ _ => reflexivity
    | |- parsed_model _ _ => eexists
    | |- parsed_dimension _ _ => eexists
    | |- parsed_measure _ _ => eexists
    | |- parsed_join _ _ => eexists
    | |- mapping_member _ ?props ?k _ =>
        unfold mapping_member;
        let a := eval vm_compute in (assoc k props) in
        change (assoc k props) with a; cbv beta iota
    | |- parsed_mapping _ ?entries _ =>
        unfold parsed_mapping;
        let l := eval vm_compute in (property_order entries) in
        change (property_order entries) with l
    | |- Forall2 _ [] [] => apply Forall2_nil
    | |- Forall2 _ (_ :: _) (_ :: _) => apply Forall2_cons; cbn [fst snd]
    end.

Lemma load_keeps_names_and_kinds_witness :
  well_formed Scenario.yearly_document /\
  holds_document Scenario.yearly_project Scenario.yearly_document /\
  model_names Scenario.yearly_document = ["orders"; "2023"] /\
  model_names (in_property_order Scenario.yearly_document) = ["2023"; "orders"] /\
  getSemanticModels Scenario.yearly_project
    = mkOutcome (Some (info_of <$> in_property_order Scenario.yearly_document)) [].
Proof.
  assert (Hwf : well_formed Scenario.yearly_document).
  { split; [by apply (bool_decide_unpack _)|].
    intros n m Hin. apply list_elem_of_In in Hin.
    destruct Hin as [[= <- <-] | [[= <- <-] | []]];
      (repeat split; [by apply (bool_decide_unpack _) ..| |]);
      intros k x Hx; apply list_elem_of_In in Hx; cbn in Hx;
      try (destruct Hx as [[= <- <-] | []]; cbn; eauto; done);
      try (destruct Hx; done).
    destruct Hx as [[= <- <-] | []]. cbn. set_solver. }
  assert (Hd : holds_document Scenario.yearly_project Scenario.yearly_document).
  { exists Scenario.yearly_parsed. split.
    - eexists _, _. split; [reflexivity|]. split; [reflexivity|].
      parsed_value.
    - by exists Scenario.models_path, Scenario.yearly_text. }
  split; [exact Hwf|]. split; [exact Hd|].
  split; [reflexivity|]. split; [reflexivity|].
  exact (proj1 load_keeps_names_and_kinds Scenario.yearly_project Scenario.yearly_document
           Hwf Hd).
Defined.

End RoundTrip.

(** ** The rule matcher *)

Section Matching.
Import Matcher.

Lemma intersects_spec (applies_to concepts : list string) :
  intersects applies_to concepts = true <->
  exists c, c ∈ applies_to /\ c ∈ concepts.
Proof.
  unfold intersects. rewrite existsb_exists. split.
  - intros (c & Hin & Hc). exists c. split; [by apply list_elem_of_In|].
    by apply bool_decide_eq_true in Hc.
  - intros (c & Hin & Hc). exists c. split; [by apply list_elem_of_In|].
    by apply bool_decide_eq_true.
Qed.

(** A concept that is only a substring of a concept of a rule does not
    match it. *)
Example substring_is_no_match :
  (match_rules Scenario.rule_set (mkRuleQuery None ["tip"])).1 = [] /\
  (match_rules Scenario.rule_set (mkRuleQuery None ["tip_amount"])).1
    = [Scenario.cash_tips_not_recorded].
Proof. split; reflexivity. Qed.

(** C4 (as stated, refuted). The query asks for category [metrics] and
    concept [tip_amount]; the cash-tips rule applies to [tip_amount],
    yet it is not returned. *)
Lemma category_narrows_concepts :
  let q := mkRuleQuery (Some "metrics") ["tip_amount"] in
  q_concepts q <> [] /\
  Scenario.cash_tips_not_recorded ∈ Scenario.rule_set /\
  (exists c, c ∈ applies_to Scenario.cash_tips_not_recorded /\ c ∈ q_concepts q) /\
  (match_rules Scenario.rule_set q).1 = [].
Proof.
  repeat split; [done | set_solver |].
  exists "tip_amount". set_solver.
Qed.

(** C4 (amended). For every rule set and every query with a non-empty
    concepts list and no category, [match_rules] returns exactly the
    rules whose [applies_to] shares a concept, equal as a string, with
    the requested concepts; when a category is given as well, exactly
    those among the rules of that category.  The [categories] of the
    result are the distinct categories of the whole rule set, whatever
    the query. *)
Theorem match_rules_concepts (rules : list Rule) (q : RuleQuery) :
  q_concepts q <> [] ->
  (q_category q = None ->
     forall r, r ∈ (match_rules rules q).1 <->
               r ∈ rules /\ exists c, c ∈ applies_to r /\ c ∈ q_concepts q) /\
  (forall cat, q_category q = Some cat ->
     forall r, r ∈ (match_rules rules q).1 <->
               r ∈ rules /\ category r = cat /\
               exists c, c ∈ applies_to r /\ c ∈ q_concepts q) /\
  sublist (match_rules rules q).1 rules /\
  NoDup (match_rules rules q).2 /\
  (forall c, c ∈ (match_rules rules q).2 <-> exists r, r ∈ rules /\ category r = c) /\
  (forall q', (match_rules rules q').2 = (match_rules rules q).2).
Proof.
  intros Hc. unfold match_rules. cbn [fst snd].
  destruct (q_concepts q) as [|c0 cs] eqn:Ecs; [done|]. rewrite <- Ecs. clear Hc.
  split; [|split; [|split; [|split; [|split]]]].
  - intros Hcat r. rewrite Hcat.
    rewrite list_elem_of_filter, Is_true_true, intersects_spec. naive_solver.
  - intros cat Hcat r. rewrite Hcat.
    rewrite !list_elem_of_filter, Is_true_true, intersects_spec. naive_solver.
  - destruct (q_category q).
    + etrans; apply sublist_filter.
    + apply sublist_filter.
  - apply NoDup_remove_dups.
  - intros c. rewrite elem_of_remove_dups, list_elem_of_fmap. naive_solver.
  - reflexivity.
Qed.

Lemma match_rules_concepts_witness :
  let q := mkRuleQuery None ["tip_amount"] in
  q_concepts q <> [] /\
  (match_rules Scenario.rule_set q).1 = [Scenario.cash_tips_not_recorded] /\
  (match_rules Scenario.rule_set q).2 = ["data_quality"; "metrics"] /\
  forall r, r ∈ (match_rules Scenario.rule_set q).1 <->
            r ∈ Scenario.rule_set /\ exists c, c ∈ applies_to r /\ c ∈ q_concepts q.
Proof.
  intros q. split; [done|]. split; [reflexivity|]. split; [reflexivity|].
  exact (proj1 (match_rules_concepts Scenario.rule_set q ltac:(done)) eq_refl).
Defined.

End Matching.

(** ** The query compiler *)

Section FanOut.
Import ModelsDocument Compiler.

Lemma each_elem {A B} (f : A -> compiled B) (l : list A) (ys : list B) (x : A) :
  each f l = Plan_ok ys -> x ∈ l -> exists y, y ∈ ys /\ f x = Plan_ok y.
Proof.
  revert ys. induction l as [|a l IH]; intros ys Hl Hx; [by apply elem_of_nil in Hx|].
  cbn [each] in Hl. unfold mbind, compiled_bind in Hl.
  destruct (f a) as [y|] eqn:Ea; [|discriminate].
  destruct (each f l) as [ys'|] eqn:El; [|discriminate].
  injection Hl as <-. apply elem_of_cons in Hx as [->|Hx].
  - exists y. split; [left | done].
  - destruct (IH ys' eq_refl Hx) as (y' & Hy' & Hf). exists y'. split; [by right | done].
Qed.

Lemma each_results {A B} (f : A -> compiled B) (l : list A) (ys : list B) (y : B) :
  each f l = Plan_ok ys -> y ∈ ys -> exists x, x ∈ l /\ f x = Plan_ok y.
Proof.
  revert ys. induction l as [|a l IH]; intros ys Hl Hy.
  - injection Hl as <-. by apply elem_of_nil in Hy.
  - cbn [each] in Hl. unfold mbind, compiled_bind in Hl.
    destruct (f a) as [y'|] eqn:Ea; [|discriminate].
    destruct (each f l) as [ys'|] eqn:El; [|discriminate].
    injection Hl as <-. apply elem_of_cons in Hy as [->|Hy].
    + exists a. split; [left | done].
    + destruct (IH ys' eq_refl Hy) as (x & Hx & Hf). exists x. split; [by right | done].
Qed.

(** *** The join graph resolver *)

Lemma walk_cons (reg : Registry) (cur : string) (m : Model) (visited prefix : list string)
    (alias : string) (rest : list string)
    (w : list (list string * Join * Model) * (string * Model)) :
  walk reg cur m visited prefix (alias :: rest) = Plan_ok w ->
  exists j target r,
    find_entry alias (joins m) = Some j /\
    find_entry (to_model j) reg = Some target /\
    walk reg (to_model j) target (to_model j :: visited) (prefix ++ [alias]) rest
      = Plan_ok r /\
    w = ((prefix ++ [alias], j, target) :: r.1, r.2).
Proof.
  cbn [walk]. destruct (find_entry alias (joins m)) as [j|]; [|discriminate].
  case_bool_decide; [discriminate|]. unfold mbind, compiled_bind, get_model.
  destruct (find_entry (to_model j) reg) as [target|] eqn:Et; [|discriminate].
  destruct (walk reg (to_model j) target _ _ rest) as [r|] eqn:E; [|discriminate].
  intros [= <-]. by exists j, target, r.
Qed.

Lemma follow_snoc (reg : Registry) (m parent target : Model) (pre : list string)
    (alias : string) (j : Join) :
  follow reg m pre = Some parent ->
  find_entry alias (joins parent) = Some j ->
  find_entry (to_model j) reg = Some target ->
  follow reg m (pre ++ [alias]) = Some target.
Proof.
  revert m. induction pre as [|a pre IH]; intros m Hpre Hj Ht.
  - injection Hpre as ->. cbn. by rewrite Hj, Ht.
  - cbn [follow app] in *. destruct (find_entry a (joins m)) as [j'|]; [|discriminate].
    destruct (find_entry (to_model j') reg) as [t'|]; [|discriminate]. by apply IH.
Qed.

(** The walk ends in the model the chain leads to. *)
Lemma walk_follow (reg : Registry) (chain : list string) :
  forall cur m visited prefix w,
    walk reg cur m visited prefix chain = Plan_ok w -> follow reg m chain = Some w.2.2.
Proof.
  induction chain as [|alias rest IH]; intros cur m visited prefix w Hw.
  - by injection Hw as <-.
  - apply walk_cons in Hw as (j & target & r & Hj & Ht & Hr & ->).
    cbn [follow snd]. rewrite Hj, Ht. by apply (IH _ _ _ _ _ Hr).
Qed.

(** The walk lists the join of every alias of the chain. *)
Lemma walk_reaches (reg : Registry) (chain : list string) :
  forall cur m visited prefix w pre alias post,
    walk reg cur m visited prefix chain = Plan_ok w ->
    chain = pre ++ alias :: post ->
    exists parent j target,
      follow reg m pre = Some parent /\
      find_entry alias (joins parent) = Some j /\
      find_entry (to_model j) reg = Some target /\
      (prefix ++ pre ++ [alias], j, target) ∈ w.1.
Proof.
  induction chain as [|a rest IH]; intros cur m visited prefix w pre alias post Hw Hsplit.
  - by destruct pre.
  - apply walk_cons in Hw as (j & target & r & Hj & Ht & Hr & ->).
    destruct pre as [|a' pre]; cbn [app] in Hsplit; injection Hsplit as <- Hrest.
    + exists m, j, target. repeat split; [done | done |]. cbn. left.
    + destruct (IH _ _ _ _ _ pre alias post Hr Hrest)
        as (parent & j' & target' & Hp & Hj' & Ht' & Hin).
      exists parent, j', target'. cbn [follow]. rewrite Hj, Ht.
      repeat split; [done | done | done |].
      cbn [fst]. right. by rewrite <- app_assoc in Hin.
Qed.

(** Every join the walk lists is declared, and the path goes one alias
    at a time. *)
Lemma walk_declared (reg : Registry) (root : Model) (chain : list string) :
  forall cur m visited prefix w,
    follow reg root prefix = Some m ->
    walk reg cur m visited prefix chain = Plan_ok w ->
    Forall (declared reg root) w.1 /\ extends prefix w.1.
Proof.
  induction chain as [|a rest IH]; intros cur m visited prefix w Hm Hw.
  - injection Hw as <-. by split.
  - apply walk_cons in Hw as (j & target & r & Hj & Ht & Hr & ->).
    destruct (IH _ _ _ _ _ (follow_snoc _ _ _ _ _ _ _ Hm Hj Ht) Hr) as [Hdecl Hext].
    split.
    + cbn [fst]. constructor; [|done]. by exists prefix, a, m.
    + cbn [fst extends]. by exists a.
Qed.

(** A declared join is determined by its alias chain. *)
Lemma declared_inj (reg : Registry) (root : Model) (e e' : list string * Join * Model) :
  declared reg root e -> declared reg root e' -> e.1.1 = e'.1.1 -> e = e'.
Proof.
  intros (pre & a & p & Hc & Hp & Hj & Ht) (pre' & a' & p' & Hc' & Hp' & Hj' & Ht') Heq.
  rewrite Hc, Hc' in Heq. apply app_inj_tail in Heq as [-> ->].
  rewrite Hp in Hp'. injection Hp' as <-. rewrite Hj in Hj'. injection Hj' as Hj'.
  destruct e as [[c j] t], e' as [[c' j'] t']. cbn in *. subst.
  rewrite Ht in Ht'. by injection Ht' as <-.
Qed.

(** *** The joins a plan needs *)

Lemma dependency_order_snoc (chains : list (list string)) (c : list string) :
  dependency_order chains -> c ∉ chains -> c <> [] ->
  removelast c = [] \/ removelast c ∈ chains ->
  dependency_order (chains ++ [c]).
Proof.
  intros [Hnd Hord] Hc Hne Hparent. split.
  - apply NoDup_app. split; [done|]. split; [|apply NoDup_singleton].
    intros x Hx Hx'. apply list_elem_of_singleton in Hx' as ->. done.
  - intros i chain Hi. destruct (decide (i < length chains)) as [Hlt|Hge].
    + rewrite lookup_app_l in Hi by done.
      destruct (Hord i chain Hi) as [Hn [Hroot | (j & Hj & Hlook)]].
      * split; [done | by left].
      * split; [done|]. right. exists j. split; [done|].
        by apply lookup_app_l_Some.
    + rewrite lookup_app_r in Hi by lia.
      destruct (i - length chains) as [|n] eqn:En; [|by destruct n].
      injection Hi as <-. split; [done|].
      destruct Hparent as [Hroot | Hin]; [by left|]. right.
      apply list_elem_of_lookup in Hin as [j Hj]. exists j. split.
      * apply lookup_lt_Some in Hj. lia.
      * by apply lookup_app_l_Some.
Qed.

Lemma add_joins_spec (path : list (list string * Join * Model)) :
  forall acc prefix,
    extends prefix path ->
    prefix = [] \/ prefix ∈ (fun x => x.1.1) <$> acc ->
    dependency_order ((fun x => x.1.1) <$> acc) ->
    dependency_order ((fun x => x.1.1) <$> add_joins path acc) /\
    (forall e, e ∈ acc -> e ∈ add_joins path acc) /\
    (forall e, e ∈ path -> e.1.1 ∈ (fun x => x.1.1) <$> add_joins path acc) /\
    (forall e, e ∈ add_joins path acc -> e ∈ acc \/ e ∈ path).
Proof.
  induction path as [|e rest IH]; intros acc prefix Hext Hprefix Hord.
  - cbn [add_joins]. split; [done|]. split; [done|]. split; [|by left].
    intros e He. by apply elem_of_nil in He.
  - cbn [add_joins]. destruct Hext as (alias & Hchain & Hext).
    set (acc' := if bool_decide (e.1.1 ∈ (fun x => x.1.1) <$> acc) then acc
                 else acc ++ [e]).
    assert (Hin : e.1.1 ∈ (fun x => x.1.1) <$> acc').
    { unfold acc'. case_bool_decide; [done|]. rewrite fmap_app. set_solver. }
    assert (Hsub : forall x, x ∈ acc -> x ∈ acc').
    { unfold acc'. case_bool_decide; [done|]. set_solver. }
    assert (Hfrom : forall x, x ∈ acc' -> x ∈ acc \/ x = e).
    { unfold acc'. case_bool_decide; [by left|]. set_solver. }
    assert (Hord' : dependency_order ((fun x => x.1.1) <$> acc')).
    { unfold acc'. case_bool_decide; [done|]. rewrite fmap_app.
      apply dependency_order_snoc; [done | done | |].
      - rewrite Hchain. by destruct prefix.
      - rewrite Hchain, removelast_last. done. }
    rewrite <- Hchain in Hext.
    destruct (IH acc' e.1.1 Hext (or_intror Hin) Hord') as (H1 & H2 & H3 & H4).
    split; [done|]. split; [by auto|]. split.
    + intros x Hx. apply elem_of_cons in Hx as [-> | Hx]; [|by apply H3].
      apply list_elem_of_fmap in Hin as (y & Hy & Hin).
      apply list_elem_of_fmap. exists y. split; [done | by apply H2].
    + intros x Hx. destruct (H4 x Hx) as [Hx' | Hx']; [|right; by right].
      destruct (Hfrom x Hx') as [? | ->]; [by left | right; left].
Qed.

Lemma required_joins_spec (paths : list (list (list string * Join * Model))) :
  Forall (extends []) paths ->
  dependency_order ((fun x => x.1.1) <$> required_joins paths) /\
  (forall path e, path ∈ paths -> e ∈ path ->
     e.1.1 ∈ (fun x => x.1.1) <$> required_joins paths) /\
  (forall e, e ∈ required_joins paths -> exists path, path ∈ paths /\ e ∈ path).
Proof.
  unfold required_joins.
  assert (Hgen : forall acc,
            Forall (extends []) paths ->
            dependency_order ((fun x => x.1.1) <$> acc) ->
            let result := fold_left (fun acc path => add_joins path acc) paths acc in
            dependency_order ((fun x => x.1.1) <$> result) /\
            (forall e, e ∈ acc -> e ∈ result) /\
            (forall path e, path ∈ paths -> e ∈ path ->
               e.1.1 ∈ (fun x => x.1.1) <$> result) /\
            (forall e, e ∈ result -> e ∈ acc \/ exists path, path ∈ paths /\ e ∈ path)).
  { induction paths as [|path paths IH]; intros acc Hext Hord; cbn [fold_left].
    - split; [done|]. split; [done|]. split; [|by left].
      intros path e Hp. by apply elem_of_nil in Hp.
    - apply Forall_cons in Hext as [Hpath Hext].
      destruct (add_joins_spec path acc [] Hpath (or_introl eq_refl) Hord)
        as (A1 & A2 & A3 & A4).
      destruct (IH (add_joins path acc) Hext A1) as (B1 & B2 & B3 & B4).
      split; [done|]. split; [by auto|]. split.
      + intros p e Hp He. apply elem_of_cons in Hp as [-> | Hp]; [|by apply (B3 p)].
        destruct (proj1 (list_elem_of_fmap _ _ _) (A3 e He)) as (y & Hy & Hin).
        apply list_elem_of_fmap. exists y. split; [done | by apply B2].
      + intros e He. destruct (B4 e He) as [He' | (p & Hp & He')].
        * destruct (A4 e He') as [? | ?]; [by left|]. right. exists path. split; [left | done].
        * right. exists p. split; [by right | done]. }
  intros Hext. destruct (Hgen [] Hext) as (H1 & _ & H3 & H4).
  { split; [constructor | intros i chain Hi; done]. }
  split; [done|]. split; [done|].
  intros e He. destruct (H4 e He) as [Hnil | ?]; [by apply elem_of_nil in Hnil | done].
Qed.

(** *** What a successful compilation computed *)

Lemma resolve_measure_chain (reg : Registry) (root : string) (m : Model) (name : string)
    (r : Resolved Measure) :
  resolve_measure reg root m name = Plan_ok r ->
  r_chain r = ref_chain (parse_reference name).
Proof.
  unfold resolve_measure, mbind, compiled_bind.
  destruct (walk _ _ _ _ _ _) as [w|]; [|discriminate].
  destruct (find_entry _ _) as [me|]; [|discriminate].
  destruct (m_type me), (m_column me); intros [= <-]; reflexivity.
Qed.

Lemma resolve_measure_ok (reg : Registry) (root : string) (m : Model) (name : string)
    (r : Resolved Measure) :
  resolve_measure reg root m name = Plan_ok r ->
  r_name r = name /\
  r_chain r = ref_chain (parse_reference name) /\
  exists w,
    walk reg root m [root] [] (ref_chain (parse_reference name)) = Plan_ok w /\
    r_path r = w.1 /\
    find_entry (ref_field (parse_reference name)) (ModelsDocument.measures w.2.2) = Some (r_field r).
Proof.
  unfold resolve_measure, mbind, compiled_bind.
  destruct (walk _ _ _ _ _ _) as [w|]; [|discriminate].
  destruct (find_entry _ _) as [me|] eqn:E; [|discriminate].
  destruct (m_type me), (m_column me); intros H; try discriminate;
    injection H as <-; cbn; (split; [done|]; split; [done|]; by exists w).
Qed.

Lemma resolve_dimension_ok (reg : Registry) (root : string) (m : Model) (name : string)
    (r : Resolved Dimension) :
  resolve_dimension reg root m name = Plan_ok r ->
  exists w,
    walk reg root m [root] [] (ref_chain (parse_reference name)) = Plan_ok w /\
    r_path r = w.1.
Proof.
  unfold resolve_dimension, mbind, compiled_bind.
  destruct (walk _ _ _ _ _ _) as [w|]; [|discriminate].
  destruct (find_entry _ _) as [d|]; [|discriminate].
  intros [= <-]. by exists w.
Qed.

Lemma compile_ok (reg : Registry) (req : CompileRequest) (plan : Plan) :
  compile reg req = Plan_ok plan ->
  exists root ms ds,
    each (resolve_measure reg (model_name req) root) (measures req) = Plan_ok ms /\
    each (resolve_dimension reg (model_name req) root) (dimensions req) = Plan_ok ds /\
    p_source plan = (model_name req, root) /\
    p_joins plan
      = make_node (existsb is_fact ms) ms
          <$> required_joins ((r_path <$> ms) ++ (r_path <$> ds)).
Proof.
  unfold compile, mbind, compiled_bind.
  destruct (get_model _ _) as [root|]; [|discriminate].
  destruct (each (resolve_measure _ _ _) _) as [ms|] eqn:Ems; [|discriminate].
  destruct (each (resolve_dimension _ _ _) _) as [ds|] eqn:Eds; [|discriminate].
  destruct (each check_filter _) as [fs|]; [|discriminate].
  destruct (each (check_order_by _) _) as [os|]; [|discriminate].
  intros [= <-]. cbn [p_source p_joins p_group_by].
  by exists root, ms, ds.
Qed.

Lemma compile_fact_measure (reg : Registry) (req : CompileRequest) (root : Model)
    (ms : list (Resolved Measure)) :
  each (resolve_measure reg (model_name req) root) (measures req) = Plan_ok ms ->
  has_fact_measure req ->
  existsb is_fact ms = true.
Proof.
  intros Hms (name & Hin & Hchain).
  destruct (each_elem _ _ _ _ Hms Hin) as (r & Hr & Hres).
  apply existsb_exists. exists r. split; [by apply list_elem_of_In|].
  unfold is_fact. apply bool_decide_eq_true.
  by rewrite (resolve_measure_chain _ _ _ _ _ Hres).
Qed.

(** The join paths of the references of a request: each goes from the
    root one alias at a time, through declared joins. *)
Lemma compile_paths (reg : Registry) (req : CompileRequest) (root : Model)
    (ms : list (Resolved Measure)) (ds : list (Resolved Dimension)) :
  each (resolve_measure reg (model_name req) root) (measures req) = Plan_ok ms ->
  each (resolve_dimension reg (model_name req) root) (dimensions req) = Plan_ok ds ->
  forall path, path ∈ (r_path <$> ms) ++ (r_path <$> ds) ->
    Forall (declared reg root) path /\ extends [] path.
Proof.
  intros Hms Hds path Hpath. apply elem_of_app in Hpath as [Hpath | Hpath];
    apply list_elem_of_fmap in Hpath as (r & -> & Hr).
  - destruct (each_results _ _ _ _ Hms Hr) as (name & _ & Hres).
    destruct (resolve_measure_ok _ _ _ _ _ Hres) as (_ & _ & w & Hw & -> & _).
    by apply (walk_declared reg root _ _ root _ [] _ eq_refl Hw).
  - destruct (each_results _ _ _ _ Hds Hr) as (name & _ & Hres).
    destruct (resolve_dimension_ok _ _ _ _ _ Hres) as (w & Hw & ->).
    by apply (walk_declared reg root _ _ root _ [] _ eq_refl Hw).
Qed.

(** The walk of a reference of a request, and its path among the paths
    of the plan. *)
Lemma compile_walks (reg : Registry) (req : CompileRequest) (root : Model)
    (ms : list (Resolved Measure)) (ds : list (Resolved Dimension)) (name : string) :
  each (resolve_measure reg (model_name req) root) (measures req) = Plan_ok ms ->
  each (resolve_dimension reg (model_name req) root) (dimensions req) = Plan_ok ds ->
  name ∈ measures req ++ dimensions req ->
  exists w,
    walk reg (model_name req) root [model_name req] [] (ref_chain (parse_reference name))
      = Plan_ok w /\
    w.1 ∈ (r_path <$> ms) ++ (r_path <$> ds).
Proof.
  intros Hms Hds Hname. apply elem_of_app in Hname as [Hname | Hname].
  - destruct (each_elem _ _ _ _ Hms Hname) as (r & Hr & Hres).
    destruct (resolve_measure_ok _ _ _ _ _ Hres) as (_ & _ & w & Hw & Hpath & _).
    exists w. split; [done|]. apply elem_of_app. left.
    apply list_elem_of_fmap. by exists r.
  - destruct (each_elem _ _ _ _ Hds Hname) as (r & Hr & Hres).
    destruct (resolve_dimension_ok _ _ _ _ _ Hres) as (w & Hw & Hpath).
    exists w. split; [done|]. apply elem_of_app. right.
    apply list_elem_of_fmap. by exists r.
Qed.

(** The nodes of a compiled plan, for a request with a fact measure: a
    node is pre-aggregated exactly when its join is [one_to_many]. *)
Lemma plan_pre_aggregated (reg : Registry) (req : CompileRequest) (plan : Plan)
    (node : JoinNode) :
  compile reg req = Plan_ok plan ->
  has_fact_measure req ->
  node ∈ p_joins plan ->
  n_pre_aggregated node = bool_decide (j_type (n_join node) = one_to_many).
Proof.
  intros Hc Hfact Hnode.
  destruct (compile_ok _ _ _ Hc) as (root & ms & ds & Hms & _ & _ & Hjoins).
  rewrite (compile_fact_measure _ _ _ _ Hms Hfact) in Hjoins.
  rewrite Hjoins in Hnode.
  apply list_elem_of_fmap in Hnode as (e & -> & _).
  cbn [make_node n_pre_aggregated n_join]. apply andb_true_r.
Qed.

(** Every join a reference of the request goes through is a node of the
    plan, and the node of the chain of a measure computes that measure. *)
Lemma plan_has_joins (reg : Registry) (req : CompileRequest) (plan : Plan)
    (name : string) (pre : list string) (alias : string) (post : list string) :
  compile reg req = Plan_ok plan ->
  has_fact_measure req ->
  name ∈ measures req ++ dimensions req ->
  ref_chain (parse_reference name) = pre ++ alias :: post ->
  exists parent j node,
    follow reg (p_source plan).2 pre = Some parent /\
    find_entry alias (joins parent) = Some j /\
    node ∈ p_joins plan /\
    n_chain node = pre ++ [alias] /\
    n_join node = j /\
    find_entry (to_model j) reg = Some (n_target node) /\
    n_pre_aggregated node = bool_decide (j_type j = one_to_many) /\
    (post = [] -> name ∈ measures req ->
     exists me,
       find_entry (ref_field (parse_reference name)) (ModelsDocument.measures (n_target node)) = Some me /\
       (name, me) ∈ n_measures node).
Proof.
  intros Hc Hfact Hname Hchain.
  destruct (compile_ok _ _ _ Hc) as (root & ms & ds & Hms & Hds & Hsrc & Hjoins).
  rewrite Hsrc. cbn [snd].
  destruct (compile_walks _ _ _ _ _ _ Hms Hds Hname) as (w & Hw & Hpath).
  destruct (walk_reaches _ _ _ _ _ _ _ _ _ _ Hw Hchain)
    as (parent & j & target & Hparent & Hj & Ht & Hin).
  cbn [app] in Hin.
  pose proof (compile_paths _ _ _ _ _ Hms Hds) as Hpaths.
  destruct (required_joins_spec ((r_path <$> ms) ++ (r_path <$> ds)))
    as (_ & Hall & Hfrom).
  { apply Forall_forall. intros p Hp. by apply Hpaths. }
  pose proof (Hall _ _ Hpath Hin) as Hc'. cbn [fst] in Hc'.
  apply list_elem_of_fmap in Hc' as (e & He & Hreq).
  destruct (Hfrom e Hreq) as (p & Hp & Hep).
  assert (e = (pre ++ [alias], j, target)) as ->.
  { apply (declared_inj reg root); [| |by symmetry].
    - destruct (Hpaths p Hp) as [Hdecl _].
      by apply (proj1 (Forall_forall _ _) Hdecl).
    - destruct (Hpaths _ Hpath) as [Hdecl _].
      by apply (proj1 (Forall_forall _ _) Hdecl). }
  exists parent, j, (make_node (existsb is_fact ms) ms (pre ++ [alias], j, target)).
  split; [done|]. split; [done|].
  split. { rewrite Hjoins. apply list_elem_of_fmap. eexists. split; [reflexivity | done]. }
  split; [done|]. split; [done|]. split; [done|].
  split.
  { cbn [make_node n_pre_aggregated fst snd].
    rewrite (compile_fact_measure _ _ _ _ Hms Hfact). apply andb_true_r. }
  intros -> Hmeasure.
  destruct (each_elem _ _ _ _ Hms Hmeasure) as (r & Hr & Hres).
  destruct (resolve_measure_ok _ _ _ _ _ Hres) as (Hn & Hrc & w' & Hw' & _ & Hfield).
  rewrite Hw in Hw'. injection Hw' as <-.
  exists (r_field r). cbn [make_node n_target n_measures fst snd]. split.
  - pose proof (walk_follow _ _ _ _ _ _ _ Hw) as Hreach.
    rewrite Hchain, (follow_snoc _ _ _ _ _ _ _ Hparent Hj Ht) in Hreach.
    injection Hreach as ->. done.
  - apply list_elem_of_fmap. exists r. split; [by rewrite Hn|].
    apply list_elem_of_filter. split; [by rewrite Hrc, Hchain | done].
Qed.

(** The joins of a compiled plan are in dependency order. *)
Lemma plan_dependency_order (reg : Registry) (req : CompileRequest) (plan : Plan) :
  compile reg req = Plan_ok plan -> dependency_order (n_chain <$> p_joins plan).
Proof.
  intros Hc.
  destruct (compile_ok _ _ _ Hc) as (root & ms & ds & Hms & Hds & _ & ->).
  rewrite <- list_fmap_compose.
  destruct (required_joins_spec ((r_path <$> ms) ++ (r_path <$> ds))) as (Hord & _).
  { apply Forall_forall. intros p Hp. by apply (compile_paths _ _ _ _ _ Hms Hds). }
  exact Hord.
Qed.

(** *** Rows *)

Lemma filter_none {A} (P : A -> Prop) `{!forall x, Decision (P x)} (l : list A) :
  (forall y, y ∈ l -> ~ P y) -> filter P l = [].
Proof.
  induction l as [|x l IH]; intros Hl; [done|].
  rewrite filter_cons_False by (apply Hl; by left).
  apply IH. intros y Hy. apply Hl. by right.
Qed.

Lemma filter_fmap {A B} (f : A -> B) (P : B -> Prop) `{!forall x, Decision (P x)}
    (l : list A) :
  filter P (f <$> l) = f <$> filter (P ∘ f) l.
Proof.
  induction l as [|x l IH]; [done|].
  rewrite fmap_cons, !filter_cons. unfold compose at 1.
  destruct (decide (P (f x))); by rewrite IH.
Qed.

Lemma filter_at_most_one {A} (P : A -> Prop) `{!forall x, Decision (P x)} (l : list A) :
  NoDup l -> (forall a b, a ∈ l -> b ∈ l -> P a -> P b -> a = b) ->
  length (filter P l) <= 1.
Proof.
  induction 1 as [|x l Hx Hnd IH]; intros Huniq; [cbn; lia|].
  rewrite filter_cons. destruct (decide (P x)) as [Hp|Hp].
  - assert (Hnone : filter P l = []).
    { apply filter_none. intros y Hy Hpy. apply Hx.
      rewrite (Huniq x y); [done | by left | by right | done | done]. }
    rewrite Hnone. cbn. lia.
  - apply IH. intros a b Ha Hb. apply Huniq; by right.
Qed.

(** The one element of a duplicate-free list that [P] singles out. *)
Lemma filter_the_one `{!EqDecision A} (P : A -> Prop) `{!forall x, Decision (P x)}
    (l : list A) (k : A) :
  NoDup l -> (forall x, P x <-> x = k) ->
  filter P l = if bool_decide (k ∈ l) then [k] else [].
Proof.
  intros Hnd HP. induction Hnd as [|x l Hx Hnd IH].
  - by rewrite bool_decide_eq_false_2 by apply not_elem_of_nil.
  - rewrite filter_cons. destruct (decide (P x)) as [Hp|Hp].
    + apply HP in Hp as ->. rewrite bool_decide_eq_true_2 by left.
      rewrite IH, bool_decide_eq_false_2; done.
    + rewrite IH. assert (x <> k) by (intros ->; by apply Hp, HP).
      destruct (decide (k ∈ l)).
      * rewrite !bool_decide_eq_true_2; [done | by right | done].
      * rewrite !bool_decide_eq_false_2; [done | | done].
        intros [? | ?]%elem_of_cons; done.
Qed.

Lemma same_key_eq (a b : cell) : same_key a b = true -> a = b.
Proof. destruct a; cbn; [done | |]; by intros ?%bool_decide_eq_true. Qed.

Lemma same_key_iff (a b : cell) : a <> CNull -> same_key a b <-> b = a.
Proof.
  intros Ha. destruct a; [done | |]; cbn; rewrite bool_decide_spec; split; congruence.
Qed.

Lemma column_head (key : string) (c : cell) (rest : Row) : column ((key, c) :: rest) key = c.
Proof. unfold column. cbn [find_entry]. by rewrite String.eqb_refl. Qed.

(** Pre-aggregation leaves exactly one row for every key of the table. *)
Lemma pre_aggregate_rows (key : string) (ms : list (string * Measure)) (rows : list Row) :
  one_row_per_key_of key ms rows (pre_aggregate key ms rows).
Proof.
  intros k. unfold pre_aggregate. rewrite filter_fmap.
  destruct (decide (k = CNull)) as [-> | Hk].
  - rewrite bool_decide_eq_false_2 by (by intros [? _]).
    rewrite filter_none; [done|]. intros x _. unfold compose. cbn [same_key]. by intros [].
  - rewrite (filter_the_one _ _ k); [|apply NoDup_remove_dups|].
    + destruct (decide (k ∈ (fun r => column r key) <$> rows)) as [Hin | Hin].
      * rewrite !bool_decide_eq_true_2; [done | done |]. by apply elem_of_remove_dups.
      * rewrite !bool_decide_eq_false_2; [done | by intros [_ ?] |].
        by rewrite elem_of_remove_dups.
    + intros x. unfold compose, key_row. rewrite column_head. by apply same_key_iff.
Qed.

Lemma one_row_per_key_of_one (key : string) (ms : list (string * Measure))
    (rows side : list Row) :
  one_row_per_key_of key ms rows side -> one_row_per_key side key.
Proof. intros H k. rewrite (H k). case_bool_decide; cbn; lia. Qed.

(** Pre-aggregation leaves one row per key. *)
Lemma pre_aggregate_one_row_per_key (key : string) (ms : list (string * Measure))
    (rows : list Row) :
  one_row_per_key (pre_aggregate key ms rows) key.
Proof. eapply one_row_per_key_of_one, pre_aggregate_rows. Qed.

(** A table whose keys are pairwise distinct has one row per key. *)
Lemma distinct_keys_one_row (rows : list Row) (key : string) :
  NoDup ((fun r => column r key) <$> rows) -> one_row_per_key rows key.
Proof.
  intros Hnd k. induction rows as [|r rows IH]; [cbn; lia|].
  rewrite fmap_cons in Hnd. apply NoDup_cons in Hnd as [Hr Hnd].
  rewrite filter_cons. destruct (decide (same_key k (column r key))) as [Hk|Hk]; [|by apply IH].
  rewrite filter_none; [cbn; lia|].
  intros r' Hr' Hk'. apply Hr.
  apply Is_true_true, same_key_eq in Hk. apply Is_true_true, same_key_eq in Hk'.
  rewrite <- Hk, Hk'. apply list_elem_of_fmap. by exists r'.
Qed.

(** Joining a side with one row per key neither drops nor repeats a row. *)
Lemma join_step_fact (db : Database) (node : JoinNode) (rows : list Joined) :
  one_row_per_key (side_rows db node) (related_key (n_join node)) ->
  fact <$> join_step db node rows = fact <$> rows.
Proof.
  intros Hone. unfold join_step. induction rows as [|jr rows IH]; [done|].
  rewrite bind_cons, fmap_app, IH, fmap_cons. f_equal.
  pose proof (Hone (parent_key jr node)) as Hlen.
  destruct (filter _ (side_rows db node)) as [|r [|r' rest]];
    [done | done | cbn in Hlen; lia].
Qed.

Lemma joined_rows_fact (db : Database) (nodes : list JoinNode) (rows : list Joined) :
  (forall node, node ∈ nodes ->
     one_row_per_key (side_rows db node) (related_key (n_join node))) ->
  fact <$> fold_left (fun rows node => join_step db node rows) nodes rows = fact <$> rows.
Proof.
  revert rows. induction nodes as [|node nodes IH]; intros rows Hone; [done|].
  cbn [fold_left]. rewrite IH by (intros n Hn; apply Hone; by right).
  apply join_step_fact, Hone. by left.
Qed.

(** *** The rows joined on the sides *)

Lemma find_side_app_l (chain : list string) (l l' : list (list string * option Row)) :
  chain ∈ l.*1 -> find_side chain (l ++ l') = find_side chain l.
Proof.
  induction l as [|[c r] l IH]; intros Hin; [by apply elem_of_nil in Hin|].
  cbn [find_side app]. case_bool_decide; [done|].
  apply IH. cbn in Hin. apply elem_of_cons in Hin as [-> | Hin]; done.
Qed.

Lemma find_side_app_r (chain : list string) (l : list (list string * option Row))
    (o : option Row) :
  chain ∉ l.*1 -> find_side chain (l ++ [(chain, o)]) = o.
Proof.
  induction l as [|[c r] l IH]; intros Hin; cbn [find_side app].
  - by rewrite bool_decide_eq_true_2.
  - cbn in Hin. rewrite bool_decide_eq_false_2 by set_solver. apply IH. set_solver.
Qed.

Lemma side_extended (f : Row) (l l' : list (list string * option Row)) (c : list string) :
  c = [] \/ c ∈ l.*1 -> side (mkJoined f (l ++ l')) c = side (mkJoined f l) c.
Proof.
  intros [-> | Hin]; [done|]. destruct c; [done|]. cbn [side sides].
  by apply find_side_app_l.
Qed.

(** A row of a join step: a row joined so far, with what it matches on
    the side of the join. *)
Lemma join_step_elem (db : Database) (node : JoinNode) (rows : list Joined)
    (jr' : Joined) :
  jr' ∈ join_step db node rows ->
  exists jr o,
    jr ∈ rows /\
    jr' = mkJoined (fact jr) (sides jr ++ [(n_chain node, o)]) /\
    match o with
    | Some r =>
        r ∈ side_rows db node /\
        same_key (parent_key jr node) (column r (related_key (n_join node))) = true
    | None =>
        forall r, r ∈ side_rows db node ->
          same_key (parent_key jr node) (column r (related_key (n_join node))) = false
    end.
Proof.
  unfold join_step. intros Hin. apply list_elem_of_bind in Hin as (jr & Hjr' & Hjr).
  exists jr.
  destruct (filter _ (side_rows db node)) as [|r0 matches] eqn:E.
  - apply list_elem_of_singleton in Hjr' as ->. exists None. split; [done|]. split; [done|].
    intros r Hr. destruct (same_key _ _) eqn:Ek; [|done].
    assert (Hin : r ∈ filter (fun r => same_key (parent_key jr node)
                                (column r (related_key (n_join node))))
                         (side_rows db node)).
    { apply list_elem_of_filter. split; [by rewrite Ek | done]. }
    rewrite E in Hin. by apply elem_of_nil in Hin.
  - apply list_elem_of_fmap in Hjr' as (r & -> & Hr). exists (Some r).
    split; [done|]. split; [done|].
    rewrite <- E in Hr. apply list_elem_of_filter in Hr as [Hk Hr].
    split; [done | by apply Is_true_true].
Qed.

Lemma dependency_order_at (before after : list JoinNode) (node : JoinNode) :
  dependency_order (n_chain <$> (before ++ node :: after)) ->
  n_chain node <> [] /\
  (n_chain node ∉ n_chain <$> before) /\
  (removelast (n_chain node) = [] \/ removelast (n_chain node) ∈ n_chain <$> before).
Proof.
  rewrite fmap_app, fmap_cons. intros [Hnd Hord].
  destruct (Hord (length (n_chain <$> before)) (n_chain node)) as [Hne Hparent].
  { by apply list_lookup_middle. }
  split; [done|]. split.
  - apply NoDup_app in Hnd as (_ & Hdisj & _). intros Hin.
    apply (Hdisj _ Hin). left.
  - destruct Hparent as [? | (j & Hj & Hlook)]; [by left|]. right.
    rewrite lookup_app_l in Hlook by done. by eapply list_elem_of_lookup_2.
Qed.

(** What a join step keeps and adds. *)
Lemma join_step_matched (db : Database) (joined : list JoinNode) (node : JoinNode)
    (rows : list Joined) :
  n_chain node <> [] ->
  n_chain node ∉ n_chain <$> joined ->
  removelast (n_chain node) = [] \/ removelast (n_chain node) ∈ n_chain <$> joined ->
  (forall n, n ∈ joined ->
     removelast (n_chain n) = [] \/ removelast (n_chain n) ∈ n_chain <$> joined) ->
  (forall jr, jr ∈ rows ->
     (sides jr).*1 = n_chain <$> joined /\ forall n, n ∈ joined -> matched db n jr) ->
  forall jr, jr ∈ join_step db node rows ->
    (sides jr).*1 = n_chain <$> (joined ++ [node]) /\
    forall n, n ∈ joined ++ [node] -> matched db n jr.
Proof.
  intros Hne Hnew Hparent Hclosed Hinv jr' Hjr'.
  apply join_step_elem in Hjr' as (jr & o & Hjr & -> & Ho).
  destruct (Hinv jr Hjr) as [Hsides Hmatched]. destruct jr as [f l].
  cbn [fact sides] in *. split.
  - by rewrite !fmap_app, Hsides.
  - intros n Hn. apply elem_of_app in Hn as [Hn | ->%list_elem_of_singleton].
    + pose proof (Hmatched n Hn) as Hm. unfold matched, parent_key in *.
      rewrite !side_extended; [done | |].
      * rewrite Hsides. by apply Hclosed.
      * right. rewrite Hsides. apply list_elem_of_fmap. by exists n.
    + unfold matched, parent_key in *.
      rewrite (side_extended f l _ (removelast (n_chain node))) by (by rewrite Hsides).
      assert (side (mkJoined f (l ++ [(n_chain node, o)])) (n_chain node) = o) as ->.
      { destruct (n_chain node) as [|a c] eqn:Ec; [done|]. cbn [side sides].
        apply find_side_app_r. by rewrite Hsides. }
      done.
Qed.

Lemma joined_rows_matched_from (db : Database) (rest : list JoinNode) :
  forall joined rows,
    dependency_order (n_chain <$> (joined ++ rest)) ->
    (forall jr, jr ∈ rows ->
       (sides jr).*1 = n_chain <$> joined /\ forall n, n ∈ joined -> matched db n jr) ->
    forall jr, jr ∈ fold_left (fun rows node => join_step db node rows) rest rows ->
      forall n, n ∈ joined ++ rest -> matched db n jr.
Proof.
  induction rest as [|node rest IH]; intros joined rows Hord Hinv jr Hjr n Hn.
  - rewrite app_nil_r in Hn. by apply (Hinv jr Hjr).
  - cbn [fold_left] in Hjr.
    destruct (dependency_order_at _ _ _ Hord) as (Hne & Hnew & Hparent).
    assert (Hclosed : forall n, n ∈ joined ->
              removelast (n_chain n) = [] \/ removelast (n_chain n) ∈ n_chain <$> joined).
    { intros n' Hn'. apply list_elem_of_split in Hn' as (b & a & ->).
      rewrite <- app_assoc in Hord. cbn [app] in Hord.
      destruct (dependency_order_at _ _ _ Hord) as (_ & _ & [? | Hin]); [by left|].
      right. rewrite fmap_app. apply elem_of_app. by left. }
    rewrite (cons_middle node joined rest), app_assoc in Hord, Hn.
    apply (IH (joined ++ [node]) (join_step db node rows) Hord); [|done|done].
    by apply join_step_matched.
Qed.

(** Every row of the plan has, on the side of every join, the row of
    that side its parent row matches. *)
Lemma joined_rows_matched (db : Database) (plan : Plan) (jr : Joined) (node : JoinNode) :
  dependency_order (n_chain <$> p_joins plan) ->
  jr ∈ joined_rows db plan -> node ∈ p_joins plan -> matched db node jr.
Proof.
  intros Hord Hjr Hnode. unfold joined_rows in Hjr.
  eapply (joined_rows_matched_from db (p_joins plan) []); [exact Hord | | exact Hjr | exact Hnode].
  intros jr0 (r & -> & _)%list_elem_of_fmap. split; [done|].
  intros n Hn. by apply elem_of_nil in Hn.
Qed.

(** *** The scenario of the specification *)

Example shop_plan :
  exists plan,
    compile Scenario.shop Scenario.amount_and_quantity = Plan_ok plan /\
    (n_pre_aggregated <$> p_joins plan) = [true] /\
    length (joined_rows Scenario.shop_tables plan) = 10 /\
    fact_aggregate Scenario.shop_tables plan (fun _ => true) agg_sum (Some "amount")
      = CInt 1000 /\
    fact_aggregate Scenario.shop_tables (Scenario.joined_directly plan) (fun _ => true)
      agg_sum (Some "amount") = CInt 1200.
Proof. eexists. split; [reflexivity|]. vm_compute. done. Qed.

(** C1. For every request with a measure of the fact (root) model that
    the compiler accepts:
    - every join a measure or dimension of the request goes through is
      a node of the plan, under its alias chain, with the join and the
      target the registry declares; the node is pre-aggregated exactly
      when the join is [one_to_many], and the node a measure ends in
      computes that measure;
    - the nodes are in dependency order;
    - the side of a [one_to_many] node is pre-aggregated to exactly one
      row for every key of the "many" table, the row of the aggregates
      over the rows of that key;
    - every row of the plan has, on the side of every node, the row of
      that side its parent row matches, if there is one;
    - so, in tables that keep the "one" side of the other joins to one
      row per key (the cardinality these joins declare), the rows of the
      plan are the rows of the fact model, each once, and an aggregate
      of the fact model has the value it has with no join at all,
      whichever rows of the fact model are kept and whichever dimensions
      are selected (so, in particular, when no "many"-side dimension
      is);
    - and in any tables at all when every join of the plan is
      [one_to_many]. *)
Theorem fan_out_safe (reg : Registry) (req : CompileRequest) (plan : Plan) (db : Database) :
  compile reg req = Plan_ok plan ->
  has_fact_measure req ->
  let fact_rows := db (table (p_source plan).2) in
  (forall name pre alias post,
     name ∈ measures req ++ dimensions req ->
     ref_chain (parse_reference name) = pre ++ alias :: post ->
     exists parent j node,
       follow reg (p_source plan).2 pre = Some parent /\
       find_entry alias (joins parent) = Some j /\
       node ∈ p_joins plan /\
       n_chain node = pre ++ [alias] /\
       n_join node = j /\
       find_entry (to_model j) reg = Some (n_target node) /\
       n_pre_aggregated node = bool_decide (j_type j = one_to_many) /\
       (post = [] -> name ∈ measures req ->
        exists me,
          find_entry (ref_field (parse_reference name))
            (ModelsDocument.measures (n_target node)) = Some me /\
          (name, me) ∈ n_measures node)) /\
  dependency_order (n_chain <$> p_joins plan) /\
  (forall node,
     node ∈ p_joins plan -> j_type (n_join node) = one_to_many ->
     n_pre_aggregated node = true /\
     one_row_per_key_of (related_key (n_join node)) (n_measures node)
       (db (table (n_target node))) (side_rows db node) /\
     one_row_per_key (side_rows db node) (related_key (n_join node))) /\
  (forall jr node,
     jr ∈ joined_rows db plan -> node ∈ p_joins plan -> matched db node jr) /\
  (to_one_respected db plan ->
   fact <$> joined_rows db plan = fact_rows /\
   forall keep kind col,
     fact_aggregate db plan keep kind col
       = aggregate kind col (filter (fun r => keep r) fact_rows)) /\
  ((forall node, node ∈ p_joins plan -> j_type (n_join node) = one_to_many) ->
   fact <$> joined_rows db plan = fact_rows /\
   forall keep kind col,
     fact_aggregate db plan keep kind col
       = aggregate kind col (filter (fun r => keep r) fact_rows)).
Proof.
  intros Hc Hfact fact_rows.
  assert (Hmany : forall node,
            node ∈ p_joins plan -> j_type (n_join node) = one_to_many ->
            n_pre_aggregated node = true /\
            one_row_per_key_of (related_key (n_join node)) (n_measures node)
              (db (table (n_target node))) (side_rows db node) /\
            one_row_per_key (side_rows db node) (related_key (n_join node))).
  { intros node Hnode Hty.
    pose proof (plan_pre_aggregated _ _ _ _ Hc Hfact Hnode) as Hpre.
    rewrite bool_decide_eq_true_2 in Hpre by done. split; [done|].
    unfold side_rows. rewrite Hpre.
    split; [apply pre_aggregate_rows | apply pre_aggregate_one_row_per_key]. }
  pose proof (plan_dependency_order _ _ _ Hc) as Hord.
  split. { intros name pre alias post. by apply plan_has_joins. }
  split; [done|]. split; [done|].
  split. { intros jr node. by apply joined_rows_matched. }
  assert (Hsafe : to_one_respected db plan ->
            fact <$> joined_rows db plan = fact_rows /\
            forall keep kind col,
              fact_aggregate db plan keep kind col
                = aggregate kind col (filter (fun r => keep r) fact_rows));
    [|split; [exact Hsafe|]; intros Hall; apply Hsafe;
      intros node Hnode Hne; by destruct (Hne (Hall node Hnode))].
  intros Hdata.
  assert (Hrows : fact <$> joined_rows db plan = fact_rows).
  { unfold joined_rows. rewrite joined_rows_fact.
    - rewrite <- list_fmap_compose. by rewrite list_fmap_id.
    - intros node Hnode.
      destruct (decide (j_type (n_join node) = one_to_many)) as [Hty|Hty].
      + by apply Hmany.
      + unfold side_rows.
        rewrite (plan_pre_aggregated _ _ _ _ Hc Hfact Hnode).
        rewrite bool_decide_eq_false_2 by done. by apply Hdata. }
  split; [done|].
  intros keep kind col. unfold fact_aggregate. f_equal.
  rewrite <- Hrows. by rewrite filter_fmap.
Qed.

Lemma fan_out_safe_witness :
  exists plan,
    compile Scenario.shop Scenario.by_customer = Plan_ok plan /\
    has_fact_measure Scenario.by_customer /\
    to_one_respected Scenario.shop_tables plan /\
    (fun n => (n_chain n, j_type (n_join n), n_pre_aggregated n)) <$> p_joins plan
      = [(["items"], one_to_many, true); (["customer"], many_to_one, false)] /\
    fact_aggregate Scenario.shop_tables plan (fun _ => true) agg_sum (Some "amount")
      = aggregate agg_sum (Some "amount")
          (filter (fun r => true) (Scenario.shop_tables "orders")) /\
    aggregate agg_sum (Some "amount")
      (filter (fun r => true) (Scenario.shop_tables "orders")) = CInt 1000.
Proof.
  eexists. split; [reflexivity|].
  assert (Hfact : has_fact_measure Scenario.by_customer).
  { exists "total_amount". split; [left | reflexivity]. }
  match goal with
  | |- _ /\ to_one_respected _ ?p /\ _ =>
      assert (Hdata : to_one_respected Scenario.shop_tables p)
  end.
  { intros node Hn Hne. apply list_elem_of_In in Hn.
    destruct Hn as [<- | [<- | []]]; [done|].
    apply distinct_keys_one_row. by apply (bool_decide_unpack _). }
  split; [exact Hfact|]. split; [exact Hdata|]. split; [reflexivity|].
  split; [|reflexivity].
  exact (proj2 (proj1 (proj2 (proj2 (proj2 (proj2
           (fan_out_safe Scenario.shop Scenario.by_customer _
              Scenario.shop_tables eq_refl Hfact))))) Hdata)
           (fun _ => true) agg_sum (Some "amount")).
Defined.

End FanOut.

(* ===================================================================== *)
(** * Further properties of the code                                      *)
(* ===================================================================== *)

(** ** The readers of the project folder *)

Section Readers.
Import JS UserRules ProjectFiles.

Lemma substring_all (s : string) : String.substring 0 (String.length s) s = s.
Proof. induction s as [|c s IH]; [done|]. cbn. by rewrite IH. Qed.

Lemma append_cons (c : ascii) (p t : string) : String c p +:+ t = String c (p +:+ t).
Proof. reflexivity. Qed.

Lemma append_empty (t : string) : "" +:+ t = t.
Proof. reflexivity. Qed.

Lemma slice_append (p t : string) : slice (String.length p) (p +:+ t) = t.
Proof.
  unfold slice. induction p as [|c p IH].
  - rewrite append_empty. simpl. rewrite Nat.sub_0_r. apply substring_all.
  - rewrite append_cons. simpl. exact IH.
Qed.

Lemma startsWith_split (p s : string) :
  startsWith p s = true -> s = p +:+ slice (String.length p) s.
Proof.
  unfold startsWith, slice. revert s. induction p as [|c p IH]; intros s H.
  - rewrite append_empty. simpl. rewrite Nat.sub_0_r. by rewrite substring_all.
  - destruct s as [|c' s]; [discriminate|]. cbn [String.prefix] in H.
    destruct (Ascii.ascii_dec c c') as [->|]; [|discriminate].
    rewrite append_cons. simpl. f_equal. by apply IH.
Qed.

Lemma startsWith_append (p t : string) : startsWith p (p +:+ t) = true.
Proof.
  unfold startsWith. induction p as [|c p IH]; [by destruct t|].
  rewrite append_cons. simpl. by destruct (Ascii.ascii_dec c c).
Qed.

(** A folder entry is taken exactly when it is a directory named by the
    prefix followed by a non-empty name. *)
Lemma taken_spec (prefix : string) (e : Dirent) (t : string) :
  (isDirectory e && startsWith prefix (d_name e) = true /\
   slice (String.length prefix) (d_name e) = t /\ t <> "") <->
  (isDirectory e = true /\ d_name e = prefix +:+ t /\ t <> "").
Proof.
  rewrite andb_true_iff. split.
  - intros ([Hd Hp] & <- & Hne). repeat split; [done| |done].
    by apply startsWith_split.
  - intros (Hd & Hn & Hne). rewrite Hn. repeat split; [done| | |done].
    + apply startsWith_append.
    + apply slice_append.
Qed.

Lemma databases_of_spec (type : string) (dbEntries : list Dirent) (c : Connection) :
  c ∈ databases_of type dbEntries <->
  c_type c = type /\
  exists d, d ∈ dbEntries /\ isDirectory d = true /\
            d_name d = "database=" +:+ c_database c /\ c_database c <> "".
Proof.
  induction dbEntries as [|d rest IH]; cbn [databases_of].
  - split; [by intros ?%elem_of_nil | by intros (_ & d & ?%elem_of_nil & _)].
  - rewrite elem_of_app, IH. clear IH. split.
    + intros [Hin | (Ht & d' & Hd' & Hrest)].
      * destruct (isDirectory d && startsWith "database=" (d_name d)) eqn:Etake;
          [|by apply elem_of_nil in Hin].
        destruct (String.eqb _ "") eqn:Eempty; [by apply elem_of_nil in Hin|].
        apply list_elem_of_singleton in Hin as ->. cbn [c_type c_database].
        split; [done|]. exists d. split; [left|].
        apply (taken_spec "database="). repeat split; [done|].
        by apply String.eqb_neq.
      * split; [done|]. exists d'. split; [by right | done].
    + intros (Ht & d' & Hd' & Hdir & Hname & Hne).
      apply elem_of_cons in Hd' as [->|Hd'].
      * left.
        destruct (proj2 (taken_spec "database=" d (c_database c))) as (-> & Hs & _);
          [done|].
        rewrite Hs. apply String.eqb_neq in Hne. rewrite Hne. cbn [negb].
        apply list_elem_of_singleton. destruct c; cbn in *; by subst.
      * right. split; [done|]. by exists d'.
Qed.

Lemma connections_of_spec (w : World) (readdirSync : string -> completion (list Dirent))
    (databasesPath : string) (entries : list Dirent) (cs : list Connection) (c : Connection) :
  connections_of w readdirSync databasesPath entries = Return cs ->
  c ∈ cs <->
  exists e dbEntries d,
    e ∈ entries /\ isDirectory e = true /\ d_name e = "type=" +:+ c_type c /\
    c_type c <> "" /\
    readdirSync (join w [databasesPath; d_name e]) = Return dbEntries /\
    d ∈ dbEntries /\ isDirectory d = true /\
    d_name d = "database=" +:+ c_database c /\ c_database c <> "".
Proof.
  revert cs. induction entries as [|e rest IH]; intros cs Hcs.
  - injection Hcs as <-. split; [by intros ?%elem_of_nil|].
    by intros (e & _ & _ & ?%elem_of_nil & _).
  - cbn [connections_of] in Hcs. unfold mbind, completion_bind in Hcs.
    destruct (isDirectory e && startsWith "type=" (d_name e)) eqn:Etake;
      [destruct (String.eqb (slice (String.length "type=") (d_name e)) "") eqn:Eempty|];
      cbn [negb bind] in Hcs.
    + destruct (connections_of _ _ _ rest) as [others|] eqn:Eo; [|discriminate].
      injection Hcs as <-. cbn [app]. rewrite (IH others eq_refl). split.
      * intros (e' & dbs & d & He' & Hrest). exists e', dbs, d. split; [by right | done].
      * intros (e' & dbs & d & He' & Hdir & Hname & Hne & Hrest).
        apply elem_of_cons in He' as [->|He']; [|by exists e', dbs, d].
        exfalso.
        destruct (proj2 (taken_spec "type=" e (c_type c))) as (_ & Hs & _); [done|].
        rewrite Hs in Eempty. by apply String.eqb_eq in Eempty.
    + destruct (readdirSync _) as [dbEntries|] eqn:Er; [|discriminate].
      cbn [bind] in Hcs.
      destruct (connections_of _ _ _ rest) as [others|] eqn:Eo; [|discriminate].
      injection Hcs as <-. rewrite elem_of_app, (IH others eq_refl), databases_of_spec.
      split.
      * intros [(Ht & d & Hd & Hdd & Hdn & Hdne) | (e' & dbs & d & He' & Hrest)].
        -- exists e, dbEntries, d. split; [left|].
           destruct (proj1 (taken_spec "type=" e (c_type c))) as (? & ? & ?);
             [|done].
           split; [done|]. split; [done|]. apply String.eqb_neq in Eempty.
           by rewrite Ht.
        -- exists e', dbs, d. split; [by right | done].
      * intros (e' & dbs & d & He' & Hdir & Hname & Hne & Hread & Hd & Hrest).
        apply elem_of_cons in He' as [->|He'].
        -- left. rewrite Er in Hread. injection Hread as <-.
           destruct (proj2 (taken_spec "type=" e (c_type c))) as (_ & Hs & _); [done|].
           split; [done|]. by exists d.
        -- right. by exists e', dbs, d.
    + destruct (connections_of _ _ _ rest) as [others|] eqn:Eo; [|discriminate].
      injection Hcs as <-. cbn [app]. rewrite (IH others eq_refl). split.
      * intros (e' & dbs & d & He' & Hrest). exists e', dbs, d. split; [by right | done].
      * intros (e' & dbs & d & He' & Hdir & Hname & Hne & Hrest).
        apply elem_of_cons in He' as [->|He']; [|by exists e', dbs, d].
        exfalso.
        destruct (proj2 (taken_spec "type=" e (c_type c))) as (Ht & _); [done|].
        by rewrite Ht in Etake.
Qed.

(** X1. When [getConnections] returns connections, the list is not
    empty, and a connection is in it exactly when the [databases]
    folder has a directory [type=T] holding a directory [database=D],
    [T] and [D] being its non-empty type and database. *)
Theorem getConnections_listed (w : World)
    (readdirSync : string -> completion (list Dirent)) (cs : list Connection) :
  ret (getConnections w readdirSync) = Some cs ->
  cs <> [] /\
  exists projectFolder entries,
    NAO_DEFAULT_PROJECT_PATH w = Some projectFolder /\
    readdirSync (join w [projectFolder; "databases"]) = Return entries /\
    forall c,
      c ∈ cs <->
      exists e dbEntries d,
        e ∈ entries /\ isDirectory e = true /\ d_name e = "type=" +:+ c_type c /\
        c_type c <> "" /\
        readdirSync (join w [join w [projectFolder; "databases"]; d_name e])
          = Return dbEntries /\
        d ∈ dbEntries /\ isDirectory d = true /\
        d_name d = "database=" +:+ c_database c /\ c_database c <> "".
Proof.
  unfold getConnections.
  destruct (NAO_DEFAULT_PROJECT_PATH w) as [p|]; [|discriminate].
  destruct (String.eqb p ""); [discriminate|]. cbn zeta.
  destruct (negb _); [discriminate|].
  unfold mbind, completion_bind.
  destruct (readdirSync (join w [p; "databases"])) as [entries|] eqn:Er; [|discriminate].
  cbn [bind].
  destruct (connections_of _ _ _ entries) as [found|] eqn:Ec; [|discriminate].
  cbn [bind try_catch]. destruct found as [|c0 found]; [discriminate|].
  cbn [ret]. intros [= <-]. split; [done|].
  exists p, entries. split; [done|]. split; [done|].
  intros c. by apply connections_of_spec.
Qed.

End Readers.

Section ReadersMore.
Import JS UserRules ProjectFiles.

Lemma getConnections_listed_witness :
  ret (getConnections ReaderCases.taxi_project ReaderCases.listing)
    = Some [mkConnection "postgres" "nytaxi"] /\
  [mkConnection "postgres" "nytaxi"] <> [].
Proof.
  split; [reflexivity|].
  exact (proj1 (getConnections_listed ReaderCases.taxi_project ReaderCases.listing
                  [mkConnection "postgres" "nytaxi"] eq_refl)).
Defined.

(** X2. [getUserRules] returns a text exactly when a project folder is
    configured, [RULES.md] exists in it and can be read, and the text is
    then the content of the file, unchanged; the console is written to
    exactly when the file exists and reading it throws. *)
Theorem getUserRules_content (w : World) :
  (forall content,
     ret (getUserRules w) = Some content <->
     exists p, NAO_DEFAULT_PROJECT_PATH w = Some p /\ p <> "" /\
               existsSync w (join w [p; "RULES.md"]) = true /\
               readFileSync w (join w [p; "RULES.md"]) = Return content) /\
  (forall e,
     console (getUserRules w) = [("Error reading RULES.md:", e)] <->
     exists p, NAO_DEFAULT_PROJECT_PATH w = Some p /\ p <> "" /\
               existsSync w (join w [p; "RULES.md"]) = true /\
               readFileSync w (join w [p; "RULES.md"]) = Throw e) /\
  (console (getUserRules w) = [] \/
   exists e, console (getUserRules w) = [("Error reading RULES.md:", e)]).
Proof.
  assert (Hside : forall (p : string) (r : completion string) (P : Prop),
            ((exists p0, Some p = Some p0 /\ p0 <> "" /\
                existsSync w (join w [p0; "RULES.md"]) = true /\
                readFileSync w (join w [p0; "RULES.md"]) = r) -> P) <->
            (p <> "" -> existsSync w (join w [p; "RULES.md"]) = true ->
             readFileSync w (join w [p; "RULES.md"]) = r -> P)).
  { intros p r P. split.
    - intros HP ? ? ?. apply HP. by exists p.
    - intros HP (p0 & [= <-] & ? & ? & ?). by apply HP. }
  unfold getUserRules.
  destruct (NAO_DEFAULT_PROJECT_PATH w) as [p|].
  2:{ cbn [ret console]. split; [|split; [|by left]].
      - intros c. split; [discriminate | by intros (p0 & [=] & _)].
      - intros e. split; [discriminate | by intros (p0 & [=] & _)]. }
  destruct (String.eqb p "") eqn:Ep.
  { apply String.eqb_eq in Ep. cbn [ret console]. split; [|split; [|by left]].
    - intros c. split; [discriminate | by apply Hside].
    - intros e. split; [discriminate | by apply Hside]. }
  apply String.eqb_neq in Ep. cbn zeta.
  destruct (existsSync w (join w [p; "RULES.md"])) eqn:Ex; cbn [negb].
  2:{ cbn [ret console]. split; [|split; [|by left]].
      - intros c. split; [discriminate | apply Hside; congruence].
      - intros e. split; [discriminate | apply Hside; congruence]. }
  unfold mbind, completion_bind.
  destruct (readFileSync w (join w [p; "RULES.md"])) as [text|err] eqn:Er;
    cbn [bind try_catch ret console].
  - split; [|split; [|by left]].
    + intros c. split; [intros [= <-]; by exists p | apply Hside; congruence].
    + intros e. split; [discriminate | apply Hside; congruence].
  - split; [|split; [|right; by exists err]].
    + intros c. split; [discriminate | apply Hside; congruence].
    + intros e. split; [intros [= <-]; by exists p | apply Hside; congruence].
Qed.

Lemma getUserRules_content_witness :
  ret (getUserRules ReaderCases.taxi_project) = Some "Always answer in English.".
Proof.
  apply (proj1 (getUserRules_content ReaderCases.taxi_project)).
  exists "/proj". repeat split; [discriminate | reflexivity..].
Defined.

Lemma mapM_Forall2 {A B} (f : A -> completion B) (l : list A) (ys : list B) :
  mapM f l = Return ys -> Forall2 (fun x y => f x = Return y) l ys.
Proof.
  revert ys. induction l as [|x l IH]; intros ys H.
  - injection H as <-. constructor.
  - cbn [mapM] in H. destruct (f x) as [y|] eqn:Ex; [|discriminate]. cbn [bind] in H.
    destruct (mapM f l) as [ys'|]; [|discriminate]. injection H as <-.
    constructor; [done | by apply IH].
Qed.

Lemma mapM_throws {A B} (f : A -> completion B) (l : list A) (x : A) :
  x ∈ l -> (exists e, f x = Throw e) -> exists e, mapM f l = Throw e.
Proof.
  intros Hin Hx. induction l as [|a l IH]; [by apply elem_of_nil in Hin|].
  cbn [mapM]. destruct (f a) as [y|e] eqn:Ea; [|by exists e]. cbn [bind].
  apply elem_of_cons in Hin as [->|Hin].
  - destruct Hx as [e He]. congruence.
  - destruct (IH Hin) as [e ->]. by exists e.
Qed.

(** X3. When [getClassifications] finds a [classifications] mapping
    whose entries all have a body, it returns one classification per
    entry, in order, named by the key of the entry, with the
    description of the entry and its tags, an entry without tags
    getting the empty list. *)
Theorem getClassifications_entries (w : World) (parsed : value)
    (entries : list (string * value)) :
  holds w "business_rules.yml" (Return parsed) ->
  get_opt parsed "classifications" = VObj entries ->
  (forall e, e ∈ entries -> e.2 <> VNull /\ e.2 <> VUndefined) ->
  getClassifications w =
    mkOutcome
      (Some ((fun e => mkClassificationInfo e.1 (get_opt e.2 "description")
                         (or_else (get_opt e.2 "tags") (VArr []))) <$> entries))
      [].
Proof.
  intros H Hc Hdef. unfold getClassifications. enter_loader H. rewrite Hc.
  cbn [truthy negb Object_entries own_props bind].
  erewrite mapM_pure; [reflexivity|].
  intros e Hin. destruct (Hdef e Hin) as [H1 H2].
  unfold classification_info. by rewrite !get_defined.
Qed.

Lemma getClassifications_entries_witness :
  holds ReaderCases.classified_project "business_rules.yml" (Return ReaderCases.classified) /\
  getClassifications ReaderCases.classified_project =
    mkOutcome
      (Some [mkClassificationInfo "airport_trip" (VStr "Trips to or from an airport")
               (VArr [VStr "zone"; VStr "fare"]);
             mkClassificationInfo "commute" (VStr "Weekday rush-hour trips") (VArr [])])
      [].
Proof.
  assert (H : holds ReaderCases.classified_project "business_rules.yml"
                (Return ReaderCases.classified))
    by (by exists Scenario.rules_path, ReaderCases.classified_text).
  split; [exact H|].
  apply (getClassifications_entries ReaderCases.classified_project ReaderCases.classified
           _ H eq_refl).
  intros e He. apply list_elem_of_In in He.
  destruct He as [<- | [<- | []]]; done.
Defined.

Lemma model_info_name (entry : string * value) (i : SemanticModelInfo) :
  model_info entry = Return i -> name i = entry.1.
Proof.
  unfold model_info, mbind, completion_bind.
  repeat (match goal with
          | |- bind ?c _ = _ -> _ => destruct c; cbn [bind]; [|discriminate]
          end).
  by intros [= <-].
Qed.

(** X4. Whatever the models document holds, when [getSemanticModels]
    returns models there is one per entry of [models], in the order of
    the entries and under their names: no model is dropped, added or
    renamed. *)
Theorem getSemanticModels_names (w : World) (parsed : value)
    (infos : list SemanticModelInfo) :
  holds w "semantic_model.yml" (Return parsed) ->
  ret (getSemanticModels w) = Some infos ->
  exists entries,
    own_props (get_opt parsed "models") = Some entries /\
    name <$> infos = entries.*1.
Proof.
  intros H. unfold getSemanticModels. enter_loader H.
  destruct (truthy (get_opt parsed "models")); cbn [negb]; [|discriminate].
  unfold Object_entries.
  destruct (own_props (get_opt parsed "models")) as [entries|]; [|discriminate].
  cbn [bind]. destruct (mapM model_info entries) as [found|] eqn:Em; [|discriminate].
  cbn [bind try_catch ret]. intros [= <-]. exists entries. split; [done|].
  apply mapM_Forall2 in Em. induction Em as [|e i es found Hi _ IH]; [done|].
  rewrite !fmap_cons, IH. f_equal. by apply model_info_name.
Qed.

Lemma getSemanticModels_names_witness :
  exists entries,
    own_props (get_opt (ModelsDocument.encode Scenario.orders_document) "models")
      = Some entries /\
    name <$> (ModelsDocument.info_of <$> Scenario.orders_document) = entries.*1.
Proof.
  apply (getSemanticModels_names Scenario.orders_project
           (ModelsDocument.encode Scenario.orders_document)).
  - by exists Scenario.models_path, Scenario.orders_text.
  - reflexivity.
Defined.

(** X5. One model without a body voids the whole models document:
    [getSemanticModels] returns [null] and logs one error, whatever the
    other models are. *)
Theorem getSemanticModels_bodiless_model (w : World) (parsed : value)
    (entries : list (string * value)) (k : string) (model : value) :
  holds w "semantic_model.yml" (Return parsed) ->
  get_opt parsed "models" = VObj entries ->
  (k, model) ∈ entries ->
  model = VNull \/ model = VUndefined ->
  ret (getSemanticModels w) = None /\
  exists e, console (getSemanticModels w) = [("Error reading semantic_model.yml:", e)].
Proof.
  intros H Hm Hin Hnull. unfold getSemanticModels. enter_loader H. rewrite Hm.
  cbn [truthy negb Object_entries own_props bind].
  destruct (mapM_throws model_info entries (k, model) Hin) as [e ->].
  { destruct Hnull as [-> | ->]; by eexists. }
  cbn [bind try_catch ret console]. eauto.
Qed.

Lemma getSemanticModels_bodiless_model_witness :
  ret (getSemanticModels ReaderCases.bodiless_project) = None /\
  exists e, console (getSemanticModels ReaderCases.bodiless_project)
            = [("Error reading semantic_model.yml:", e)].
Proof.
  apply (getSemanticModels_bodiless_model ReaderCases.bodiless_project ReaderCases.bodiless
           [("trips", VObj [("table", VStr "trips")]); ("zones", VNull)] "zones" VNull).
  - by exists Scenario.models_path, "models: {trips: {table: trips}, zones: }".
  - reflexivity.
  - right; left.
  - by left.
Defined.

(** X6. A rules document whose [rules] is present but is not a list (a
    mapping, a text, a number) gives [null] and one logged TypeError,
    while an empty list of rules gives the empty list. *)
Theorem getBusinessRules_not_a_list (w : World) (parsed : value) :
  holds w "business_rules.yml" (Return parsed) ->
  (truthy (get_opt parsed "rules") = true ->
   (forall xs, get_opt parsed "rules" <> VArr xs) ->
   getBusinessRules w =
     mkOutcome None [("Error reading business_rules.yml:",
                      TypeError "parsed.rules.map is not a function")]) /\
  (get_opt parsed "rules" = VArr [] -> getBusinessRules w = mkOutcome (Some []) []).
Proof.
  intros H. split.
  - intros Ht Hna. unfold getBusinessRules. enter_loader H. rewrite Ht. cbn [negb].
    destruct (get_opt parsed "rules") eqn:E; try discriminate; try reflexivity.
    by destruct (Hna xs).
  - intros He. unfold getBusinessRules. enter_loader H. by rewrite He.
Qed.

Lemma getBusinessRules_not_a_list_witness :
  getBusinessRules ReaderCases.rules_mapping_project =
    mkOutcome None [("Error reading business_rules.yml:",
                     TypeError "parsed.rules.map is not a function")].
Proof.
  apply (getBusinessRules_not_a_list ReaderCases.rules_mapping_project
           ReaderCases.rules_mapping).
  - by exists Scenario.rules_path,
              "rules: {cash_tips_not_recorded: {category: data_quality}}".
  - reflexivity.
  - intros xs. discriminate.
Defined.

End ReadersMore.

(** ** The input schemas *)

Section InputSchemas.
Import JS.

(** X7. [FilterSchema] parses a value to a filter exactly when the value
    is an object whose [column] is a string and whose [operator] is left
    out or names an operator; the filter has that column, that operator
    ([eq] when left out) and the [value] of the object, whatever it is.
    [OrderBySchema] likewise, with [ascending] left out or a boolean. *)
Theorem FilterSchema_OrderBySchema_exact (v : value) :
  (forall f,
     Zod.FilterSchema v = Zod.Ok f <->
     (exists props, v = VObj props) /\
     get_opt v "column" = VStr (Zod.f_column f) /\
     Zod.f_value f = get_opt v "value" /\
     (get_opt v "operator" = VUndefined /\ Zod.f_operator f = Zod.op_eq \/
      get_opt v "operator" = VStr (Zod.operator_name (Zod.f_operator f)))) /\
  (forall o,
     Zod.OrderBySchema v = Zod.Ok o <->
     (exists props, v = VObj props) /\
     get_opt v "column" = VStr (Zod.o_column o) /\
     (get_opt v "ascending" = VUndefined /\ Zod.o_ascending o = true \/
      get_opt v "ascending" = VBool (Zod.o_ascending o))).
Proof.
  split.
  - intros f. split.
    + intros H. destruct v as [| | | | | |props]; try discriminate.
      split; [by eexists|].
      destruct (assoc "column" props) as [[| | | |c| |]|] eqn:Ec;
        try (unfold Zod.FilterSchema in H; cbn [get_opt] in H; rewrite Ec in H;
             cbn in H; by destruct (Zod.z_default _ _ _)).
      rewrite (FilterSchema_shape props c Ec) in H. cbn [get_opt] in *. rewrite Ec.
      destruct (default VUndefined (assoc "operator" props)) eqn:Eo;
        try (cbn [Zod.z_default Zod.z_enum_operator] in H; discriminate).
      * cbn in H. injection H as <-. cbn. split; [done|]. split; [done|]. by left.
      * cbn [Zod.z_default] in H. rewrite z_enum_operator_str in H.
        destruct (List.find _ _) as [o|] eqn:Ef; [|discriminate].
        injection H as <-. cbn [Zod.f_column Zod.f_value Zod.f_operator].
        repeat split. right. f_equal. by apply find_operator_sound.
    + intros ([props ->] & Hc & Hv & Ho). cbn [get_opt] in *.
      destruct (assoc "column" props) as [c|] eqn:Ec; [|discriminate].
      cbn in Hc. subst c. rewrite (FilterSchema_shape props _ Ec). cbn [get_opt].
      destruct f as [c o x]. cbn in *. subst x.
      destruct Ho as [[-> ->] | ->]; [done|].
      unfold Zod.z_default. by rewrite z_enum_operator_name.
  - intros o. split.
    + intros H. destruct v as [| | | | | |props]; try discriminate.
      split; [by eexists|]. unfold Zod.OrderBySchema in H. cbn [get_opt] in *.
      destruct (default VUndefined (assoc "column" props)) as [| | | |c| |] eqn:Ec;
        try (cbn in H; by destruct (Zod.z_default _ _ _)).
      destruct (default VUndefined (assoc "ascending" props)) as [| |b| | | |] eqn:Ea;
        try (cbn in H; discriminate).
      * cbn in H. injection H as <-. cbn. split; [done | by left].
      * cbn in H. injection H as <-. cbn. split; [done | by right].
    + intros ([props ->] & Hc & Ha). unfold Zod.OrderBySchema. cbn [get_opt] in *.
      rewrite Hc. destruct o as [c a]. cbn in *.
      destruct Ha as [[-> ->] | ->]; reflexivity.
Qed.

Lemma FilterSchema_OrderBySchema_exact_witness :
  Zod.FilterSchema (VObj [("column", VStr "payment_type"); ("value", VStr "cash")])
    = Zod.Ok (Zod.mkFilter "payment_type" Zod.op_eq (VStr "cash")) /\
  Zod.OrderBySchema (VObj [("column", VStr "trip_count"); ("ascending", VBool false)])
    = Zod.Ok (Zod.mkOrderBy "trip_count" false).
Proof.
  split.
  - apply (proj1 (FilterSchema_OrderBySchema_exact _)).
    repeat split; [by eexists | by left].
  - apply (proj2 (FilterSchema_OrderBySchema_exact _)).
    repeat split; [by eexists | by right].
Defined.

End InputSchemas.

Section ArraySchemas.
Import JS ToolSchemas.

Lemma at_key_ok {A} (k : string) (p : parsed A) (a : A) :
  at_key k p = Ok a <-> p = Ok a.
Proof. destruct p; cbn; split; congruence. Qed.

Lemma elements_ok {A} (schema : value -> parsed A) (i : nat) (xs : list value) :
  forallb is_ok (elements schema i xs) = true ->
  Forall2 (fun x a => schema x = Ok a) xs (values_of (elements schema i xs)).
Proof.
  revert i. induction xs as [|x xs IH]; intros i H; [constructor|].
  cbn [elements forallb values_of] in *. apply andb_true_iff in H as [Hx Hxs].
  destruct (schema x) as [a|] eqn:Ex; [|discriminate]. cbn [at_key values_of].
  constructor; [done | by apply IH].
Qed.

Lemma elements_encoded {A} (schema : value -> parsed A) (enc : A -> value) (i : nat)
    (l : list A) :
  (forall a, schema (enc a) = Ok a) ->
  forallb is_ok (elements schema i (enc <$> l)) = true /\
  values_of (elements schema i (enc <$> l)) = l.
Proof.
  intros Henc. revert i. induction l as [|a l IH]; intros i; [done|].
  rewrite fmap_cons. cbn [elements forallb values_of]. rewrite Henc.
  cbn [at_key is_ok values_of andb]. destruct (IH (S i)) as [-> ->]. done.
Qed.

(** What an accepted array is. *)
Lemma z_array_ok {A} (schema : value -> parsed A) (least : nat) (v : value) (l : list A) :
  z_array schema least v = Ok l ->
  exists xs, v = VArr xs /\ least <= length xs /\ length l = length xs /\
             Forall2 (fun x a => schema x = Ok a) xs l.
Proof.
  destruct v as [| | | | |xs|]; try discriminate. cbn [z_array].
  destruct (Nat.ltb (length xs) least) eqn:El; [discriminate|]. cbn [negb andb].
  destruct (forallb is_ok _) eqn:Ef; [|discriminate]. intros [= <-].
  apply Nat.ltb_ge in El. apply elements_ok in Ef.
  exists xs. split; [done|]. split; [done|]. split; [|done].
  symmetry. by eapply Forall2_length.
Qed.

Lemma z_array_encoded {A} (schema : value -> parsed A) (enc : A -> value) (least : nat)
    (l : list A) :
  (forall a, schema (enc a) = Ok a) -> least <= length l ->
  z_array schema least (VArr (enc <$> l)) = Ok l.
Proof.
  intros Henc Hl. cbn [z_array]. rewrite length_fmap.
  apply Nat.ltb_ge in Hl. rewrite Hl. cbn [negb andb].
  destruct (elements_encoded schema enc 0 l Henc) as [-> ->]. done.
Qed.

Lemma z_array_strings (least : nat) (l : list string) :
  least <= length l -> z_array z_string least (of_strings l) = Ok l.
Proof. intros Hl. by apply z_array_encoded. Qed.

Lemma FilterSchema_encoded (f : Zod.Filter) :
  lift (Zod.FilterSchema (Executors.encode_filter f)) = Ok f.
Proof.
  destruct f as [c o x]. unfold Executors.encode_filter.
  cbn [Zod.f_column Zod.f_operator Zod.f_value].
  rewrite (FilterSchema_shape [("column", VStr c); ("operator", VStr (Zod.operator_name o));
                               ("value", x)] c eq_refl).
  change (get_opt (VObj [("column", VStr c); ("operator", VStr (Zod.operator_name o));
                         ("value", x)]) "operator")
    with (VStr (Zod.operator_name o)).
  unfold Zod.z_default. by rewrite z_enum_operator_name.
Qed.

Lemma OrderBySchema_encoded (o : Zod.OrderBy) :
  lift (Zod.OrderBySchema (Executors.encode_order_by o)) = Ok o.
Proof. by destruct o as [c a]. Qed.

(** X8. A query-metrics input that [InputSchema] accepts has at least
    one measure, and its dimensions, filters and order-by entries are
    the empty list, and its limit none, when the input leaves them out;
    an input with an empty [measures] array is rejected. *)
Theorem queryMetrics_InputSchema_accepted (v : value) :
  (forall i,
     queryMetrics_InputSchema v = Ok i ->
     Executors.queryMetrics.measures i <> [] /\
     (get_opt v "dimensions" = VUndefined -> Executors.queryMetrics.dimensions i = []) /\
     (get_opt v "filters" = VUndefined -> Executors.queryMetrics.filters i = []) /\
     (get_opt v "order_by" = VUndefined -> Executors.queryMetrics.order_by i = []) /\
     (get_opt v "limit" = VUndefined -> Executors.queryMetrics.limit i = None)) /\
  (get_opt v "measures" = VArr [] ->
   exists issues, queryMetrics_InputSchema v = Invalid issues /\
                  (["measures"], too_small) ∈ issues).
Proof.
  split.
  - intros i H. destruct v as [| | | | | |props]; try discriminate.
    unfold queryMetrics_InputSchema in H.
    destruct (at_key "model_name" _) as [n|]; [|discriminate].
    destruct (at_key "measures" _) as [ms|] eqn:Ems; [|discriminate].
    destruct (at_key "dimensions" _) as [ds|] eqn:Eds; [|discriminate].
    destruct (at_key "filters" _) as [fs|] eqn:Efs; [|discriminate].
    destruct (at_key "order_by" _) as [os|] eqn:Eos; [|discriminate].
    destruct (at_key "limit" _) as [l|] eqn:El; [|discriminate].
    destruct (at_key "database_id" _) as [d|]; [|discriminate].
    injection H as <-. cbn [Executors.queryMetrics.measures
      Executors.queryMetrics.dimensions Executors.queryMetrics.filters
      Executors.queryMetrics.order_by Executors.queryMetrics.limit].
    apply at_key_ok in Ems, Eds, Efs, Eos, El.
    split; [|split; [|split; [|split]]].
    + apply z_array_ok in Ems as (xs & _ & Hlen & Hl & _).
      intros ->. cbn in Hl. lia.
    + intros Hu. rewrite Hu in Eds. by injection Eds as <-.
    + intros Hu. rewrite Hu in Efs. by injection Efs as <-.
    + intros Hu. rewrite Hu in Eos. by injection Eos as <-.
    + intros Hu. rewrite Hu in El. by injection El as <-.
  - intros Hm. destruct v as [| | | | | |props]; try discriminate.
    unfold queryMetrics_InputSchema. rewrite Hm.
    cbn [z_array length Nat.ltb Nat.leb negb andb elements fmap list_fmap concat app at_key
         map fst snd issues_of].
    destruct (at_key "model_name" _) as [n|l0];
      (eexists; split; [reflexivity|]); cbn [issues_of app];
      rewrite ?elem_of_app; [left | right; left]; left.
Qed.

End ArraySchemas.

Section BodiesAndSchemas.
Import JS ToolSchemas Executors.

Lemma queryMetrics_InputSchema_accepted_witness :
  let v := VObj [("model_name", VStr "trips"); ("measures", VArr [VStr "trip_count"])] in
  queryMetrics_InputSchema v
    = Ok (queryMetrics.mkInput "trips" ["trip_count"] [] [] [] None None) /\
  queryMetrics.measures (queryMetrics.mkInput "trips" ["trip_count"] [] [] [] None None)
    <> [].
Proof.
  intros v. split; [reflexivity|].
  exact (proj1 (proj1 (queryMetrics_InputSchema_accepted v) _ eq_refl)).
Defined.

(** X9. The body [executeQueryMetrics] sends is itself a query-metrics
    input: for an input with at least one measure, [InputSchema] parses
    the body back to the same model name, measures, dimensions, filters,
    order-by entries and limit, and to the same database id but for an
    empty one, which is sent as none. *)
Theorem queryMetrics_body_round_trip (i : queryMetrics.Input) (context : ToolContext) :
  queryMetrics.measures i <> [] ->
  queryMetrics_InputSchema (VObj (queryMetrics_body i context)) = Ok (sent_input i).
Proof.
  intros Hm. destruct i as [n ms ds fs os l d]. cbn [queryMetrics.measures] in Hm.
  assert (Hms : z_array z_string 1 (of_strings ms) = Ok ms).
  { apply z_array_strings. destruct ms; [done | cbn; lia]. }
  assert (Hds : z_array z_string 0 (of_strings ds) = Ok ds)
    by (apply z_array_strings; lia).
  assert (Hfs : z_array (fun v => lift (Zod.FilterSchema v)) 0 (VArr (encode_filter <$> fs))
                = Ok fs)
    by (apply z_array_encoded; [apply FilterSchema_encoded | lia]).
  assert (Hos : z_array (fun v => lift (Zod.OrderBySchema v)) 0
                  (VArr (encode_order_by <$> os)) = Ok os)
    by (apply z_array_encoded; [apply OrderBySchema_encoded | lia]).
  unfold queryMetrics_InputSchema, sent_input, queryMetrics_body.
  cbn [queryMetrics.model_name queryMetrics.measures queryMetrics.dimensions
       queryMetrics.filters queryMetrics.order_by queryMetrics.limit
       queryMetrics.database_id projectFolder].
  destruct d as [[|c d]|], l as [z|];
    cbn [of_opt_string of_opt_number and_then truthy String.eqb negb spread own_props
         default from_option id indexed chars imap set_props fold_left set_prop fst snd
         get_opt assoc Ascii.eqb Bool.eqb z_default];
    unfold of_strings, z_default in *; rewrite ?Hms, ?Hds, ?Hfs, ?Hos;
    reflexivity.
Qed.

Lemma queryMetrics_body_round_trip_witness :
  let i := queryMetrics.mkInput "trips" ["total_fare"] ["zone.borough"]
             [Zod.mkFilter "payment_type" Zod.op_in (VArr [VNum 1; VNum 2])]
             [Zod.mkOrderBy "total_fare" false] (Some 10%Z) (Some "") in
  queryMetrics.measures i <> [] /\
  queryMetrics_InputSchema (VObj (queryMetrics_body i (mkToolContext "/proj")))
    = Ok (queryMetrics.mkInput "trips" ["total_fare"] ["zone.borough"]
            [Zod.mkFilter "payment_type" Zod.op_in (VArr [VNum 1; VNum 2])]
            [Zod.mkOrderBy "total_fare" false] (Some 10%Z) None).
Proof.
  intros i. split; [done|].
  exact (queryMetrics_body_round_trip i (mkToolContext "/proj") ltac:(done)).
Defined.

End BodiesAndSchemas.

Section ParsedFilters.
Import JS ToolSchemas Executors.

Lemma optional_string_ok (v : value) (o : option string) :
  z_optional z_string v = Ok o ->
  (v = VUndefined /\ o = None) \/ (exists s, v = VStr s /\ o = Some s).
Proof.
  destruct v; cbn; try discriminate; intros [= <-]; [left | right]; eauto.
Qed.

Lemma default_strings_ok (v : value) (l : list string) :
  z_default (z_array z_string 0) (VArr []) v = Ok l ->
  (v = VUndefined /\ l = []) \/ (exists xs, v = VArr xs /\ length l = length xs).
Proof.
  intros H. destruct v; try discriminate.
  - left. by injection H as <-.
  - right. cbn [z_default] in H. apply z_array_ok in H as (xs' & [= <-] & _ & Hl & _).
    by exists xs.
Qed.

(** X10. From the raw input of the business-context (resp. classify)
    tool to the request: when [InputSchema] accepts the input, the body
    sent has a [category] (resp. [name]) member exactly when the input
    gives a non-empty string for it, and a [concepts] (resp. [tags])
    member exactly when the input gives a non-empty array; an input that
    leaves them out, or gives [''] and [[]], sends neither. *)
Theorem parsed_filters_sent (v : value) (context : ToolContext) (url : string) :
  (forall i,
     getBusinessContext_InputSchema v = Ok i ->
     let rq := mkRequest url (getBusinessContext_body i context) in
     (has_member "category" rq = true <->
        exists s, get_opt v "category" = VStr s /\ s <> "") /\
     (has_member "concepts" rq = true <->
        exists x xs, get_opt v "concepts" = VArr (x :: xs))) /\
  (forall i,
     classify_InputSchema v = Ok i ->
     let rq := mkRequest url (classify_body i context) in
     (has_member "name" rq = true <-> exists s, get_opt v "name" = VStr s /\ s <> "") /\
     (has_member "tags" rq = true <-> exists x xs, get_opt v "tags" = VArr (x :: xs))).
Proof.
  split; intros i H rq; subst rq; destruct v as [| | | | | |props]; try discriminate.
  - unfold getBusinessContext_InputSchema in H.
    destruct (at_key "category" _) as [c|] eqn:Ec; [|discriminate].
    destruct (at_key "concepts" _) as [cs|] eqn:Ecs; [|discriminate].
    injection H as <-. apply at_key_ok in Ec, Ecs.
    apply optional_string_ok in Ec. apply default_strings_ok in Ecs.
    unfold has_member.
    destruct Ec as [[-> ->] | (s & -> & ->)], Ecs as [[-> ->] | (xs & -> & Hlen)];
      try destruct s as [|a s]; try destruct cs as [|x cs]; try destruct xs as [|x' xs];
      try discriminate Hlen; cbn;
      split; split; intros H; try done;
      try (destruct H as (? & [= <-] & ?); done);
      try (destruct H as (? & ? & [=]); done); eauto.
  - unfold classify_InputSchema in H.
    destruct (at_key "name" _) as [c|] eqn:Ec; [|discriminate].
    destruct (at_key "tags" _) as [cs|] eqn:Ecs; [|discriminate].
    injection H as <-. apply at_key_ok in Ec, Ecs.
    apply optional_string_ok in Ec. apply default_strings_ok in Ecs.
    unfold has_member.
    destruct Ec as [[-> ->] | (s & -> & ->)], Ecs as [[-> ->] | (xs & -> & Hlen)];
      try destruct s as [|a s]; try destruct cs as [|x cs]; try destruct xs as [|x' xs];
      try discriminate Hlen; cbn;
      split; split; intros H; try done;
      try (destruct H as (? & [= <-] & ?); done);
      try (destruct H as (? & ? & [=]); done); eauto.
Qed.

Lemma parsed_filters_sent_witness :
  let v := VObj [("concepts", VArr [VStr "tip_amount"])] in
  let i := getBusinessContext.mkInput None (Some ["tip_amount"]) in
  let rq := mkRequest "http://localhost:8005/business_context"
              (getBusinessContext_body i (mkToolContext "/proj")) in
  getBusinessContext_InputSchema v = Ok i /\
  (has_member "category" rq = true <-> exists s, get_opt v "category" = VStr s /\ s <> "") /\
  (has_member "concepts" rq = true <-> exists x xs, get_opt v "concepts" = VArr (x :: xs)).
Proof.
  intros v i rq. split; [reflexivity|].
  exact (proj1 (parsed_filters_sent v (mkToolContext "/proj")
                  "http://localhost:8005/business_context") i eq_refl).
Defined.

End ParsedFilters.

(** ** The tool set *)

Section ToolSet.
Import JS Registry.

Lemma when_lookup_eq (c : bool) (k : string) (t : tool) :
  when c k t !! k = if c then Some t else None.
Proof. unfold when. destruct c; [apply lookup_singleton_eq | apply lookup_empty]. Qed.

Lemma tools_execute_python (h : Host) :
  tools h !! "execute_python" = if executePython_available h then Some executePython else None.
Proof.
  unfold tools, assign, when. destruct (executePython_available h); reflexivity.
Qed.

Lemma tools_base (h : Host) (k : string) (t : tool) :
  (k, t) ∈ [("display_chart", displayChart); ("execute_sql", executeSql); ("grep", grep);
            ("list", list_); ("read", read); ("search", search);
            ("suggest_follow_ups", suggestFollowUps)] ->
  tools h !! k = Some t.
Proof.
  intros Hin. apply list_elem_of_In in Hin. unfold tools, assign, when.
  destruct (executePython_available h);
    repeat (destruct Hin as [[= <- <-] | Hin]; [reflexivity|]); destruct Hin.
Qed.

(** X11. Under any name other than [execute_python], [query_metrics],
    [get_business_context] and [classify], [getTools] offers the MCP
    tool of that name when there is one, and otherwise the built-in tool
    of that name: the seven built-in tools are always offered unless an
    MCP tool takes their name. *)
Theorem getTools_builtin_or_mcp (h : Host) (agentSettings : option AgentSettings)
    (k : string) :
  k ∉ ["execute_python"; "query_metrics"; "get_business_context"; "classify"] ->
  getTools h agentSettings !! k =
    match getMcpTools h !! k with
    | Some id => Some (mcpTool id)
    | None => tools h !! k
    end /\
  (forall t,
     (k, t) ∈ [("display_chart", displayChart); ("execute_sql", executeSql);
               ("grep", grep); ("list", list_); ("read", read); ("search", search);
               ("suggest_follow_ups", suggestFollowUps)] ->
     getMcpTools h !! k = None -> getTools h agentSettings !! k = Some t).
Proof.
  intros Hk.
  assert (Hpy : k <> "execute_python") by (intros ->; apply Hk; set_solver).
  assert (Hqm : k <> "query_metrics") by (intros ->; apply Hk; set_solver).
  assert (Hbc : k <> "get_business_context") by (intros ->; apply Hk; set_solver).
  assert (Hcl : k <> "classify") by (intros ->; apply Hk; set_solver).
  assert (Hget : getTools h agentSettings !! k =
                 match getMcpTools h !! k with
                 | Some id => Some (mcpTool id)
                 | None => tools h !! k
                 end).
  { unfold getTools, assign. rewrite !lookup_union.
    rewrite !when_lookup_ne by done.
    assert (Hnone : match tools h !! "execute_python" with
                    | Some t => when (sandboxing agentSettings) "execute_python" t
                    | None => ∅
                    end !! k = None).
    { destruct (tools h !! "execute_python");
        [by apply when_lookup_ne | apply lookup_empty]. }
    rewrite Hnone, lookup_fmap, lookup_delete_ne by done.
    destruct (getMcpTools h !! k), (tools h !! k); reflexivity. }
  split; [done|].
  intros t Hin Hmcp. rewrite Hget, Hmcp. by apply tools_base.
Qed.

Lemma getTools_builtin_or_mcp_witness :
  let h := mkHost (Some "/proj") Scenario.join (fun _ => false) true
             {[ "grep" := "ripgrep" ]} in
  ("grep" ∉ ["execute_python"; "query_metrics"; "get_business_context"; "classify"]) /\
  getTools h None !! "grep" = Some (mcpTool "ripgrep").
Proof.
  intros h.
  assert (Hk : "grep" ∉ ["execute_python"; "query_metrics"; "get_business_context";
                         "classify"]).
  { intros Hin. apply list_elem_of_In in Hin. cbn in Hin.
    repeat (destruct Hin as [Hin|Hin]; [discriminate Hin|]). done. }
  split; [exact Hk|].
  exact (proj1 (getTools_builtin_or_mcp h None "grep" Hk)).
Defined.

(** X12. [getTools] offers the Python tool exactly when the module
    exports it and the agent settings turn on [pythonSandboxing]; in
    every other case (no settings, no [experimental], the flag off or
    left out) [execute_python] is at most an MCP tool of that name. *)
Theorem getTools_execute_python (h : Host) (agentSettings : option AgentSettings) :
  (getTools h agentSettings !! "execute_python" = Some executePython <->
   executePython_available h = true /\
   exists a e, agentSettings = Some a /\ experimental a = Some e /\
               pythonSandboxing e = Some true) /\
  (getTools h agentSettings !! "execute_python" <> Some executePython ->
   getTools h agentSettings !! "execute_python"
     = mcpTool <$> getMcpTools h !! "execute_python").
Proof.
  assert (Hsand : sandboxing agentSettings = true <->
                  exists a e, agentSettings = Some a /\ experimental a = Some e /\
                              pythonSandboxing e = Some true).
  { unfold sandboxing. split.
    - destruct agentSettings as [a|]; [|discriminate].
      destruct (experimental a) as [e|] eqn:Ee; [|discriminate].
      destruct (pythonSandboxing e) as [[|]|] eqn:Ep; try discriminate.
      intros _. by exists a, e.
    - intros (a & e & -> & -> & ->). reflexivity. }
  assert (Hget : getTools h agentSettings !! "execute_python" =
                 if executePython_available h && sandboxing agentSettings
                 then Some executePython
                 else mcpTool <$> getMcpTools h !! "execute_python").
  { unfold getTools, assign. rewrite !lookup_union.
    rewrite !when_lookup_ne by done. rewrite tools_execute_python.
    rewrite lookup_fmap, lookup_delete_eq.
    destruct (executePython_available h); cbn [andb].
    - rewrite when_lookup_eq. destruct (sandboxing agentSettings);
        by destruct (getMcpTools h !! "execute_python").
    - rewrite lookup_empty. by destruct (getMcpTools h !! "execute_python"). }
  rewrite Hget. rewrite <- Hsand. clear Hsand Hget.
  destruct (executePython_available h), (sandboxing agentSettings); cbn [andb];
    (split; [split|]); try done; try (by intros [? ?]);
    intros H; try (by destruct (getMcpTools h !! "execute_python"));
    by destruct H.
Qed.

Lemma getTools_execute_python_witness :
  let h := mkHost (Some "/proj") Scenario.join (fun _ => false) true
             {[ "execute_python" := "py" ]} in
  (getTools h None !! "execute_python" <> Some executePython) /\
  getTools h None !! "execute_python" = Some (mcpTool "py").
Proof.
  intros h.
  assert (Hne : getTools h None !! "execute_python" <> Some executePython).
  { vm_compute. discriminate. }
  split; [exact Hne|].
  exact (proj2 (getTools_execute_python h None) Hne).
Defined.

End ToolSet.

(** ** The executors, on every path *)

Section ExecutorPaths.
Import JS Executors.

(** X13. When the backend answers a classify invocation with a non-OK
    response, [executeClassify] sends that one request and no other,
    returns no output and throws: for a JSON answer other than [null],
    the tool's error with the [detail] member of the answer; for an
    answer that is not JSON, the tool's error with the status text; for
    the JSON answer [null], a TypeError that carries neither. *)
Theorem executeClassify_fails_once (h : Host) (context : ToolContext) (sent : list Request)
    (i : classify.Input) (response : Response) :
  let rq := mkRequest ("http://localhost:" +:+ FASTAPI_PORT h +:+ "/classify")
              (classify_body i context) in
  backend h sent rq = Return response ->
  ok response = false ->
  fails_once h "Error fetching classifications: " rq response sent
    (executeClassify h i context sent).
Proof.
  intros rq Hfetch Hok. unfold executeClassify, fetch. fold rq. rewrite Hfetch.
  unfold mbind at 1, completion_bind at 1. cbn [bind]. rewrite Hok.
  apply fail_with_fails_once.
Qed.

Lemma executeClassify_fails_once_witness :
  let context := mkToolContext "/proj" in
  let i := classify.mkInput (Some "airport_trip") None in
  let rq := mkRequest "http://localhost:8005/classify" (classify_body i context) in
  backend Scenario.refusing_host [] rq = Return Scenario.refusal /\
  ok Scenario.refusal = false /\
  fails_once Scenario.refusing_host "Error fetching classifications: " rq Scenario.refusal []
    (executeClassify Scenario.refusing_host i context []).
Proof.
  intros context i rq. split; [reflexivity|]. split; [reflexivity|].
  exact (executeClassify_fails_once Scenario.refusing_host context [] i Scenario.refusal
           eq_refl eq_refl).
Defined.

(** X14. Each executor sends exactly one request, whatever happens;
    when [fetch] itself throws, and when an OK response has a body that
    is not JSON, the error is thrown on as it is, without the tool's own
    message. *)
Theorem executors_one_request (h : Host) (context : ToolContext) (sent : list Request) :
  (forall i : queryMetrics.Input,
     let rq := mkRequest ("http://localhost:" +:+ FASTAPI_PORT h +:+ "/query_metrics")
                 (queryMetrics_body i context) in
     let run := executeQueryMetrics h i context sent in
     run.2 = sent ++ [rq] /\
     (forall e, backend h sent rq = Throw e -> run.1 = Throw e) /\
     (forall response e,
        backend h sent rq = Return response -> ok response = true ->
        json response = Throw e -> run.1 = Throw e)) /\
  (forall i : getBusinessContext.Input,
     let rq := mkRequest ("http://localhost:" +:+ FASTAPI_PORT h +:+ "/business_context")
                 (getBusinessContext_body i context) in
     let run := executeGetBusinessContext h i context sent in
     run.2 = sent ++ [rq] /\
     (forall e, backend h sent rq = Throw e -> run.1 = Throw e) /\
     (forall response e,
        backend h sent rq = Return response -> ok response = true ->
        json response = Throw e -> run.1 = Throw e)) /\
  (forall i : classify.Input,
     let rq := mkRequest ("http://localhost:" +:+ FASTAPI_PORT h +:+ "/classify")
                 (classify_body i context) in
     let run := executeClassify h i context sent in
     run.2 = sent ++ [rq] /\
     (forall e, backend h sent rq = Throw e -> run.1 = Throw e) /\
     (forall response e,
        backend h sent rq = Return response -> ok response = true ->
        json response = Throw e -> run.1 = Throw e)).
Proof.
  split; [|split]; intros i rq run; subst run;
    unfold executeQueryMetrics, executeGetBusinessContext, executeClassify, fetch;
    fold rq; cbn [fst snd]; (split; [reflexivity|]); split.
  all: try (intros e He; by rewrite He).
  all: intros response e Hr Hok Hj; rewrite Hr;
    unfold mbind, completion_bind; cbn [bind]; rewrite Hok; cbn [negb];
    by rewrite Hj.
Qed.

Lemma assoc_set_prop (k k' : string) (v : value) (l : list (string * value)) :
  assoc k' (set_prop k v l) = if String.eqb k' k then Some v else assoc k' l.
Proof.
  induction l as [|[k0 v0] l IH]; cbn [set_prop assoc].
  - by destruct (String.eqb k' k).
  - destruct (String.eqb k k0) eqn:E0; cbn [assoc].
    + apply String.eqb_eq in E0 as ->. by destruct (String.eqb k' k0).
    + rewrite IH. destruct (String.eqb k' k0) eqn:E1; [|done].
      apply String.eqb_eq in E1 as ->.
      rewrite String.eqb_sym in E0. by rewrite E0.
Qed.

Lemma assoc_None (k : string) (l : list (string * value)) :
  k ∉ l.*1 -> assoc k l = None.
Proof.
  induction l as [|[k0 v0] l IH]; intros Hk; [done|]. cbn [assoc].
  destruct (String.eqb k k0) eqn:E; [apply String.eqb_eq in E as ->; set_solver|].
  apply IH. set_solver.
Qed.

(** The members of [{ ...base, ...news }], for distinct keys in [news]. *)
Lemma assoc_set_props (k : string) (news base : list (string * value)) :
  NoDup news.*1 ->
  assoc k (set_props news base) =
    match assoc k news with
    | Some v => Some v
    | None => assoc k base
    end.
Proof.
  revert base. induction news as [|[k0 v0] news IH]; intros base Hnd; [done|].
  apply NoDup_cons in Hnd as [Hk0 Hnd].
  unfold set_props in *. cbn [fold_left fst snd assoc].
  rewrite IH by done. rewrite assoc_set_prop.
  destruct (String.eqb k k0) eqn:E; [|done].
  apply String.eqb_eq in E as ->. by rewrite assoc_None.
Qed.

(** X15. On success the output of [executeQueryMetrics] keeps every
    member of the backend's answer but [id], carries [_version] ['1']
    unless the answer has a [_version] of its own, which then wins, and
    always has as [id] the text [query_] followed by the first eight
    characters of the UUID drawn, whatever [id] the backend sent.  The
    other two executors keep every member in the same way. *)
Theorem success_output (h : Host) (context : ToolContext) (sent : list Request)
    (response : Response) (props : list (string * value)) :
  ok response = true ->
  json response = Return (VObj props) ->
  NoDup props.*1 ->
  let kept out :=
    assoc "_version" out = Some (default (VStr "1") (assoc "_version" props)) /\
    forall k, k <> "_version" -> k <> "id" -> assoc k out = assoc k props in
  (forall i : queryMetrics.Input,
     backend h sent (mkRequest ("http://localhost:" +:+ FASTAPI_PORT h +:+ "/query_metrics")
                       (queryMetrics_body i context)) = Return response ->
     exists out,
       (executeQueryMetrics h i context sent).1 = Return (VObj out) /\
       assoc "id" out = Some (VStr ("query_" +:+ String.substring 0 8 (randomUUID h))) /\
       kept out) /\
  (forall i : getBusinessContext.Input,
     backend h sent (mkRequest ("http://localhost:" +:+ FASTAPI_PORT h +:+ "/business_context")
                       (getBusinessContext_body i context)) = Return response ->
     exists out,
       (executeGetBusinessContext h i context sent).1 = Return (VObj out) /\
       assoc "id" out = assoc "id" props /\ kept out) /\
  (forall i : classify.Input,
     backend h sent (mkRequest ("http://localhost:" +:+ FASTAPI_PORT h +:+ "/classify")
                       (classify_body i context)) = Return response ->
     exists out,
       (executeClassify h i context sent).1 = Return (VObj out) /\
       assoc "id" out = assoc "id" props /\ kept out).
Proof.
  intros Hok Hj Hnd kept.
  assert (Hversion :
    assoc "_version" (set_props props [("_version", VStr "1")])
      = Some (default (VStr "1") (assoc "_version" props))).
  { rewrite assoc_set_props by done. by destruct (assoc "_version" props). }
  assert (Hother : forall k, k <> "_version" ->
    assoc k (set_props props [("_version", VStr "1")]) = assoc k props).
  { intros k Hk. rewrite assoc_set_props by done.
    destruct (assoc k props); [done|]. cbn [assoc].
    apply String.eqb_neq in Hk. by rewrite Hk. }
  split; [|split]; intros i Hr; eexists.
  - unfold executeQueryMetrics, fetch. rewrite Hr.
    unfold mbind, completion_bind. cbn [bind fst]. rewrite Hok. cbn [negb].
    rewrite Hj. cbn [bind spread own_props default from_option id].
    split; [reflexivity|]. split; [by rewrite assoc_set_prop|]. split.
    + rewrite assoc_set_prop. cbn [String.eqb Ascii.eqb Bool.eqb]. exact Hversion.
    + intros k Hk Hid. rewrite assoc_set_prop.
      apply String.eqb_neq in Hid. rewrite Hid. by apply Hother.
  - unfold executeGetBusinessContext, fetch. rewrite Hr.
    unfold mbind, completion_bind. cbn [bind fst]. rewrite Hok. cbn [negb].
    rewrite Hj. cbn [bind spread own_props default from_option id].
    split; [reflexivity|]. split; [by apply Hother|]. split; [exact Hversion|].
    intros k Hk _. by apply Hother.
  - unfold executeClassify, fetch. rewrite Hr.
    unfold mbind, completion_bind. cbn [bind fst]. rewrite Hok. cbn [negb].
    rewrite Hj. cbn [bind spread own_props default from_option id].
    split; [reflexivity|]. split; [by apply Hother|]. split; [exact Hversion|].
    intros k Hk _. by apply Hother.
Qed.

End ExecutorPaths.

Section ExecutorWitnesses.
Import JS Executors.

Lemma executors_one_request_witness :
  let context := mkToolContext "/proj" in
  let rq := mkRequest "http://localhost:8005/query_metrics"
              (queryMetrics_body ExecutorCases.trip_count context) in
  backend ExecutorCases.unreachable_host [] rq = Throw (TypeError "fetch failed") /\
  executeQueryMetrics ExecutorCases.unreachable_host ExecutorCases.trip_count context []
    = (Throw (TypeError "fetch failed"), [rq]).
Proof.
  intros context rq. split; [reflexivity|].
  destruct (proj1 (executors_one_request ExecutorCases.unreachable_host context [])
              ExecutorCases.trip_count) as (Hsent & Hthrow & _).
  rewrite (surjective_pairing (executeQueryMetrics _ _ _ _)).
  by rewrite Hsent, (Hthrow _ eq_refl).
Defined.

Lemma success_output_witness :
  exists out,
    (executeQueryMetrics ExecutorCases.answering_host ExecutorCases.trip_count
       (mkToolContext "/proj") []).1 = Return (VObj out) /\
    assoc "id" out = Some (VStr "query_3f2a9c1e") /\
    assoc "_version" out = Some (VStr "2") /\
    forall k, k <> "_version" -> k <> "id" -> assoc k out = assoc k ExecutorCases.answer.
Proof.
  assert (Hnd : NoDup ExecutorCases.answer.*1) by (by apply (bool_decide_unpack _)).
  exact (proj1 (success_output ExecutorCases.answering_host (mkToolContext "/proj") []
                  ExecutorCases.answered ExecutorCases.answer eq_refl eq_refl Hnd)
           ExecutorCases.trip_count eq_refl).
Defined.

End ExecutorWitnesses.

(** ** The registry of running agents *)

Section Agents.
Import AgentService.
Context {Agent : Type}.

(** X16. [moveAgent] of a registered agent puts it under the new id and
    frees the old one, leaving every other id as it was and warning
    nothing; [moveAgent] of an id that is not registered changes nothing
    and warns once.  Moving an agent onto its own id keeps it. *)
Theorem moveAgent_moves (fromId toId : string) (agents : gmap string Agent) :
  (forall agent,
     getAgent fromId agents = Some agent ->
     (moveAgent fromId toId agents).1 = [] /\
     getAgent toId (moveAgent fromId toId agents).2 = Some agent /\
     (fromId <> toId -> getAgent fromId (moveAgent fromId toId agents).2 = None) /\
     (forall k, k <> fromId -> k <> toId ->
                getAgent k (moveAgent fromId toId agents).2 = getAgent k agents)) /\
  (getAgent fromId agents = None ->
   (moveAgent fromId toId agents).2 = agents /\
   length (moveAgent fromId toId agents).1 = 1).
Proof.
  unfold moveAgent, getAgent. split.
  - intros agent ->. cbn [fst snd]. split; [done|]. split; [apply lookup_insert_eq|].
    split.
    + intros Hne. rewrite lookup_insert_ne by done. apply lookup_delete_eq.
    + intros k Hf Ht. rewrite lookup_insert_ne by done. by rewrite lookup_delete_ne.
  - by intros ->.
Qed.

(** X17. The number of registered agents after [moveAgent]: unchanged
    when the new id is free or is the old id, and one less when the new
    id was taken by another agent, which is dropped without a warning. *)
Theorem moveAgent_size (fromId toId : string) (agents : gmap string Agent) (agent : Agent) :
  getAgent fromId agents = Some agent ->
  (getAgent toId agents = None \/ fromId = toId ->
   size (moveAgent fromId toId agents).2 = size agents) /\
  (fromId <> toId -> is_Some (getAgent toId agents) ->
   S (size (moveAgent fromId toId agents).2) = size agents /\
   (moveAgent fromId toId agents).1 = []).
Proof.
  unfold moveAgent, getAgent. intros Hfrom. rewrite Hfrom. cbn [fst snd].
  assert (Hsize : S (size (delete fromId agents)) = size agents).
  { rewrite <- (insert_delete_id agents fromId agent Hfrom) at 2.
    rewrite map_size_insert_None; [done | apply lookup_delete_eq]. }
  split.
  - intros [Hto | <-].
    + destruct (decide (fromId = toId)) as [<-|Hne]; [congruence|].
      rewrite map_size_insert_None; [done|]. by rewrite lookup_delete_ne.
    + rewrite map_size_insert_None; [done | apply lookup_delete_eq].
  - intros Hne [other Hto]. split; [|done].
    rewrite map_size_insert_Some; [done|].
    rewrite lookup_delete_ne by done. by eexists.
Qed.

(** X18. Registering and disposing: a registered agent is found under
    its id, replacing any agent that had the id; a disposed id is free;
    and disposing an agent registered under a free id gives back the
    map as it was. *)
Theorem register_dispose (agentId : string) (agent : Agent) (agents : gmap string Agent) :
  (registerAgent agentId agent agents).1 = agent /\
  getAgent agentId (registerAgent agentId agent agents).2 = Some agent /\
  (forall k, k <> agentId ->
     getAgent k (registerAgent agentId agent agents).2 = getAgent k agents /\
     getAgent k (disposeAgent agentId agents) = getAgent k agents) /\
  getAgent agentId (disposeAgent agentId agents) = None /\
  (getAgent agentId agents = None ->
   disposeAgent agentId (registerAgent agentId agent agents).2 = agents).
Proof.
  unfold registerAgent, disposeAgent, getAgent. cbn [fst snd].
  split; [done|]. split; [apply lookup_insert_eq|]. split; [|split].
  - intros k Hk. split; [by apply lookup_insert_ne | by apply lookup_delete_ne].
  - apply lookup_delete_eq.
  - intros Hfree. rewrite delete_insert_eq. by apply delete_id.
Qed.

End Agents.

Section AgentWitnesses.
Import AgentService.

Lemma moveAgent_moves_witness :
  let agents : gmap string nat := {[ "draft" := 7 ]} in
  getAgent "draft" agents = Some 7 /\
  getAgent "chat-42" (moveAgent "draft" "chat-42" agents).2 = Some 7 /\
  getAgent "draft" (moveAgent "draft" "chat-42" agents).2 = None.
Proof.
  intros agents. split; [reflexivity|].
  destruct (proj1 (moveAgent_moves "draft" "chat-42" agents) 7 eq_refl)
    as (_ & Hto & Hfrom & _).
  split; [exact Hto | by apply Hfrom].
Defined.

Lemma moveAgent_size_witness :
  let agents : gmap string nat := {[ "draft" := 7; "chat-42" := 9 ]} in
  getAgent "draft" agents = Some 7 /\
  S (size (moveAgent "draft" "chat-42" agents).2) = size agents.
Proof.
  intros agents. split; [reflexivity|].
  exact (proj1 (proj2 (moveAgent_size "draft" "chat-42" agents 7 eq_refl)
                  ltac:(done) ltac:(by exists 9))).
Defined.

Lemma register_dispose_witness :
  let agents : gmap string nat := {[ "chat-42" := 9 ]} in
  getAgent "draft" agents = None /\
  disposeAgent "draft" (registerAgent "draft" 7 agents).2 = agents.
Proof.
  intros agents. split; [reflexivity|].
  exact (proj2 (proj2 (proj2 (proj2 (register_dispose "draft" 7 agents)))) eq_refl).
Defined.

End AgentWitnesses.

(** ** The model output of query-metrics *)

Section Outputs.
Import JS ToolOutputs.

Lemma row_blocks_length (hp : Helpers) (i : nat) (rows : list value) (bs : list node) :
  row_blocks hp i rows = Return bs -> length bs = length rows.
Proof.
  revert i bs. induction rows as [|row rows IH]; intros i bs H.
  - by injection H as <-.
  - cbn [row_blocks] in H. unfold mbind, completion_bind in H.
    destruct (row_block hp i row); [|discriminate]. cbn [bind] in H.
    destruct (row_blocks hp (S i) rows) as [bs'|] eqn:E; [|discriminate].
    injection H as <-. cbn [length]. f_equal. by eapply IH.
Qed.

Lemma visibleRows_take (output : Output) (maxRows : Z) :
  (0 <= maxRows)%Z -> visibleRows output maxRows = take (Z.to_nat maxRows) (data output).
Proof.
  intros Hm. unfold visibleRows, isTruncated, slice_to.
  destruct (maxRows <? Z.of_nat (length (data output)))%Z eqn:Et.
  - assert (Hneg : (maxRows <? 0)%Z = false) by (apply Z.ltb_ge; lia). by rewrite Hneg.
  - apply Z.ltb_ge in Et. rewrite take_ge; [done | lia].
Qed.

(** X19. For a row limit that is not negative (20 when none is given),
    the rendered output of a non-empty result shows the first rows of
    the result, in order, as many as the limit allows and no more; it
    ends with a line [...(n more)] exactly when rows were left out, [n]
    being their number, so the rows shown and [n] add up to the rows of
    the result. *)
Theorem QueryMetricsOutput_rows (hp : Helpers) (output : Output) (maxRows : option Z)
    (tree : node) :
  let limit := default MAX_ROWS maxRows in
  let rows := length (data output) in
  (0 <= limit)%Z ->
  data output <> [] ->
  QueryMetricsOutput hp output maxRows = Return tree ->
  exists blocks more,
    rendered_rows tree = Some (blocks, more) /\
    row_blocks hp 0 (take (Z.to_nat limit) (data output)) = Return blocks /\
    length blocks = Nat.min rows (Z.to_nat limit) /\
    (Z.of_nat rows <= limit -> more = Nothing)%Z /\
    (limit < Z.of_nat rows ->
     more = Element "Span" []
              [Text "...("; Number (Z.of_nat rows - Z.of_nat (length blocks)); Text " more)"])%Z.
Proof.
  intros limit rows Hlimit Hdata. subst rows. unfold QueryMetricsOutput. fold limit.
  destruct (data output) as [|row0 rest] eqn:Ed; [done|]. rewrite <- Ed. clear Hdata.
  set (rows := length (data output)).
  rewrite (visibleRows_take output limit Hlimit).
  unfold mbind, completion_bind.
  destruct (row_blocks hp 0 (take (Z.to_nat limit) (data output))) as [blocks|] eqn:Eb;
    [|discriminate].
  cbn [bind]. intros [= <-]. eexists blocks, _. split; [reflexivity|].
  split; [done|].
  assert (Hlen : length blocks = Nat.min rows (Z.to_nat limit)).
  { apply row_blocks_length in Eb. rewrite Eb, length_take. unfold rows. lia. }
  split; [exact Hlen|].
  unfold remainingRows, isTruncated. fold rows. split.
  - intros Hle. assert (Ht : (limit <? Z.of_nat rows)%Z = false) by (apply Z.ltb_ge; lia).
    by rewrite Ht.
  - intros Hlt. assert (Ht : (limit <? Z.of_nat rows)%Z = true) by (apply Z.ltb_lt; lia).
    rewrite Ht.
    assert (Hpos : (0 <? Z.of_nat rows - limit)%Z = true) by (apply Z.ltb_lt; lia).
    rewrite Hpos. do 4 f_equal. rewrite Hlen. lia.
Qed.

Lemma QueryMetricsOutput_rows_witness :
  exists tree blocks,
    QueryMetricsOutput OutputCases.helpers OutputCases.three_rows (Some 2%Z) = Return tree /\
    rendered_rows tree
      = Some (blocks, Element "Span" [] [Text "...("; Number 1; Text " more)"]) /\
    length blocks = 2.
Proof.
  destruct (QueryMetricsOutput OutputCases.helpers OutputCases.three_rows (Some 2%Z))
    as [tree|] eqn:E; [|discriminate].
  destruct (QueryMetricsOutput_rows OutputCases.helpers OutputCases.three_rows (Some 2%Z)
              tree ltac:(done) ltac:(done) E)
    as (blocks & more & Hr & _ & Hlen & _ & Hmore).
  exists tree, blocks. split; [reflexivity|].
  rewrite Hr, (Hmore ltac:(done)), Hlen. done.
Defined.

End Outputs.

(** ** One broken part *)

Section Broken.
Import JS UserRules ProjectFiles.

Lemma keys_or_empty (v : value) :
  exists ks, Object_keys (or_else v (VObj [])) = Return ks.
Proof.
  unfold Object_keys, Object_entries, or_else.
  destruct v as [| |[|]|n|s| |]; cbn; eauto;
    [destruct (n =? 0)%Z | destruct (String.eqb s "")]; cbn; eauto.
Qed.

Lemma model_info_bodiless_measure (k : string) (props ms : list (string * value))
    (m : string) :
  assoc "measures" props = Some (VObj ms) ->
  (m, VNull) ∈ ms ->
  exists e, model_info (k, VObj props) = Throw e.
Proof.
  intros Hms Hin. unfold model_info. cbn [snd fst get]. rewrite Hms.
  unfold mbind, completion_bind. cbn [bind default from_option id].
  destruct (keys_or_empty (default VUndefined (assoc "dimensions" props))) as [ks ->].
  cbn [bind or_else truthy Object_entries own_props].
  destruct (mapM_throws measure_type ms (m, VNull) Hin) as [e ->]; [by eexists|].
  by exists e.
Qed.

(** X20. One measure without a body voids the whole models document:
    [getSemanticModels] returns [null] and logs one error, whatever the
    other measures and models are. *)
Theorem getSemanticModels_bodiless_measure (w : World) (parsed : value)
    (entries props ms : list (string * value)) (k m : string) :
  holds w "semantic_model.yml" (Return parsed) ->
  get_opt parsed "models" = VObj entries ->
  (k, VObj props) ∈ entries ->
  assoc "measures" props = Some (VObj ms) ->
  (m, VNull) ∈ ms ->
  ret (getSemanticModels w) = None /\
  exists e, console (getSemanticModels w) = [("Error reading semantic_model.yml:", e)].
Proof.
  intros H Hm Hin Hms Hnull. unfold getSemanticModels. enter_loader H. rewrite Hm.
  cbn [truthy negb Object_entries own_props bind].
  destruct (mapM_throws model_info entries (k, VObj props) Hin) as [e ->].
  { by eapply model_info_bodiless_measure. }
  cbn [bind try_catch ret console]. eauto.
Qed.

Lemma getSemanticModels_bodiless_measure_witness :
  ret (getSemanticModels BrokenCases.bodiless_measure_project) = None /\
  exists e, console (getSemanticModels BrokenCases.bodiless_measure_project)
            = [("Error reading semantic_model.yml:", e)].
Proof.
  eapply (getSemanticModels_bodiless_measure BrokenCases.bodiless_measure_project
            BrokenCases.bodiless_measure _ _ _ "orders" "order_count").
  - by exists Scenario.models_path, BrokenCases.bodiless_measure_text.
  - reflexivity.
  - left.
  - reflexivity.
  - right; left.
Defined.

(** X21. One empty item in the list of rules voids the whole rules
    document: [getBusinessRules] returns [null] and logs one error,
    whatever the other rules are. *)
Theorem getBusinessRules_empty_item (w : World) (parsed : value) (rules : list value)
    (rule : value) :
  holds w "business_rules.yml" (Return parsed) ->
  get_opt parsed "rules" = VArr rules ->
  rule ∈ rules ->
  rule = VNull \/ rule = VUndefined ->
  ret (getBusinessRules w) = None /\
  exists e, console (getBusinessRules w) = [("Error reading business_rules.yml:", e)].
Proof.
  intros H Hr Hin Hnull. unfold getBusinessRules. enter_loader H. rewrite Hr.
  cbn [truthy negb array_map].
  destruct (mapM_throws rule_info rules rule Hin) as [e ->].
  { destruct Hnull as [-> | ->]; by eexists. }
  cbn [bind try_catch ret console]. eauto.
Qed.

Lemma getBusinessRules_empty_item_witness :
  ret (getBusinessRules BrokenCases.empty_item_project) = None /\
  exists e, console (getBusinessRules BrokenCases.empty_item_project)
            = [("Error reading business_rules.yml:", e)].
Proof.
  apply (getBusinessRules_empty_item BrokenCases.empty_item_project BrokenCases.empty_item
           [Scenario.blank_severity_rule; VNull] VNull).
  - by exists Scenario.rules_path, BrokenCases.empty_item_text.
  - reflexivity.
  - right; left.
  - by left.
Defined.

Lemma connections_of_unreadable (w : World)
    (readdirSync : string -> completion (list Dirent)) (databasesPath : string)
    (entries : list Dirent) (e : Dirent) (err : exn) :
  e ∈ entries ->
  isDirectory e && startsWith "type=" (d_name e) = true ->
  slice (String.length "type=") (d_name e) <> "" ->
  readdirSync (join w [databasesPath; d_name e]) = Throw err ->
  exists err', connections_of w readdirSync databasesPath entries = Throw err'.
Proof.
  intros Hin Htake Hname Hread. induction entries as [|a rest IH];
    [by apply elem_of_nil in Hin|].
  cbn [connections_of]. unfold mbind, completion_bind.
  apply elem_of_cons in Hin as [<-|Hin].
  - rewrite Htake. apply String.eqb_neq in Hname. rewrite Hname. cbn [negb].
    rewrite Hread. by exists err.
  - destruct (IH Hin) as [err' Hrest]. rewrite Hrest.
    match goal with
    | |- exists _, bind ?c _ = _ => destruct c as [found|e0]
    end; cbn [bind]; eauto.
Qed.

(** X22. One [type=] folder that cannot be listed voids the whole
    [databases] folder: [getConnections] returns [null] and logs one
    error, whatever the other folders hold. *)
Theorem getConnections_unreadable (w : World)
    (readdirSync : string -> completion (list Dirent)) (p type : string)
    (entries : list Dirent) (e : Dirent) (err : exn) :
  NAO_DEFAULT_PROJECT_PATH w = Some p -> p <> "" ->
  existsSync w (join w [p; "databases"]) = true ->
  readdirSync (join w [p; "databases"]) = Return entries ->
  e ∈ entries -> isDirectory e = true -> d_name e = "type=" +:+ type -> type <> "" ->
  readdirSync (join w [join w [p; "databases"]; d_name e]) = Throw err ->
  ret (getConnections w readdirSync) = None /\
  exists err', console (getConnections w readdirSync)
               = [("Error reading databases folder:", err')].
Proof.
  intros Hp Hne Hex Hr Hin Hdir Hname Htype Hthrow.
  destruct (proj2 (taken_spec "type=" e type)) as (Htake & Hslice & _); [done|].
  unfold getConnections. rewrite Hp. apply String.eqb_neq in Hne. rewrite Hne.
  cbn zeta. rewrite Hex. cbn [negb]. unfold mbind, completion_bind. rewrite Hr.
  cbn [bind].
  destruct (connections_of_unreadable w readdirSync (join w [p; "databases"]) entries e err
              Hin Htake) as [err' ->];
    [by rewrite Hslice | done |].
  cbn [bind try_catch ret console]. eauto.
Qed.

Lemma getConnections_unreadable_witness :
  ret (getConnections ReaderCases.taxi_project BrokenCases.locked_listing) = None /\
  exists err', console (getConnections ReaderCases.taxi_project BrokenCases.locked_listing)
               = [("Error reading databases folder:", err')].
Proof.
  apply (getConnections_unreadable ReaderCases.taxi_project BrokenCases.locked_listing
           "/proj" "duckdb"
           [mkDirent "type=postgres" true; mkDirent "type=duckdb" true]
           (mkDirent "type=duckdb" true) (Error "EACCES: permission denied"));
    try reflexivity; try done.
  right; left.
Defined.

End Broken.
